(** * avs-visualizer: synthetic vector data and its projection to 3D

    A shallow embedding of the two cores of the repository and of the
    query-parameter parsing of its HTTP handler:

    - [projectVectorsTo3D] (lib/dimension-reduction.ts): block-average an
      n-dimensional vector into a 3D position;
    - [Go.generateVectorData] (go-backend/main.go) and
      [Mock.fetchVectorData] (the TypeScript mock data service): the two
      generators of clustered random vectors;
    - [Go.parseQuery]: the [limit]/[dimensions] parsing of [handleVectorData].

    Numbers.  A JavaScript [number] and a Go [float64] are IEEE 754 binary64
    values; both are modelled by Rocq's primitive [float], so NaN, the
    infinities and rounding are those of the code.  Array lengths, loop
    counters and Go [int]s are modelled by [nat] and [Z].

    Limits.  [Go] and [Mock] describe what the programs compute, with
    integers and sequences of any size; the statements about the items of
    a result are made about them.  [Go64] and [Mock32] are the same
    generators under the limits of their run-times (64-bit [int], the
    largest allocation of [make], the largest length of an array).  The
    statements about when a run returns, panics or throws are made about
    them and name the limits; a result under the limits is a result of
    [Go] or [Mock] ([generateVectorData_returns], [fetchVectorData_returns]).

    Effects.  The generators read an ambient random source and the clock.
    They are written in a state-and-error monad over an abstract world
    [W]; a Go run-time panic and a JavaScript [TypeError] are the errors.
    The statements about them assume of the world only that
    [rand.Float64()] and [Math.random()] lie in [0,1), that [rand.Intn(n)]
    lies in [0,n), and that [Array.prototype.sort] returns a permutation
    of its array.

    Part I is the embedding, Part II the vocabulary of the statements, and
    Part III the proofs: binary64 arithmetic, the projector (C1, C2, C3,
    C8), the query parameters (C10), the limits of the run-times and the
    generators (C4, C5, C6, C7, C9).  Part IV adds properties of the helpers, of the handler as a
    whole and of the projector applied to generated data (X1 to X21). *)

From Stdlib Require Import ZArith Lia Bool List String Ascii Floats Uint63 Permutation.
From stdpp Require Import base list strings pretty.

Local Open Scope Z_scope.
#[local] Set Warnings "-inexact-float".

(** * Part I: the embedding *)

(** ** Numbers *)

(** Conversion of an integer to the nearest binary64 number (exact below
    2^53): [float64(n)] in Go, an integer used as a [number] in JavaScript. *)
Definition of_int (z : Z) : float :=
  SF2Prim (binary_normalize prec emax z 0 false).

(** [Math.floor] on a finite number, as an integer.  The programs apply it
    to finite numbers only; NaN and the infinities are sent to 0 here. *)
Definition floor (x : float) : Z :=
  match Prim2SF x with
  | S754_finite s m e => Z.shiftl (cond_Zopp s (Zpos m)) e
  | _ => 0
  end.

(** Go's conversion [int(x)] of a finite [float64] whose integer part is
    in the range of an [int]: truncation toward zero.  The program converts
    numbers below 10^5 only. *)
Definition trunc (x : float) : Z :=
  match Prim2SF x with
  | S754_finite s m e => cond_Zopp s (Z.shiftl (Zpos m) e)
  | _ => 0
  end.

(** [Number(x.toFixed(decimals))]: for a finite [x] below 10^21 in
    magnitude, the integer [n] nearest to [|x| * 10^decimals] (the larger
    one on a tie), read back as the number nearest to [n / 10^decimals];
    a larger [x], an infinity and NaN are printed and read back as they
    are, and both zeros give 0. *)
Definition toFixed (x : float) (decimals : nat) : float :=
  match Prim2SF x with
  | S754_finite s m e =>
      if PrimFloat.leb (of_int (10 ^ 21)) (PrimFloat.abs x) then x
      else
        let p := 10 ^ Z.of_nat decimals in
        let n := if 0 <=? e then Zpos m * 2 ^ e * p
                 else (2 * Zpos m * p + 2 ^ (- e)) / (2 * 2 ^ (- e)) in
        let r := PrimFloat.div (of_int n) (of_int p) in
        if s then PrimFloat.opp r else r
  | S754_zero _ => 0%float
  | _ => x
  end.

(** The half-open unit interval, the range of [Math.random()] and of
    [rand.Float64()]. *)
Definition unit_interval (u : float) : Prop :=
  PrimFloat.leb 0 u = true /\ PrimFloat.ltb u 1 = true.

(** ** Results of a run *)

(** What a run can end in besides a value: a Go run-time panic, or a
    JavaScript exception. *)
Inductive Error : Type :=
| Panic (msg : string)
| TypeError (msg : string)
| RangeError (msg : string).

Inductive Result (A : Type) : Type :=
| Ok (a : A)
| Err (e : Error).
Arguments Ok {A} a.
Arguments Err {A} e.

(** ** The vector projector (lib/dimension-reduction.ts) *)

(** A dynamically typed value: [any] in TypeScript, [interface{}] in Go.
    [VUndefined] is JavaScript's [undefined] and Go's [nil]. *)
Inductive Value : Type :=
| VUndefined
| VString (s : string)
| VNumber (x : float)
| VInt (z : Z)
| VBool (b : bool)
| VStrings (l : list string)
| VInts (l : list Z).

(** [id: string | number]. *)
Inductive ItemId : Type :=
| IdNumber (n : Z)
| IdString (s : string).

Record VectorItem : Type := {
  id : ItemId;
  key : string;
  vector : list float;
  metadata : list (string * Value);
  clusters : list string
}.

(** [ProcessedVectorItem extends VectorItem]: the five inherited fields,
    then the added ones; an optional field that is not set is [None]. *)
Record ProcessedVectorItem : Type := {
  p_id : ItemId;
  p_key : string;
  p_vector : list float;
  p_metadata : list (string * Value);
  p_clusters : list string;
  position : float * float * float;
  primaryCluster : option string;
  clusterIndex : option nat
}.

(** [array.slice(start, end)] and [array.slice(start)]: a negative index
    counts from the end, and both ends are clamped to the array. *)
Definition sliceIndex (len i : Z) : Z :=
  if i <? 0 then Z.max (len + i) 0 else Z.min i len.

Definition slice {A} (l : list A) (start stop : Z) : list A :=
  let len := Z.of_nat (length l) in
  let k := sliceIndex len start in
  let final := sliceIndex len stop in
  take (Z.to_nat (final - k)) (drop (Z.to_nat k) l).

Definition slice_from {A} (l : list A) (start : Z) : list A :=
  slice l start (Z.of_nat (length l)).

(** [array.reduce((sum, val) => sum + val, 0)]. *)
Definition sum (l : list float) : float :=
  fold_left PrimFloat.add l 0%float.

(** Lines 10-16: how many dimensions each axis gets.  [dimensions] is an
    array length, so [Math.floor(dimensions / 3)] and [dimensions % 3] are
    the integer quotient and remainder. *)
Definition axisDims (dimensions : Z) : Z * Z * Z :=
  let dimPerAxis := dimensions / 3 in
  let remainder := dimensions mod 3 in
  let xDims := dimPerAxis + (if 0 <? remainder then 1 else 0) in
  let yDims := dimPerAxis + (if 1 <? remainder then 1 else 0) in
  let zDims := dimPerAxis in
  (xDims, yDims, zDims).

(** The three slices that lines 21, 24 and 27 average. *)
Definition axisBlocks (vector : list float) : list float * list float * list float :=
  let '(xDims, yDims, zDims) := axisDims (Z.of_nat (length vector)) in
  (slice vector 0 xDims,
   slice vector xDims (xDims + yDims),
   slice_from vector (xDims + yDims)).

(** Lines 19-28: [position], the mean of each block. *)
Definition blockMeans (vector : list float) : float * float * float :=
  let '(xDims, yDims, zDims) := axisDims (Z.of_nat (length vector)) in
  let '(xs, ys, zs) := axisBlocks vector in
  ((sum xs / of_int xDims)%float,
   (sum ys / of_int yDims)%float,
   (sum zs / of_int zDims)%float).

Definition scale : float := 5%float.

(** Lines 31-32: [scaledPosition]. *)
Definition scalePosition (p : float * float * float) : float * float * float :=
  let '(x, y, z) := p in
  ((x * scale)%float, (y * scale)%float, (z * scale)%float).

(** The callback of [data.map]: lines 5-39. *)
Definition projectItem (it : VectorItem) : ProcessedVectorItem :=
  {| (* ...item *)
     p_id := id it;
     p_key := key it;
     p_vector := vector it;
     p_metadata := metadata it;
     p_clusters := clusters it;
     position := scalePosition (blockMeans (vector it));
     primaryCluster := head (clusters it);
     clusterIndex := None |}.

(** [projectVectorsTo3D]: the function contains no [throw] and applies no
    operation that throws on a well-typed [VectorItem[]], so every run ends
    in a value. *)
Definition projectVectorsTo3D (data : list VectorItem) : Result (list ProcessedVectorItem) :=
  Ok (map projectItem data).

(** ** The monad of the generators: world state and errors *)

Definition M (W A : Type) : Type := W -> Result (A * W).

Definition ret {W A} (a : A) : M W A := fun w => Ok (a, w).

Definition bind {W A B} (m : M W A) (k : A -> M W B) : M W B :=
  fun w => match m w with
           | Ok (a, w') => k a w'
           | Err e => Err e
           end.

Definition fail {W A} (e : Error) : M W A := fun _ => Err e.

(** An operation of the world that cannot fail. *)
Definition lift {W A} (f : W -> A * W) : M W A := fun w => Ok (f w).

Notation "x <- m ;; k" := (bind m (fun x => k))
  (at level 100, m at next level, right associativity).

(** ** The Go backend (go-backend/main.go) *)

Module Go.

Record VectorItem : Type := {
  ID : string;
  Key : string;
  Vector : list float;
  Metadata : list (string * Value);
  Clusters : list string
}.

Definition sampleClusters : list string :=
  ["Group A"; "Group B"; "Group C"; "Group D"; "Group E";
   "Group F"; "Group G"; "Group H"; "Group I"; "Group J"]%string.

Definition sampleNames : list string :=
  ["Alpha"; "Beta"; "Gamma"; "Delta"; "Epsilon"; "Zeta"; "Eta"; "Theta"; "Iota"; "Kappa";
   "Lambda"; "Mu"; "Nu"; "Xi"; "Omicron"; "Pi"; "Rho"; "Sigma"; "Tau"; "Upsilon"; "Phi";
   "Chi"; "Psi"; "Omega"]%string.

Definition sampleAttributes : list string :=
  ["Small"; "Medium"; "Large"; "Extra Large"; "Compact"; "Expanded"; "Basic"; "Advanced";
   "Premium"; "Standard"; "Custom"; "Regular"; "Special"; "Limited"; "Unlimited"]%string.

Definition sampleCategories : list string :=
  ["Primary"; "Secondary"; "Tertiary"; "Quaternary"; "Quinary"; "Senary"; "Septenary";
   "Octonary"; "Nonary"; "Denary"]%string.

Definition sampleTypes : list string :=
  ["Type A"; "Type B"; "Type C"; "Type D"; "Type E"; "Type F"; "Type G"; "Type H";
   "Type I"; "Type J"]%string.

Definition sampleRatings : list Z := [1; 2; 3; 4; 5].

Definition sampleStatuses : list string :=
  ["Active"; "Inactive"; "Pending"; "Archived"; "Draft"]%string.

Definition samplePriorities : list string := ["Low"; "Medium"; "High"; "Critical"]%string.

Definition sampleRegions : list string := ["North"; "South"; "East"; "West"; "Central"]%string.

Definition sampleDepartments : list string :=
  ["Sales"; "Marketing"; "Engineering"; "Support"; "Finance"; "HR"]%string.

Definition chars : string :=
  "ABCDEFGHIJKLMNOPQRSTUVWXYZabcdefghijklmnopqrstuvwxyz0123456789".

(** [len(s)] as a Go [int]. *)
Definition len {A} (s : list A) : Z := Z.of_nat (length s).

(** The primary-cluster search of lines 146-152: the index of the first
    entry equal to [target], or -1. *)
Fixpoint findIndex (l : list string) (target : string) (idx : Z) : Z :=
  match l with
  | [] => -1
  | cluster :: rest =>
      if String.eqb cluster target then idx else findIndex rest target (idx + 1)
  end.

(** [fmt.Sprintf("%s %s", a, b)]. *)
Definition Sprintf2 (a b : string) : string := a +:+ " " +:+ b.

(** [strconv.Itoa]. *)
Definition Itoa (i : Z) : string := pretty i.

Definition Hour : Z := 3600 * 1000000000.

Section Backend.
Context {W : Type}.

(** The ambient world: [math/rand]'s global source ([rand.Intn(n)] for
    [n > 0], [rand.Float64()]) and the clock, in nanoseconds. *)
Variable rand_Float64 : W -> float * W.
Variable rand_Intn : Z -> W -> Z * W.
Variable time_Now : W -> Z * W.
Variable formatRFC3339 : Z -> string.

Definition Float64 : M W float := lift rand_Float64.

(** [rand.Intn] panics on a non-positive argument. *)
Definition Intn (n : Z) : M W Z :=
  if n <=? 0 then fail (Panic "invalid argument to Intn")
  else lift (rand_Intn n).

Definition Now : M W Z := lift time_Now.

(** [s[i]], bounds-checked. *)
Definition index {A} (s : list A) (i : Z) : M W A :=
  if i <? 0 then fail (Panic "index out of range")
  else match s !! Z.to_nat i with
       | Some x => ret x
       | None => fail (Panic "index out of range")
       end.

(** [s[i] = x], bounds-checked. *)
Definition store {A} (s : list A) (i : Z) (x : A) : M W (list A) :=
  if (i <? 0) || (len s <=? i) then fail (Panic "index out of range")
  else ret (<[Z.to_nat i := x]> s).

(** [s[:n]] for a slice whose capacity is its length. *)
Definition prefix {A} (s : list A) (n : Z) : M W (list A) :=
  if (n <? 0) || (len s <? n) then fail (Panic "slice bounds out of range")
  else ret (take (Z.to_nat n) s).

(** [make([]T, n)] and [make([]T, 0, n)] with memory for a slice of any
    length: a negative [n] panics.  ([Go64.make] adds the limit of the
    run-time.) *)
Definition make (n : Z) : M W nat :=
  if n <? 0 then fail (Panic "makeslice: len out of range")
  else ret (Z.to_nat n).

Definition makeCap (n : Z) : M W nat :=
  if n <? 0 then fail (Panic "makeslice: cap out of range")
  else ret (Z.to_nat n).

(** The type assertions [x.(string)] and [x.(int)]. *)
Definition assertString (x : Value) : M W string :=
  match x with
  | VString s => ret s
  | _ => fail (Panic "interface conversion: not a string")
  end.

Definition assertInt (x : Value) : M W Z :=
  match x with
  | VInt z => ret z
  | _ => fail (Panic "interface conversion: not an int")
  end.

Definition getRandomItem (items : Value) : M W Value :=
  match items with
  | VStrings v => i <- Intn (len v);; x <- index v i;; ret (VString x)
  | VInts v => i <- Intn (len v);; x <- index v i;; ret (VInt x)
  | _ => ret VUndefined
  end.

(** The Fisher-Yates loop: [for i := len(shuffled) - 1; i > 0; i--]. *)
Fixpoint shuffleLoop (i : nat) (shuffled : list string) : M W (list string) :=
  match i with
  | O => ret shuffled
  | S i' =>
      j <- Intn (Z.of_nat i + 1);;
      sj <- index shuffled j;;
      si <- index shuffled (Z.of_nat i);;
      shuffled <- store shuffled (Z.of_nat i) sj;;
      shuffled <- store shuffled j si;;
      shuffleLoop i' shuffled
  end.

(** Lines 92-107, with the arithmetic of the integers.
    ([Go64.getRandomItems] computes in 64 bits.) *)
Definition getRandomItems (items : list string) (minItems maxItems : Z) : M W (list string) :=
  r <- Intn (maxItems - minItems + 1);;
  let numItems := r + minItems in
  _ <- makeCap numItems;;
  let shuffled := items in
  shuffled <- shuffleLoop (length shuffled - 1) shuffled;;
  prefix shuffled numItems.

(** The loop of [generateRandomKey], [remaining] bytes to go. *)
Fixpoint keyLoop (remaining : nat) : M W string :=
  match remaining with
  | O => ret EmptyString
  | S n =>
      i <- Intn (Z.of_nat (String.length chars));;
      c <- match String.get (Z.to_nat i) chars with
           | Some c => ret c
           | None => fail (Panic "index out of range")
           end;;
      rest <- keyLoop n;;
      ret (String c rest)
  end.

Definition generateRandomKey (length : Z) : M W string :=
  n <- make length;;
  keyLoop n.

Fixpoint pow10 (decimals : nat) (factor : float) : float :=
  match decimals with
  | O => factor
  | S d => pow10 d (factor * 10)%float
  end.

Definition getRandomNumber (min max : float) (decimals : Z) : M W float :=
  u <- Float64;;
  let value := (min + u * (max - min))%float in
  let factor := pow10 (Z.to_nat decimals) 1%float in
  ret (of_int (trunc (value * factor)) / factor)%float.

(** Lines 132-135: one cluster center of [n] components. *)
Fixpoint newCenter (n : nat) : M W (list float) :=
  match n with
  | O => ret []
  | S n' =>
      u <- Float64;;
      rest <- newCenter n';;
      ret ((u * 2 - 1)%float :: rest)
  end.

(** Lines 130-136: [k] cluster centers. *)
Fixpoint newCenters (k : nat) (dimensions : Z) : M W (list (list float)) :=
  match k with
  | O => ret []
  | S k' =>
      n <- make dimensions;;
      center <- newCenter n;;
      rest <- newCenters k' dimensions;;
      ret (center :: rest)
  end.

(** Lines 158-160: [for j := range center { vector[j] = ... }], at index
    [j] with [rest] of the center still to visit. *)
Fixpoint fillVector (rest : list float) (j : Z) (vector : list float) : M W (list float) :=
  match rest with
  | [] => ret vector
  | c :: rest' =>
      u <- Float64;;
      vector <- store vector j (c + (u * 0.5 - 0.25))%float;;
      fillVector rest' (j + 1) vector
  end.

(** Lines 163-177: the metadata literal, its calls in source order. *)
Definition newMetadata : M W (list (string * Value)) :=
  a <- getRandomItem (VStrings sampleAttributes);; a <- assertString a;;
  n <- getRandomItem (VStrings sampleNames);; n <- assertString n;;
  ty <- getRandomItem (VStrings sampleTypes);; ty <- assertString ty;;
  category <- getRandomItem (VStrings sampleCategories);; category <- assertString category;;
  rating <- getRandomItem (VInts sampleRatings);; rating <- assertInt rating;;
  value <- getRandomNumber 10 1000 2;;
  status <- getRandomItem (VStrings sampleStatuses);; status <- assertString status;;
  priority <- getRandomItem (VStrings samplePriorities);; priority <- assertString priority;;
  region <- getRandomItem (VStrings sampleRegions);; region <- assertString region;;
  department <- getRandomItem (VStrings sampleDepartments);; department <- assertString department;;
  now <- Now;;
  days <- Intn 365;;
  active <- Float64;;
  score <- Intn 100;;
  tags <- getRandomItems sampleAttributes 0 5;;
  ret [("name", VString (Sprintf2 a n));
       ("type", VString ty);
       ("category", VString category);
       ("rating", VInt rating);
       ("value", VNumber value);
       ("status", VString status);
       ("priority", VString priority);
       ("region", VString region);
       ("department", VString department);
       ("created", VString (formatRFC3339 (now + (- days) * 24 * Hour)));
       ("isActive", VBool (PrimFloat.ltb 0.2 active));
       ("score", VInt (score + 1));
       ("tags", VStrings tags)]%string.

(** Lines 141-187: the body of the item loop, for index [i]. *)
Definition newItem (clusterCenters : list (list float)) (dimensions i : Z) : M W VectorItem :=
  clusters <- getRandomItems sampleClusters 1 3;;
  c0 <- index clusters 0;;
  let primaryClusterIdx := findIndex sampleClusters c0 0 in
  center <- index clusterCenters primaryClusterIdx;;
  n <- make dimensions;;
  vector <- fillVector center 0 (replicate n 0%float);;
  metadata <- newMetadata;;
  key <- generateRandomKey 8;;
  ret {| ID := Itoa i; Key := key; Vector := vector;
         Metadata := metadata; Clusters := clusters |}.

(** [for i := 0; i < limit; i++ { ...; data = append(data, item) }], with
    [remaining = limit - i] iterations to go. *)
Fixpoint itemLoop (clusterCenters : list (list float)) (dimensions : Z)
    (remaining : nat) (i : Z) (data : list VectorItem) : M W (list VectorItem) :=
  match remaining with
  | O => ret data
  | S r =>
      it <- newItem clusterCenters dimensions i;;
      itemLoop clusterCenters dimensions r (i + 1) (data ++ [it])
  end.

Definition generateVectorData (limit dimensions : Z) : M W (list VectorItem) :=
  clusterCenters <- newCenters (length sampleClusters) dimensions;;
  cap <- makeCap limit;;
  itemLoop clusterCenters dimensions cap 0 [].
End Backend.

(** [strconv.Atoi] for a 64-bit [int]: an optional sign and at least one
    decimal digit, in range; [None] is a non-nil [err]. *)
Definition digit (c : ascii) : option Z :=
  let n := Z.of_N (N_of_ascii c) in
  if (48 <=? n) && (n <=? 57) then Some (n - 48) else None.

Fixpoint parseDigits (s : string) (acc : Z) : option Z :=
  match s with
  | EmptyString => Some acc
  | String c rest =>
      match digit c with
      | Some d => parseDigits rest (acc * 10 + d)
      | None => None
      end
  end.

Definition Atoi (s : string) : option Z :=
  match s with
  | EmptyString => None
  | String c rest =>
      let neg := Ascii.eqb c "-" in
      let body := if neg || Ascii.eqb c "+" then rest else s in
      match body with
      | EmptyString => None
      | _ =>
          match parseDigits body 0 with
          | Some n =>
              let v := if neg then - n else n in
              if (- 2 ^ 63 <=? v) && (v <=? 2 ^ 63 - 1) then Some v else None
          | None => None
          end
      end
  end.

(** Lines 211-229 of [handleVectorData]: the query parameters, with
    [r.URL.Query().Get] giving the empty string for a missing one. *)
Definition parseQuery (limitStr dimensionsStr : string) : Z * Z :=
  let limit :=
    if String.eqb limitStr "" then 500
    else match Atoi limitStr with
         | Some parsedLimit => if 0 <? parsedLimit then parsedLimit else 500
         | None => 500
         end in
  let dimensions :=
    if String.eqb dimensionsStr "" then 100
    else match Atoi dimensionsStr with
         | Some parsedDimensions => if 0 <? parsedDimensions then parsedDimensions else 100
         | None => 100
         end in
  (limit, dimensions).

(** What the handler writes: a bare status, an [http.Error], or the JSON
    body [{data, total}] with status 200. *)
Inductive Response : Type :=
| Status (code : Z)
| HttpError (msg : string) (code : Z)
| Json (data : list VectorItem) (total : Z).

Definition handleVectorData {W} rand_Float64 rand_Intn time_Now formatRFC3339
    (method limitStr dimensionsStr : string) : M W Response :=
  if String.eqb method "OPTIONS" then ret (Status 200)
  else if negb (String.eqb method "GET") then ret (HttpError "Method not allowed" 405)
  else
    let '(limit, dimensions) := parseQuery limitStr dimensionsStr in
    data <- generateVectorData rand_Float64 rand_Intn time_Now formatRFC3339 limit dimensions;;
    ret (Json data (len data)).

End Go.

(** ** The mock data service (TypeScript) *)

Module Mock.

Definition SAMPLE_CLUSTERS : list string :=
  ["Group A"; "Group B"; "Group C"; "Group D"; "Group E";
   "Group F"; "Group G"; "Group H"; "Group I"; "Group J"]%string.

Module SAMPLE_METADATA.
Definition names : list string :=
  ["Alpha"; "Beta"; "Gamma"; "Delta"; "Epsilon"; "Zeta"; "Eta"; "Theta"; "Iota"; "Kappa";
   "Lambda"; "Mu"; "Nu"; "Xi"; "Omicron"; "Pi"; "Rho"; "Sigma"; "Tau"; "Upsilon"; "Phi";
   "Chi"; "Psi"; "Omega"]%string.
Definition attributes : list string :=
  ["Small"; "Medium"; "Large"; "Extra Large"; "Compact"; "Expanded"; "Basic"; "Advanced";
   "Premium"; "Standard"; "Custom"; "Regular"; "Special"; "Limited"; "Unlimited"]%string.
Definition categories : list string :=
  ["Primary"; "Secondary"; "Tertiary"; "Quaternary"; "Quinary"; "Senary"; "Septenary";
   "Octonary"; "Nonary"; "Denary"]%string.
Definition types : list string :=
  ["Type A"; "Type B"; "Type C"; "Type D"; "Type E"; "Type F"; "Type G"; "Type H";
   "Type I"; "Type J"]%string.
Definition ratings : list float := [1; 2; 3; 4; 5]%float.
Definition statuses : list string :=
  ["Active"; "Inactive"; "Pending"; "Archived"; "Draft"]%string.
Definition priorities : list string := ["Low"; "Medium"; "High"; "Critical"]%string.
Definition regions : list string := ["North"; "South"; "East"; "West"; "Central"]%string.
Definition departments : list string :=
  ["Sales"; "Marketing"; "Engineering"; "Support"; "Finance"; "HR"]%string.
End SAMPLE_METADATA.

Definition chars : string :=
  "ABCDEFGHIJKLMNOPQRSTUVWXYZabcdefghijklmnopqrstuvwxyz0123456789".

(** [array[i]] for an integer [i]: [undefined] outside the array. *)
Definition at_index {A} (array : list A) (i : Z) : option A :=
  if i <? 0 then None else array !! Z.to_nat i.

(** [array.indexOf(x)], where [x] may be [undefined]. *)
Fixpoint indexOfFrom (array : list string) (x : string) (i : Z) : Z :=
  match array with
  | [] => -1
  | y :: rest => if String.eqb y x then i else indexOfFrom rest x (i + 1)
  end.

Definition indexOf (array : list string) (x : option string) : Z :=
  match x with
  | Some x => indexOfFrom array x 0
  | None => -1
  end.

(** A string in a template literal. *)
Definition display (x : option string) : string :=
  match x with
  | Some s => s
  | None => "undefined"
  end.

Definition stringValue (x : option string) : Value :=
  match x with
  | Some s => VString s
  | None => VUndefined
  end.

Definition numberValue (x : option float) : Value :=
  match x with
  | Some n => VNumber n
  | None => VUndefined
  end.

(** [{ limit = 500, dimensions = 100 }: FetchVectorDataParams]. *)
Record FetchVectorDataParams : Type := {
  limit : option Z;
  dimensions : option Z
}.

Section Service.
Context {W : Type}.

(** The ambient world: [Math.random()], [Date.now()], and the engine's
    [Array.prototype.sort], which calls the comparison function (here one
    that reads the random source) as often as it likes. *)
Variable Math_random : W -> float * W.
Variable Date_now : W -> float * W.
Variable toISOString : float -> string.
Variable Array_sort : forall A : Type, (A -> A -> W -> float * W) -> list A -> W -> list A * W.

Definition random : M W float := lift Math_random.

Definition getRandomItem {A} (array : list A) : M W (option A) :=
  u <- random;;
  ret (at_index array (floor (u * of_int (Z.of_nat (length array))))).

Definition getRandomItems {A} (array : list A) (minItems maxItems : Z) : M W (list A) :=
  u <- random;;
  let numItems := floor (u * of_int (maxItems - minItems + 1)) + minItems in
  shuffled <- lift (Array_sort A
                      (fun _ _ w => let '(u, w') := Math_random w in ((0.5 - u)%float, w'))
                      array);;
  ret (slice shuffled 0 numItems).

Definition getRandomNumber (min max : float) (decimals : nat) : M W float :=
  u <- random;;
  let value := (u * (max - min) + min)%float in
  ret (toFixed value decimals).

(** The loop of [generateRandomKey], [remaining] characters to go. *)
Fixpoint keyLoop (remaining : nat) (result : string) : M W string :=
  match remaining with
  | O => ret result
  | S n =>
      u <- random;;
      let i := floor (u * of_int (Z.of_nat (String.length chars))) in
      let c := match (if i <? 0 then None else String.get (Z.to_nat i) chars) with
               | Some c => String c EmptyString
               | None => EmptyString
               end in
      keyLoop n (result +:+ c)
  end.

Definition generateRandomKey (length : Z) : M W string :=
  keyLoop (Z.to_nat length) "".

(** [Array.from({ length: n }, () => Math.random() * 2 - 1)]. *)
Fixpoint newCenter (n : nat) : M W (list float) :=
  match n with
  | O => ret []
  | S n' =>
      u <- random;;
      rest <- newCenter n';;
      ret ((u * 2 - 1)%float :: rest)
  end.

(** [SAMPLE_CLUSTERS.map(() => ...)], over the [k] names, with arrays of
    any length.  ([Mock32.newCenters] adds the limit of the engine.) *)
Fixpoint newCenters (k : nat) (dimensions : Z) : M W (list (list float)) :=
  match k with
  | O => ret []
  | S k' =>
      center <- newCenter (Z.to_nat dimensions);;
      rest <- newCenters k' dimensions;;
      ret (center :: rest)
  end.

(** [center.map((val) => val + (Math.random() * 0.5 - 0.25))]. *)
Fixpoint jitter (center : list float) : M W (list float) :=
  match center with
  | [] => ret []
  | val :: rest =>
      u <- random;;
      rest' <- jitter rest;;
      ret ((val + (u * 0.5 - 0.25))%float :: rest')
  end.

(** Lines 128-142: the metadata literal, its calls in source order. *)
Definition newMetadata : M W (list (string * Value)) :=
  a <- getRandomItem SAMPLE_METADATA.attributes;;
  n <- getRandomItem SAMPLE_METADATA.names;;
  ty <- getRandomItem SAMPLE_METADATA.types;;
  category <- getRandomItem SAMPLE_METADATA.categories;;
  rating <- getRandomItem SAMPLE_METADATA.ratings;;
  value <- getRandomNumber 10 1000 2;;
  status <- getRandomItem SAMPLE_METADATA.statuses;;
  priority <- getRandomItem SAMPLE_METADATA.priorities;;
  region <- getRandomItem SAMPLE_METADATA.regions;;
  department <- getRandomItem SAMPLE_METADATA.departments;;
  now <- lift Date_now;;
  age <- getRandomNumber 0 (of_int (365 * 24 * 60 * 60 * 1000)) 0;;
  active <- random;;
  score <- getRandomNumber 1 100 0;;
  tags <- getRandomItems SAMPLE_METADATA.attributes 0 5;;
  ret [("name", VString (display a +:+ " " +:+ display n));
       ("type", stringValue ty);
       ("category", stringValue category);
       ("rating", numberValue rating);
       ("value", VNumber value);
       ("status", stringValue status);
       ("priority", stringValue priority);
       ("region", stringValue region);
       ("department", stringValue department);
       ("created", VString (toISOString (now - age)%float));
       ("isActive", VBool (PrimFloat.ltb 0.2 active));
       ("score", VNumber score);
       ("tags", VStrings tags)]%string.

(** Lines 116-152: the body of the item loop, for index [i]. *)
Definition newItem (clusterCenters : list (list float)) (i : Z) : M W VectorItem :=
  clusters <- getRandomItems SAMPLE_CLUSTERS 1 3;;
  let primaryClusterIdx := indexOf SAMPLE_CLUSTERS (at_index clusters 0) in
  vector <- match at_index clusterCenters primaryClusterIdx with
            | Some center => jitter center
            | None => fail (TypeError "Cannot read properties of undefined (reading 'map')")
            end;;
  metadata <- newMetadata;;
  key <- generateRandomKey 8;;
  ret {| id := IdNumber i; key := key; vector := vector;
         metadata := metadata; clusters := clusters |}.

(** [for (let i = 0; i < limit; i++) { ...; data.push(item) }], with
    [remaining = limit - i] iterations to go. *)
Fixpoint itemLoop (clusterCenters : list (list float))
    (remaining : nat) (i : Z) (data : list VectorItem) : M W (list VectorItem) :=
  match remaining with
  | O => ret data
  | S r =>
      it <- newItem clusterCenters i;;
      itemLoop clusterCenters r (i + 1) (data ++ [it])
  end.

Definition fetchVectorData (params : FetchVectorDataParams) : M W (list VectorItem) :=
  let limit := default 500 (limit params) in
  let dimensions := default 100 (dimensions params) in
  clusterCenters <- newCenters (length SAMPLE_CLUSTERS) dimensions;;
  itemLoop clusterCenters (Z.to_nat limit) 0 [].
End Service.

End Mock.

(** ** The limits of the two run-times

    [Go] and [Mock] above read a Go [int] as an integer, and let [make],
    [Array.from] and [push] build a slice or an array of any length: they
    describe the results of the programs.  The programs run under three
    limits which they never test themselves:

    - a Go [int] has 64 bits, and its arithmetic wraps around;
    - [runtime.makeslice] panics when the memory asked for, the element
      size times the capacity, exceeds [maxAlloc], with the message about
      the length when the length alone is already too large;
    - an ECMAScript array has fewer than 2^32 elements: [Array.from] and
      [push] throw a [RangeError] beyond.

    [Go64] and [Mock32] are the functions that meet these limits, with the
    limits; the functions that do not are those of [Go] and [Mock].  Whether
    a run returns for given arguments is stated about [Go64] and [Mock32].
    Memory itself is not part of the world: an allocation that the
    run-time accepts is taken to be served. *)

Module Go64.

(** The value of an integer expression in a 64-bit [int]. *)
Definition int (z : Z) : Z := (z + 2 ^ 63) mod 2 ^ 64 - 2 ^ 63.

(** [maxAlloc] of the runtime on the 64-bit platforms with 48 address
    bits (linux/amd64 among them). *)
Definition maxAlloc : Z := 2 ^ 48.

(** Element sizes in bytes: a [byte], a [float64], a [string] (pointer
    and length), and a [VectorItem] (two strings, two slices of three
    words each, and a map, which is a pointer). *)
Definition sizeofByte : Z := 1.
Definition sizeofFloat64 : Z := 8.
Definition sizeofString : Z := 16.
Definition sizeofVectorItem : Z := 16 + 16 + 24 + 8 + 24.

Section Backend.
Context {W : Type}.

Variable rand_Float64 : W -> float * W.
Variable rand_Intn : Z -> W -> Z * W.
Variable time_Now : W -> Z * W.
Variable formatRFC3339 : Z -> string.

(** The checks of [runtime.makeslice(et, len, cap)], for elements of
    [size] bytes. *)
Definition makeslice (size len cap : Z) : M W unit :=
  if (cap <? 0) || (maxAlloc <? size * cap) || (len <? 0) || (cap <? len) then
    if (len <? 0) || (maxAlloc <? size * len)
    then fail (Panic "makeslice: len out of range")
    else fail (Panic "makeslice: cap out of range")
  else ret tt.

(** [make([]T, n)] and [make([]T, 0, n)]. *)
Definition make (size n : Z) : M W nat :=
  _ <- makeslice size n n;;
  ret (Z.to_nat n).

Definition makeCap (size n : Z) : M W nat :=
  _ <- makeslice size 0 n;;
  ret (Z.to_nat n).

(** Lines 92-107.  [maxItems-minItems+1] and the sum with [minItems] are
    computed in [int]; wrapping once at the end gives the same value as
    wrapping after every operation.  The indices of the shuffle stay below
    [len(items)], where nothing wraps. *)
Definition getRandomItems (items : list string) (minItems maxItems : Z) : M W (list string) :=
  r <- Go.Intn rand_Intn (int (maxItems - minItems + 1));;
  let numItems := int (r + minItems) in
  _ <- makeCap sizeofString numItems;;
  _ <- make sizeofString (Go.len items);;
  let shuffled := items in
  shuffled <- Go.shuffleLoop rand_Intn (length shuffled - 1) shuffled;;
  Go.prefix shuffled numItems.

Definition generateRandomKey (length : Z) : M W string :=
  n <- make sizeofByte length;;
  Go.keyLoop rand_Intn n.

(** Lines 130-136: [k] cluster centers. *)
Fixpoint newCenters (k : nat) (dimensions : Z) : M W (list (list float)) :=
  match k with
  | O => ret []
  | S k' =>
      n <- make sizeofFloat64 dimensions;;
      center <- Go.newCenter rand_Float64 n;;
      rest <- newCenters k' dimensions;;
      ret (center :: rest)
  end.

(** Lines 163-177: the metadata literal, its calls in source order.  The
    operands of its integer arithmetic are results of [rand.Intn] with a
    constant bound. *)
Definition newMetadata : M W (list (string * Value)) :=
  a <- Go.getRandomItem rand_Intn (VStrings Go.sampleAttributes);; a <- Go.assertString a;;
  n <- Go.getRandomItem rand_Intn (VStrings Go.sampleNames);; n <- Go.assertString n;;
  ty <- Go.getRandomItem rand_Intn (VStrings Go.sampleTypes);; ty <- Go.assertString ty;;
  category <- Go.getRandomItem rand_Intn (VStrings Go.sampleCategories);;
  category <- Go.assertString category;;
  rating <- Go.getRandomItem rand_Intn (VInts Go.sampleRatings);; rating <- Go.assertInt rating;;
  value <- Go.getRandomNumber rand_Float64 10 1000 2;;
  status <- Go.getRandomItem rand_Intn (VStrings Go.sampleStatuses);;
  status <- Go.assertString status;;
  priority <- Go.getRandomItem rand_Intn (VStrings Go.samplePriorities);;
  priority <- Go.assertString priority;;
  region <- Go.getRandomItem rand_Intn (VStrings Go.sampleRegions);;
  region <- Go.assertString region;;
  department <- Go.getRandomItem rand_Intn (VStrings Go.sampleDepartments);;
  department <- Go.assertString department;;
  now <- Go.Now time_Now;;
  days <- Go.Intn rand_Intn 365;;
  active <- Go.Float64 rand_Float64;;
  score <- Go.Intn rand_Intn 100;;
  tags <- getRandomItems Go.sampleAttributes 0 5;;
  ret [("name", VString (Go.Sprintf2 a n));
       ("type", VString ty);
       ("category", VString category);
       ("rating", VInt rating);
       ("value", VNumber value);
       ("status", VString status);
       ("priority", VString priority);
       ("region", VString region);
       ("department", VString department);
       ("created", VString (formatRFC3339 (now + (- days) * 24 * Go.Hour)));
       ("isActive", VBool (PrimFloat.ltb 0.2 active));
       ("score", VInt (score + 1));
       ("tags", VStrings tags)]%string.

(** Lines 141-187: the body of the item loop, for index [i]. *)
Definition newItem (clusterCenters : list (list float)) (dimensions i : Z)
    : M W Go.VectorItem :=
  clusters <- getRandomItems Go.sampleClusters 1 3;;
  c0 <- Go.index clusters 0;;
  let primaryClusterIdx := Go.findIndex Go.sampleClusters c0 0 in
  center <- Go.index clusterCenters primaryClusterIdx;;
  n <- make sizeofFloat64 dimensions;;
  vector <- Go.fillVector rand_Float64 center 0 (replicate n 0%float);;
  metadata <- newMetadata;;
  key <- generateRandomKey 8;;
  ret {| Go.ID := Go.Itoa i; Go.Key := key; Go.Vector := vector;
         Go.Metadata := metadata; Go.Clusters := clusters |}.

(** The item loop; [append] stays within the capacity asked for. *)
Fixpoint itemLoop (clusterCenters : list (list float)) (dimensions : Z)
    (remaining : nat) (i : Z) (data : list Go.VectorItem) : M W (list Go.VectorItem) :=
  match remaining with
  | O => ret data
  | S r =>
      it <- newItem clusterCenters dimensions i;;
      itemLoop clusterCenters dimensions r (i + 1) (data ++ [it])
  end.

Definition generateVectorData (limit dimensions : Z) : M W (list Go.VectorItem) :=
  clusterCenters <- newCenters (length Go.sampleClusters) dimensions;;
  cap <- makeCap sizeofVectorItem limit;;
  itemLoop clusterCenters dimensions cap 0 [].
End Backend.

(** The handler; a panic of the generator leaves it without a response. *)
Definition handleVectorData {W} rand_Float64 rand_Intn time_Now formatRFC3339
    (method limitStr dimensionsStr : string) : M W Go.Response :=
  if String.eqb method "OPTIONS" then ret (Go.Status 200)
  else if negb (String.eqb method "GET") then ret (Go.HttpError "Method not allowed" 405)
  else
    let '(limit, dimensions) := Go.parseQuery limitStr dimensionsStr in
    data <- generateVectorData rand_Float64 rand_Intn time_Now formatRFC3339 limit dimensions;;
    ret (Go.Json data (Go.len data)).

End Go64.

Module Mock32.

(** The largest length of an array. *)
Definition maxLength : Z := 2 ^ 32 - 1.

Section Service.
Context {W : Type}.

Variable Math_random : W -> float * W.
Variable Date_now : W -> float * W.
Variable toISOString : float -> string.
Variable Array_sort : forall A : Type, (A -> A -> W -> float * W) -> list A -> W -> list A * W.

(** The array that [Array.from({ length: len }, ...)] creates before it
    fills it: a negative length counts as 0. *)
Definition arrayCreate (len : Z) : M W nat :=
  if maxLength <? len then fail (RangeError "Invalid array length")
  else ret (Z.to_nat len).

(** [array.push(x)]. *)
Definition push {A} (array : list A) (x : A) : M W (list A) :=
  if maxLength <=? Z.of_nat (length array) then fail (RangeError "Invalid array length")
  else ret (array ++ [x]).

(** [SAMPLE_CLUSTERS.map(() => Array.from({ length: dimensions }, ...))],
    over the [k] names. *)
Fixpoint newCenters (k : nat) (dimensions : Z) : M W (list (list float)) :=
  match k with
  | O => ret []
  | S k' =>
      n <- arrayCreate dimensions;;
      center <- Mock.newCenter Math_random n;;
      rest <- newCenters k' dimensions;;
      ret (center :: rest)
  end.

(** [for (let i = 0; i < limit; i++) { ...; data.push(item) }]. *)
Fixpoint itemLoop (clusterCenters : list (list float))
    (remaining : nat) (i : Z) (data : list VectorItem) : M W (list VectorItem) :=
  match remaining with
  | O => ret data
  | S r =>
      it <- Mock.newItem Math_random Date_now toISOString Array_sort clusterCenters i;;
      data <- push data it;;
      itemLoop clusterCenters r (i + 1) data
  end.

Definition fetchVectorData (params : Mock.FetchVectorDataParams) : M W (list VectorItem) :=
  let limit := default 500 (Mock.limit params) in
  let dimensions := default 100 (Mock.dimensions params) in
  clusterCenters <- newCenters (length Mock.SAMPLE_CLUSTERS) dimensions;;
  itemLoop clusterCenters (Z.to_nat limit) 0 [].
End Service.

End Mock32.

(** * Part II: the vocabulary of the statements *)

(** ** Measuring binary64 numbers

    A finite number [m * 2^e] is measured by the integer [m * 2^(e + K)];
    [K] is large enough for every exponent that occurs. *)

Module F64.
Local Open Scope Z_scope.

Definition K : Z := 2200.

(** The measure of [m * 2^e]. *)
Definition scaled (m e : Z) : Z := m * 2 ^ (e + K).

(** The measure of a number that is zero or finite. *)
Definition SFval (x : spec_float) : option Z :=
  match x with
  | S754_zero _ => Some 0
  | S754_finite s m e => Some (cond_Zopp s (scaled (Zpos m) e))
  | _ => None
  end.

Definition fval (x : float) : option Z := SFval (Prim2SF x).

(** The value of 0.25, the common unit of the constants below. *)
Definition U4 : Z := 2 ^ (K - 2).

(** The largest number below 1. *)
Definition pred_one : float := Eval vm_compute in PrimFloat.next_down 1.

End F64.

(** ** Concrete inputs of the projector

    The item of the spec's concrete case, and one whose vector has two
    components. *)
Definition vector9 : list float := [0; 0; 0; 3; 3; 3; 6; 6; 6]%float.

Definition item9 : VectorItem :=
  {| id := IdNumber 0; key := "k0"; vector := vector9; metadata := []; clusters := [] |}.

Definition item2 : VectorItem :=
  {| id := IdNumber 0; key := "k0"; vector := [1; 2]%float; metadata := []; clusters := [] |}.

(** ** Query values

    A decimal numeral as [strconv.Atoi] reads it: an optional sign, then
    one or more digits. *)
Fixpoint allDigits (s : string) : bool :=
  match s with
  | EmptyString => true
  | String c rest =>
      match Go.digit c with
      | Some _ => allDigits rest
      | None => false
      end
  end.

Definition numeric (s : string) : bool :=
  match s with
  | EmptyString => false
  | String c rest =>
      if Ascii.eqb c "-" || Ascii.eqb c "+"
      then negb (String.eqb rest "") && allDigits rest
      else allDigits s
  end.

(** A query value that must fall back to the default: missing (empty),
    not a numeral, rejected by [Atoi] (out of range), or not positive. *)
Definition fallsBack (s : string) : Prop :=
  s = ""%string \/ numeric s = false \/ Go.Atoi s = None
  \/ exists v, Go.Atoi s = Some v /\ v <= 0.

(** ** Runs and generated items

    [succeeds m Q w]: the run of [m] from the world [w] ends in a value
    (no panic, no exception), and the value and the final world satisfy
    [Q]. *)
Definition succeeds {W A} (m : M W A) (Q : A -> W -> Prop) (w : W) : Prop :=
  match m w with
  | Ok (a, w') => Q a w'
  | Err _ => False
  end.

(** [lo <= x <= hi], with the comparison of binary64 numbers. *)
Definition between (lo hi x : float) : Prop :=
  PrimFloat.leb lo x = true /\ PrimFloat.leb x hi = true.

(** One center per cluster name, [d] components each, all in [-1, 1]. *)
Definition centersOk (vocab : list string) (d : nat) (centers : list (list float)) : Prop :=
  length centers = length vocab
  /\ Forall (fun c => length c = d /\ Forall (between (-1) 1) c) centers.

(** Every component of [vector] is the component of [center] plus a noise
    in [-0.25, 0.25]. *)
Definition nearCenter (center vector : list float) : Prop :=
  Forall2 (fun c v => exists noise, between (-0.25) 0.25 noise /\ v = (c + noise)%float)
          center vector.

(** The vector that the generators build from a center: every component
    of the center plus a noise [u * 0.5 - 0.25], with one fresh draw [u] of
    the random source for each component, in the order of the components;
    with it, the world after the draws. *)
Fixpoint withNoise {W} (draw : W -> float * W) (center : list float) (w : W)
    : list float * W :=
  match center with
  | [] => ([], w)
  | c :: rest =>
      let '(u, w1) := draw w in
      let '(v, w2) := withNoise draw rest w1 in
      ((c + (u * 0.5 - 0.25))%float :: v, w2)
  end.

(** The value of [numItems] in the run of [getRandomItems] of the Go
    backend from the world [w] (line 93), when the argument of [rand.Intn]
    is positive: the number drawn plus [minItems], in a 64-bit [int]. *)
Definition numItems {W} (rand_Intn : Z -> W -> Z * W) (minItems maxItems : Z) (w : W) : Z :=
  Go64.int (fst (rand_Intn (Go64.int (maxItems - minItems + 1)) w) + minItems).

(** One to three pairwise distinct names of the vocabulary. *)
Definition clustersOk (vocab clusters : list string) : Prop :=
  (1 <= length clusters <= 3)%nat /\ NoDup clusters /\ clusters ⊆ vocab.

(** The primary cluster [clusters[0]] is the name at index [idx] of the
    vocabulary, and the vector lies near the center with that index. *)
Definition primaryOk (vocab : list string) (centers : list (list float))
    (clusters : list string) (vector : list float) : Prop :=
  exists c0 idx center,
    clusters !! 0%nat = Some c0 /\ vocab !! idx = Some c0
    /\ centers !! idx = Some center /\ nearCenter center vector.

(** The item at position [k] of a run of the Go generator whose cluster
    centers are [centers]. *)
Definition goItemOk (centers : list (list float)) (k : Z) (it : Go.VectorItem) : Prop :=
  Go.ID it = Go.Itoa k
  /\ clustersOk Go.sampleClusters (Go.Clusters it)
  /\ primaryOk Go.sampleClusters centers (Go.Clusters it) (Go.Vector it).

(** The item at position [k] of a run of the mock service whose cluster
    centers are [centers]. *)
Definition mockItemOk (centers : list (list float)) (k : Z) (it : VectorItem) : Prop :=
  id it = IdNumber k
  /\ clustersOk Mock.SAMPLE_CLUSTERS (clusters it)
  /\ primaryOk Mock.SAMPLE_CLUSTERS centers (clusters it) (vector it).

(** ** What else a generated item carries

    The key and the metadata of an item. *)

(** [c] occurs in [alphabet]; every character of [s] occurs in
    [alphabet]. *)
Fixpoint occurs (c : ascii) (alphabet : string) : bool :=
  match alphabet with
  | EmptyString => false
  | String a rest => Ascii.eqb a c || occurs c rest
  end.

Fixpoint overAlphabet (alphabet s : string) : bool :=
  match s with
  | EmptyString => true
  | String c rest => occurs c alphabet && overAlphabet alphabet rest
  end.

(** At most [n] pairwise distinct entries of the vocabulary. *)
Definition tagsOk (vocab tags : list string) (n : nat) : Prop :=
  (length tags <= n)%nat /\ NoDup tags /\ tags ⊆ vocab.

(** The metadata of an item of the Go generator: the thirteen keys of
    the map literal, listed in the order of the literal, each drawn value
    an entry of its list, the score in 1..100, and at most five distinct
    attributes as tags. *)
Definition goMetadataOk (m : list (string * Value)) : Prop :=
  exists a n ty category rating value status priority region department created active score tags,
    m = [("name", VString (Go.Sprintf2 a n));
         ("type", VString ty);
         ("category", VString category);
         ("rating", VInt rating);
         ("value", VNumber value);
         ("status", VString status);
         ("priority", VString priority);
         ("region", VString region);
         ("department", VString department);
         ("created", VString created);
         ("isActive", VBool active);
         ("score", VInt score);
         ("tags", VStrings tags)]%string
    /\ a ∈ Go.sampleAttributes /\ n ∈ Go.sampleNames /\ ty ∈ Go.sampleTypes
    /\ category ∈ Go.sampleCategories /\ rating ∈ Go.sampleRatings
    /\ status ∈ Go.sampleStatuses /\ priority ∈ Go.samplePriorities
    /\ region ∈ Go.sampleRegions /\ department ∈ Go.sampleDepartments
    /\ 1 <= score <= 100
    /\ tagsOk Go.sampleAttributes tags 5.

(** The metadata and the key of an item of the Go generator; the key has
    eight characters of [chars]. *)
Definition goItemFields (it : Go.VectorItem) : Prop :=
  goMetadataOk (Go.Metadata it)
  /\ String.length (Go.Key it) = 8%nat
  /\ overAlphabet Go.chars (Go.Key it) = true.

(** The metadata of an item of the mock service: the thirteen fields of
    the literal, in its order; every drawn value is an entry of its list,
    none is [undefined]. *)
Definition mockMetadataOk (m : list (string * Value)) : Prop :=
  exists a n ty category rating value status priority region department created active score tags,
    m = [("name", VString (a +:+ " " +:+ n));
         ("type", VString ty);
         ("category", VString category);
         ("rating", VNumber rating);
         ("value", VNumber value);
         ("status", VString status);
         ("priority", VString priority);
         ("region", VString region);
         ("department", VString department);
         ("created", VString created);
         ("isActive", VBool active);
         ("score", VNumber score);
         ("tags", VStrings tags)]%string
    /\ a ∈ Mock.SAMPLE_METADATA.attributes /\ n ∈ Mock.SAMPLE_METADATA.names
    /\ ty ∈ Mock.SAMPLE_METADATA.types /\ category ∈ Mock.SAMPLE_METADATA.categories
    /\ rating ∈ Mock.SAMPLE_METADATA.ratings
    /\ status ∈ Mock.SAMPLE_METADATA.statuses /\ priority ∈ Mock.SAMPLE_METADATA.priorities
    /\ region ∈ Mock.SAMPLE_METADATA.regions /\ department ∈ Mock.SAMPLE_METADATA.departments
    /\ tagsOk Mock.SAMPLE_METADATA.attributes tags 5.

Definition mockItemFields (it : VectorItem) : Prop :=
  mockMetadataOk (metadata it)
  /\ String.length (key it) = 8%nat
  /\ overAlphabet Mock.chars (key it) = true.

(** ** Projected positions *)

(** A position inside the cube [-6.25, 6.25]^3. *)
Definition inCube (p : float * float * float) : Prop :=
  let '(x, y, z) := p in
  between (-6.25) 6.25 x /\ between (-6.25) 6.25 y /\ between (-6.25) 6.25 z.

(** An item whose vector has four components of [-1.25, 1.25]. *)
Definition item4 : VectorItem :=
  {| id := IdNumber 0; key := "k0"; vector := [0.5; -1; 1.25; 0.25]%float;
     metadata := []; clusters := ["Group A"]%string |}.

(** ** A sample world

    A deterministic stand-in for the random source and the clock: the
    world is a counter of draws.  It satisfies what the generators rely
    on, and lets them run inside Rocq. *)

Module Sample.

Definition World : Type := nat.

(** The random source cycles through four numbers of [0,1), and
    [rand.Intn(n)] is a residue modulo [n]. *)
Definition unitFloats : list float := [0; 0.25; 0.5; 0.75]%float.

Definition rand_Float64 (w : World) : float * World :=
  (nth (w mod 4) unitFloats 0%float, S w).

Definition rand_Intn (n : Z) (w : World) : Z * World :=
  ((Z.of_nat w * 7 + 3) mod n, S w).

(** The clock stands still; times are printed as integers. *)
Definition time_Now (w : World) : Z * World := (1700000000 * 1000000000, w).

Definition formatRFC3339 (t : Z) : string := pretty (t / 1000000000).

Definition Date_now (w : World) : float * World := (of_int 1700000000000, w).

Definition toISOString (t : float) : string := pretty (floor t).

(** An insertion sort that asks the comparison function. *)
Fixpoint insertBy {A} (cmp : A -> A -> World -> float * World) (x : A) (l : list A)
    (w : World) : list A * World :=
  match l with
  | [] => ([x], w)
  | y :: rest =>
      let '(c, w') := cmp x y w in
      if PrimFloat.ltb c 0 then (x :: y :: rest, w')
      else let '(r, w'') := insertBy cmp x rest w' in (y :: r, w'')
  end.

Fixpoint sortBy {A} (cmp : A -> A -> World -> float * World) (l : list A)
    (w : World) : list A * World :=
  match l with
  | [] => ([], w)
  | x :: rest => let '(s, w') := sortBy cmp rest w in insertBy cmp x s w'
  end.

Definition Array_sort (A : Type) := @sortBy A.

(** The two generators in the sample world. *)
Definition generateVectorData :=
  Go.generateVectorData rand_Float64 rand_Intn time_Now formatRFC3339.

Definition fetchVectorData :=
  Mock.fetchVectorData rand_Float64 Date_now toISOString Array_sort.

(** The same under the limits of the run-times. *)
Definition generateVectorData64 :=
  Go64.generateVectorData rand_Float64 rand_Intn time_Now formatRFC3339.

Definition fetchVectorData32 :=
  Mock32.fetchVectorData rand_Float64 Date_now toISOString Array_sort.

End Sample.

(** * Part III: proofs *)

(** ** Binary64 arithmetic

    The facts about rounded arithmetic that the generators rely on, derived
    from the specification of the primitive operations ([SpecFloat]).  A
    finite number [m * 2^e] is measured by the integer [m * 2^(e + K)]:
    [K] is large enough for every exponent that occurs. *)

Module F64Facts.
Import F64.
Local Open Scope Z_scope.

Ltac klia := unfold K in *; lia.

Lemma digits2_pos_bounds (m : positive) :
  2 ^ (Zpos (digits2_pos m) - 1) <= Zpos m < 2 ^ Zpos (digits2_pos m).
Proof.
  induction m as [p IH|p IH|]; cbn [digits2_pos].
  - rewrite Pos2Z.inj_succ.
    replace (Z.succ (Zpos (digits2_pos p)) - 1) with (Z.succ (Zpos (digits2_pos p) - 1)) by lia.
    rewrite !Z.pow_succ_r by lia. lia.
  - rewrite Pos2Z.inj_succ.
    replace (Z.succ (Zpos (digits2_pos p)) - 1) with (Z.succ (Zpos (digits2_pos p) - 1)) by lia.
    rewrite !Z.pow_succ_r by lia. lia.
  - cbn. lia.
Qed.

Lemma bounded_inv m e :
  bounded prec emax m e = true ->
  -1074 <= e <= 971 /\ Zpos m < 2 ^ 53 /\ (e = -1074 \/ 2 ^ 52 <= Zpos m).
Proof.
  unfold bounded, canonical_mantissa, fexp, SpecFloat.emin, prec, emax.
  intros H. apply andb_true_iff in H as [H1 H2].
  apply Z.eqb_eq in H1. apply Z.leb_le in H2.
  pose proof (digits2_pos_bounds m) as [Hlo Hhi].
  set (d := Zpos (digits2_pos m)) in *.
  clearbody d. assert (Hd : d <= 53) by (clear Hlo Hhi; lia).
  split; [lia|]. split.
  - eapply Z.lt_le_trans; [exact Hhi|]. apply Z.pow_le_mono_r; lia.
  - destruct (Z.eq_dec e (-1074)); [now left|right].
    assert (Hd53 : d = 53) by lia. rewrite Hd53 in Hlo. exact Hlo.
Qed.

Lemma scaled_pos m e : - K <= e -> 0 < m -> 0 < scaled m e.
Proof. intros. unfold scaled. apply Z.mul_pos_pos; [lia|]. apply Z.pow_pos_nonneg; klia. Qed.

Lemma scaled_shift m e d : 0 <= d -> 0 <= e + K -> scaled m (e + d) = m * 2 ^ d * 2 ^ (e + K).
Proof.
  intros. unfold scaled. replace (e + d + K) with (d + (e + K)) by lia.
  rewrite Z.pow_add_r by lia. ring.
Qed.

Lemma scaled_lt_exp m1 e1 m2 e2 :
  bounded prec emax m1 e1 = true -> bounded prec emax m2 e2 = true ->
  e1 < e2 -> scaled (Zpos m1) e1 < scaled (Zpos m2) e2.
Proof.
  intros H1 H2 He.
  apply bounded_inv in H1 as (He1 & Hm1 & _).
  apply bounded_inv in H2 as (He2 & _ & [->|Hm2]); [lia|].
  replace e2 with (e1 + (e2 - e1)) by lia.
  rewrite scaled_shift by (klia). unfold scaled.
  assert (Hp : 0 < 2 ^ (e1 + K)) by (apply Z.pow_pos_nonneg; klia).
  assert (Hq : 2 ^ 1 <= 2 ^ (e2 - e1)) by (apply Z.pow_le_mono_r; lia).
  apply Z.mul_lt_mono_pos_r; [exact Hp|].
  change (2 ^ 53) with (2 ^ 52 * 2 ^ 1) in Hm1. nia.
Qed.

Lemma scaled_cmp_same_exp m1 m2 e :
  - K <= e ->
  Pos.compare_cont Eq m1 m2 = (scaled (Zpos m1) e ?= scaled (Zpos m2) e).
Proof.
  intros He. unfold scaled.
  assert (Hp : 0 < 2 ^ (e + K)) by (apply Z.pow_pos_nonneg; klia).
  change (Pos.compare_cont Eq m1 m2) with (Zpos m1 ?= Zpos m2).
  destruct (Z.compare_spec (Zpos m1) (Zpos m2)) as [E|L|G]; symmetry.
  - rewrite E. apply Z.compare_refl.
  - apply Z.compare_lt_iff. nia.
  - apply Z.compare_gt_iff. nia.
Qed.

Lemma SFcompare_val x y vx vy :
  valid_binary x = true -> valid_binary y = true ->
  SFval x = Some vx -> SFval y = Some vy ->
  SFcompare x y = Some (vx ?= vy).
Proof.
  intros Hx Hy Vx Vy.
  assert (Hpos : forall m e, bounded prec emax m e = true -> 0 < scaled (Zpos m) e).
  { intros m e Hb. apply bounded_inv in Hb as (He & _). apply scaled_pos; klia. }
  destruct x as [sx|sx| |sx mx ex], y as [sy|sy| |sy my ey]; try discriminate;
    cbn in Vx, Vy; injection Vx as <-; injection Vy as <-; cbn [SFcompare].
  - reflexivity.
  - pose proof (Hpos my ey Hy). destruct sy; cbn [cond_Zopp]; f_equal; symmetry.
    + apply Z.compare_gt_iff. lia.
    + apply Z.compare_lt_iff. lia.
  - pose proof (Hpos mx ex Hx). destruct sx; cbn [cond_Zopp]; f_equal; symmetry.
    + apply Z.compare_lt_iff. lia.
    + apply Z.compare_gt_iff. lia.
  - cbn in Hx, Hy.
    pose proof (bounded_inv _ _ Hx) as (Hex & _). pose proof (bounded_inv _ _ Hy) as (Hey & _).
    pose proof (Hpos mx ex Hx).
    pose proof (Hpos my ey Hy).
    destruct sx, sy; cbn [cond_Zopp]; f_equal.
    + destruct (Z.compare_spec ex ey) as [->|Hlt|Hgt].
      * rewrite (scaled_cmp_same_exp mx my ey) by klia. rewrite Z.compare_opp.
        symmetry. apply Z.compare_antisym.
      * pose proof (scaled_lt_exp _ _ _ _ Hx Hy Hlt). symmetry. apply Z.compare_gt_iff. lia.
      * pose proof (scaled_lt_exp _ _ _ _ Hy Hx Hgt). symmetry. apply Z.compare_lt_iff. lia.
    + symmetry. apply Z.compare_lt_iff. lia.
    + symmetry. apply Z.compare_gt_iff. lia.
    + destruct (Z.compare_spec ex ey) as [->|Hlt|Hgt].
      * apply scaled_cmp_same_exp. klia.
      * pose proof (scaled_lt_exp _ _ _ _ Hx Hy Hlt). symmetry. apply Z.compare_lt_iff. lia.
      * pose proof (scaled_lt_exp _ _ _ _ Hy Hx Hgt). symmetry. apply Z.compare_gt_iff. lia.
Qed.

Lemma iter_pos_nat {A} (f : A -> A) p x : SpecFloat.iter_pos f p x = Nat.iter (Pos.to_nat p) f x.
Proof.
  revert x. induction p as [p IH|p IH|]; intros x; cbn [SpecFloat.iter_pos].
  - rewrite !IH, Pos2Nat.inj_xI. rewrite <- Nat.iter_add, Nat.iter_succ_r.
    f_equal. lia.
  - rewrite !IH, Pos2Nat.inj_xO. rewrite <- Nat.iter_add. f_equal. lia.
  - reflexivity.
Qed.

Lemma shr_1_spec m r s :
  0 <= m ->
  shr_1 {| shr_m := m; shr_r := r; shr_s := s |}
  = {| shr_m := m / 2; shr_r := Z.odd m; shr_s := r || s |}.
Proof.
  intros Hm. rewrite <- Z.div2_div.
  destruct m as [|[p|p|]|p]; try reflexivity. lia.
Qed.

Lemma iter_shr_1 k m :
  0 <= m ->
  let x := Nat.iter k shr_1 {| shr_m := m; shr_r := false; shr_s := false |} in
  shr_m x = m / 2 ^ Z.of_nat k
  /\ (m mod 2 ^ Z.of_nat k = 0 -> shr_r x = false /\ shr_s x = false).
Proof.
  intros Hm. induction k as [|k IH].
  - cbn. rewrite Z.div_1_r. auto.
  - cbv zeta in IH |- *. rewrite !Nat.iter_succ. destruct IH as [IHm IHe].
    destruct (Nat.iter k shr_1 _) as [mk rk sk]. cbn [shr_m shr_r shr_s] in *.
    assert (Hp : 0 < 2 ^ Z.of_nat k) by (apply Z.pow_pos_nonneg; lia).
    assert (Hmk : 0 <= mk) by (subst mk; apply Z.div_pos; lia).
    rewrite shr_1_spec by exact Hmk. cbn [shr_m shr_r shr_s].
    rewrite Nat2Z.inj_succ, Z.pow_succ_r by lia.
    split.
    + subst mk. rewrite Z.div_div by lia. f_equal. ring.
    + intros Hmod.
      apply Z.div_exact in Hmod; [|lia].
      set (q := m / (2 * 2 ^ Z.of_nat k)) in *.
      assert (Hmk2 : mk = 2 * q).
      { subst mk. rewrite Hmod. replace (2 * 2 ^ Z.of_nat k * q) with (2 * q * 2 ^ Z.of_nat k) by ring.
        apply Z.div_mul. lia. }
      assert (Hm0 : m mod 2 ^ Z.of_nat k = 0).
      { rewrite Hmod. replace (2 * 2 ^ Z.of_nat k * q) with (2 * q * 2 ^ Z.of_nat k) by ring.
        apply Z.mod_mul. lia. }
      destruct (IHe Hm0) as [-> ->]. split; [|reflexivity].
      rewrite Hmk2, Z.odd_mul. reflexivity.
Qed.

Lemma shr_spec m e n :
  0 <= m ->
  let r := shr {| shr_m := m; shr_r := false; shr_s := false |} e n in
  let m2 := round_nearest_even (shr_m (fst r)) (loc_of_shr_record (fst r)) in
  let n' := Z.max n 0 in
  snd r = e + n' /\ shr_m (fst r) = m / 2 ^ n'
  /\ m / 2 ^ n' <= m2 <= m / 2 ^ n' + 1
  /\ (m mod 2 ^ n' = 0 -> m2 = m / 2 ^ n').
Proof.
  intros Hm. destruct n as [|p|p]; cbn [shr Z.max fst snd].
  - cbn. rewrite Z.div_1_r, Z.add_0_r. repeat split; lia.
  - rewrite iter_pos_nat.
    pose proof (iter_shr_1 (Pos.to_nat p) m Hm) as [H1 H2].
    rewrite positive_nat_Z in H1, H2.
    replace (Z.pos p `max` 0) with (Z.pos p) by lia.
    destruct (Nat.iter _ shr_1 _) as [mk rk sk]. cbn [shr_m shr_r shr_s] in *.
    split; [reflexivity|]. split; [exact H1|]. rewrite <- H1. split.
    + destruct rk, sk; cbn; try destruct (Z.even mk); lia.
    + intros H0. destruct (H2 H0) as [-> ->]. reflexivity.
  - cbn. rewrite Z.div_1_r, Z.add_0_r. repeat split; lia.
Qed.

Lemma round_aux_upper s m e mB eB :
  - K <= e ->
  bounded prec emax mB eB = true ->
  scaled (Zpos m) e <= scaled (Zpos mB) eB ->
  scaled (Zpos mB) eB < 2 ^ (K + 900) ->
  exists w, SFval (binary_round_aux prec emax s (Zpos m) e loc_Exact) = Some (cond_Zopp s w)
            /\ 0 <= w <= scaled (Zpos mB) eB.
Proof.
  intros He HB Hle Hsmall.
  pose proof (bounded_inv _ _ HB) as (HeB & HmB & HnormB).
  assert (HvBpos : 0 < scaled (Zpos mB) eB) by (apply scaled_pos; klia).
  remember (scaled (Zpos mB) eB) as vB eqn:EvB.
  unfold binary_round_aux, shr_fexp. cbn [shr_record_of_loc Zdigits2].
  pose proof (digits2_pos_bounds m) as [Hdlo Hdhi].
  set (d := Zpos (digits2_pos m)) in *.
  set (n1 := fexp prec emax (d + e) - e).
  pose proof (shr_spec (Zpos m) e n1 ltac:(lia)) as H1. cbv zeta in H1.
  destruct (shr _ e n1) as [x1 e1]. cbn [fst snd] in H1.
  destruct H1 as (He1 & Hm1 & Hm2 & Hex).
  set (m2 := round_nearest_even (shr_m x1) (loc_of_shr_record x1)) in *.
  set (n1' := Z.max n1 0) in *.
  assert (Hp1 : 0 < 2 ^ n1') by (apply Z.pow_pos_nonneg; lia).
  assert (Hm1pos : 0 <= Zpos m / 2 ^ n1') by (apply Z.div_pos; lia).
  set (m1 := Zpos m / 2 ^ n1') in *.
  assert (HPe : 0 < 2 ^ (e + K)) by (apply Z.pow_pos_nonneg; klia).
  assert (Hsc : forall a, scaled a e1 = a * 2 ^ n1' * 2 ^ (e + K)).
  { intros a. rewrite He1. apply scaled_shift; klia. }
  (* the rounded mantissa stays below the bound *)
  assert (HA : scaled m2 e1 <= vB).
  { destruct (Z.eq_dec (Zpos m mod 2 ^ n1') 0) as [Hz|Hnz].
    - rewrite (Hex Hz). rewrite Hsc. unfold scaled in Hle.
      pose proof (Z.mul_div_le (Zpos m) (2 ^ n1') Hp1). fold m1 in H. nia.
    - assert (Hn1 : 0 < n1).
      { destruct (Z_lt_le_dec 0 n1); [assumption|].
        exfalso. apply Hnz. replace n1' with 0 by lia. apply Z.mod_1_r. }
      assert (Hlt : scaled m1 e1 < vB).
      { rewrite Hsc. unfold scaled in Hle.
        pose proof (Z.div_mod (Zpos m) (2 ^ n1') ltac:(lia)) as Hdm. fold m1 in Hdm.
        pose proof (Z.mod_pos_bound (Zpos m) (2 ^ n1') Hp1). nia. }
      assert (Hup : scaled (m1 + 1) e1 <= vB).
      { destruct (Z_le_gt_dec e1 eB) as [Hge|Hlt'].
        - assert (EvB' : vB = Zpos mB * 2 ^ (eB - e1) * 2 ^ (e1 + K)).
          { rewrite EvB. replace eB with (e1 + (eB - e1)) at 1 by lia.
            apply scaled_shift; klia. }
          unfold scaled in Hlt |- *. rewrite EvB' in Hlt |- *.
          assert (HPe1 : 0 < 2 ^ (e1 + K)) by (apply Z.pow_pos_nonneg; klia).
          assert (m1 < Zpos mB * 2 ^ (eB - e1)) by nia. nia.
        - exfalso.
          assert (He1' : e1 = d + e - 53).
          { unfold n1', n1, fexp, SpecFloat.emin, prec, emax in *. lia. }
          assert (Hn1' : n1' = d - 53).
          { unfold n1', n1, fexp, SpecFloat.emin, prec, emax in *. lia. }
          assert (Hm1lo : 2 ^ 52 <= m1).
          { unfold m1. rewrite Hn1'. apply Z.div_le_lower_bound; [rewrite <- Hn1'; exact Hp1|].
            rewrite <- Z.pow_add_r by lia. replace (d - 53 + 52) with (d - 1) by lia. exact Hdlo. }
          assert (HPe1 : 0 < 2 ^ (e1 + K)) by (apply Z.pow_pos_nonneg; klia).
          assert (Hpw : 2 ^ (e1 + K) = 2 ^ (e1 - eB) * 2 ^ (eB + K)).
          { rewrite <- Z.pow_add_r by klia. f_equal. lia. }
          assert (Hq : 2 ^ 1 <= 2 ^ (e1 - eB)) by (apply Z.pow_le_mono_r; lia).
          assert (HPeB : 0 < 2 ^ (eB + K)) by (apply Z.pow_pos_nonneg; klia).
          unfold scaled in Hlt. rewrite Hpw in Hlt. rewrite EvB in Hlt. unfold scaled in Hlt.
          change (2 ^ 53) with (2 ^ 52 * 2 ^ 1) in HmB. nia. }
      eapply Z.le_trans; [|exact Hup].
      rewrite !Hsc. nia. }
  (* second normalisation only shifts right *)
  assert (Hm2pos : 0 <= m2) by lia.
  set (n2 := fexp prec emax (Zdigits2 m2 + e1) - e1).
  pose proof (shr_spec m2 e1 n2 Hm2pos) as H2. cbv zeta in H2.
  destruct (shr _ e1 n2) as [x2 e2]. cbn [fst snd] in H2.
  destruct H2 as (He2 & Hm3 & _ & _).
  set (n2' := Z.max n2 0) in *.
  assert (Hp2 : 0 < 2 ^ n2') by (apply Z.pow_pos_nonneg; lia).
  assert (He1K : 0 <= e1 + K) by klia.
  assert (HB2 : scaled (shr_m x2) e2 <= scaled m2 e1).
  { rewrite Hm3, He2. rewrite scaled_shift by lia. unfold scaled.
    assert (HPe1 : 0 < 2 ^ (e1 + K)) by (apply Z.pow_pos_nonneg; lia).
    pose proof (Z.mul_div_le m2 (2 ^ n2') Hp2). nia. }
  assert (Hm3pos : 0 <= shr_m x2) by (rewrite Hm3; apply Z.div_pos; lia).
  destruct (shr_m x2) as [|m3|m3] eqn:E3.
  - exists 0. split; [destruct s; reflexivity|].
    lia.
  - assert (He2le : e2 <= emax - prec).
    { assert (2 ^ (e2 + K) < 2 ^ (K + 900)).
      { eapply Z.le_lt_trans; [|exact Hsmall]. eapply Z.le_trans; [|exact HA].
        eapply Z.le_trans; [|exact HB2]. unfold scaled.
        assert (0 < 2 ^ (e2 + K)) by (apply Z.pow_pos_nonneg; lia). nia. }
      apply Z.pow_lt_mono_r_iff in H; unfold emax, prec; klia. }
    apply Z.leb_le in He2le. rewrite He2le.
    exists (scaled (Zpos m3) e2). split; [reflexivity|].
    split; [|lia]. pose proof (scaled_pos (Zpos m3) e2 ltac:(klia) eq_refl). lia.
  - lia.
Qed.

Lemma shl_align_scaled mx ex ex' :
  - K <= ex -> - K <= ex' ->
  scaled (Zpos (fst (shl_align mx ex ex'))) (snd (shl_align mx ex ex')) = scaled (Zpos mx) ex
  /\ snd (shl_align mx ex ex') = Z.min ex ex'.
Proof.
  intros H1 H2. unfold shl_align.
  destruct (ex' - ex) as [|d|d] eqn:E; cbn [fst snd]; try (split; [reflexivity|lia]).
  split; [|lia].
  change (Pos.iter xO mx d) with (shift_pos d mx).
  rewrite shift_pos_correct, Z.pow_pos_fold.
  replace ex with (ex' + Zpos d) by lia.
  rewrite scaled_shift by lia. unfold scaled. ring.
Qed.

Lemma binary_round_upper s m e mB eB :
  - K <= e ->
  bounded prec emax mB eB = true ->
  scaled (Zpos m) e <= scaled (Zpos mB) eB ->
  scaled (Zpos mB) eB < 2 ^ (K + 900) ->
  exists w, SFval (binary_round prec emax s m e) = Some (cond_Zopp s w)
            /\ 0 <= w <= scaled (Zpos mB) eB.
Proof.
  intros He HB Hle Hsmall. unfold binary_round.
  set (e' := fexp prec emax (Zpos (digits2_pos m) + e)).
  assert (He' : - K <= e') by (unfold e', fexp, SpecFloat.emin, prec, emax; klia).
  destruct (shl_align_scaled m e e' He He') as [Hv Hs].
  destruct (shl_align m e e') as [mz ez]. cbn [fst snd] in Hv, Hs.
  apply round_aux_upper; try assumption; [lia|]. rewrite Hv. exact Hle.
Qed.

Lemma binary_normalize_bound M e mB eB :
  - K <= e ->
  bounded prec emax mB eB = true ->
  Z.abs (scaled M e) <= scaled (Zpos mB) eB ->
  scaled (Zpos mB) eB < 2 ^ (K + 900) ->
  exists w, SFval (binary_normalize prec emax M e false) = Some w
            /\ Z.abs w <= scaled (Zpos mB) eB.
Proof.
  intros He HB Hle Hsmall.
  assert (HP : 0 < 2 ^ (e + K)) by (apply Z.pow_pos_nonneg; klia).
  destruct M as [|m|m]; cbn [binary_normalize].
  - exists 0. split; [reflexivity|]. cbn. pose proof (scaled_pos (Zpos mB) eB).
    apply bounded_inv in HB. klia.
  - destruct (binary_round_upper false m e mB eB He HB) as (w & Hw & Hr); try assumption.
    + unfold scaled in *. lia.
    + exists w. cbn [cond_Zopp] in Hw. split; [exact Hw|lia].
  - destruct (binary_round_upper true m e mB eB He HB) as (w & Hw & Hr); try assumption.
    + unfold scaled in *. lia.
    + exists (- w). cbn [cond_Zopp] in Hw. split; [exact Hw|lia].
Qed.

Lemma SFval_valid_exp s m e : valid_binary (S754_finite s m e) = true -> - K <= e /\ -1074 <= e.
Proof. cbn. intros H. apply bounded_inv in H. klia. Qed.

Lemma SFadd_bound x y vx vy mB eB :
  valid_binary x = true -> valid_binary y = true ->
  SFval x = Some vx -> SFval y = Some vy ->
  bounded prec emax mB eB = true ->
  Z.abs (vx + vy) <= scaled (Zpos mB) eB ->
  scaled (Zpos mB) eB < 2 ^ (K + 900) ->
  exists w, SFval (SF64add x y) = Some w /\ Z.abs w <= scaled (Zpos mB) eB.
Proof.
  intros Hx Hy Vx Vy HB Hle Hsmall.
  assert (HvB : 0 < scaled (Zpos mB) eB).
  { apply scaled_pos; [|reflexivity]. apply bounded_inv in HB. klia. }
  destruct x as [sx|sx| |sx mx ex], y as [sy|sy| |sy my ey]; try discriminate;
    cbn in Vx, Vy; injection Vx as <-; injection Vy as <-.
  - exists 0. split; [destruct sx, sy; reflexivity|]. change (Z.abs 0) with 0. lia.
  - eexists. split; [reflexivity|]. rewrite Z.add_0_l in Hle. exact Hle.
  - eexists. split; [reflexivity|]. rewrite Z.add_0_r in Hle. exact Hle.
  - apply SFval_valid_exp in Hx as [Hx _], Hy as [Hy _].
    unfold SF64add, SFadd.
    destruct (shl_align_scaled mx ex (Z.min ex ey) Hx ltac:(lia)) as [Ex Ex'].
    destruct (shl_align_scaled my ey (Z.min ex ey) Hy ltac:(lia)) as [Ey Ey'].
    replace (Z.min ex (Z.min ex ey)) with (Z.min ex ey) in Ex' by lia.
    replace (Z.min ey (Z.min ex ey)) with (Z.min ex ey) in Ey' by lia.
    rewrite Ex' in Ex. rewrite Ey' in Ey.
    apply binary_normalize_bound; try assumption; [lia|].
    replace (scaled _ _) with (cond_Zopp sx (scaled (Zpos mx) ex) + cond_Zopp sy (scaled (Zpos my) ey)); [exact Hle|].
    rewrite <- Ex, <- Ey. unfold scaled. destruct sx, sy; cbn [cond_Zopp]; ring.
Qed.

Lemma SFsub_bound x y vx vy mB eB :
  valid_binary x = true -> valid_binary y = true ->
  SFval x = Some vx -> SFval y = Some vy ->
  bounded prec emax mB eB = true ->
  Z.abs (vx - vy) <= scaled (Zpos mB) eB ->
  scaled (Zpos mB) eB < 2 ^ (K + 900) ->
  exists w, SFval (SF64sub x y) = Some w /\ Z.abs w <= scaled (Zpos mB) eB.
Proof.
  intros Hx Hy Vx Vy HB Hle Hsmall.
  assert (HvB : 0 < scaled (Zpos mB) eB).
  { apply scaled_pos; [|reflexivity]. apply bounded_inv in HB. klia. }
  destruct x as [sx|sx| |sx mx ex], y as [sy|sy| |sy my ey]; try discriminate;
    cbn in Vx, Vy; injection Vx as <-; injection Vy as <-.
  - exists 0. split; [destruct sx, sy; reflexivity|]. change (Z.abs 0) with 0. lia.
  - eexists. split; [reflexivity|]. rewrite Z.sub_0_l in Hle.
    destruct sy; cbn [negb cond_Zopp] in *; lia.
  - eexists. split; [reflexivity|]. rewrite Z.sub_0_r in Hle. exact Hle.
  - apply SFval_valid_exp in Hx as [Hx _], Hy as [Hy _].
    unfold SF64sub, SFsub.
    destruct (shl_align_scaled mx ex (Z.min ex ey) Hx ltac:(lia)) as [Ex Ex'].
    destruct (shl_align_scaled my ey (Z.min ex ey) Hy ltac:(lia)) as [Ey Ey'].
    replace (Z.min ex (Z.min ex ey)) with (Z.min ex ey) in Ex' by lia.
    replace (Z.min ey (Z.min ex ey)) with (Z.min ex ey) in Ey' by lia.
    rewrite Ex' in Ex. rewrite Ey' in Ey.
    apply binary_normalize_bound; try assumption; [lia|].
    replace (scaled _ _) with (cond_Zopp sx (scaled (Zpos mx) ex) - cond_Zopp sy (scaled (Zpos my) ey)); [exact Hle|].
    rewrite <- Ex, <- Ey. unfold scaled. destruct sx, sy; cbn [cond_Zopp]; ring.
Qed.

Lemma SFmul_bound x y vx vy mB eB :
  valid_binary x = true -> valid_binary y = true ->
  SFval x = Some vx -> SFval y = Some vy ->
  bounded prec emax mB eB = true ->
  0 <= vx -> 0 <= vy ->
  vx * vy <= scaled (Zpos mB) eB * 2 ^ K ->
  scaled (Zpos mB) eB < 2 ^ (K + 900) ->
  exists w, SFval (SF64mul x y) = Some w /\ 0 <= w <= scaled (Zpos mB) eB.
Proof.
  intros Hx Hy Vx Vy HB Hx0 Hy0 Hle Hsmall.
  assert (HvB : 0 < scaled (Zpos mB) eB).
  { apply scaled_pos; [|reflexivity]. apply bounded_inv in HB. klia. }
  destruct x as [sx|sx| |sx mx ex], y as [sy|sy| |sy my ey]; try discriminate;
    cbn in Vx, Vy; injection Vx as <-; injection Vy as <-;
    try (exists 0; split; [reflexivity|lia]).
  pose proof (SFval_valid_exp _ _ _ Hx) as [Hex Hex'].
  pose proof (SFval_valid_exp _ _ _ Hy) as [Hey Hey'].
  pose proof (scaled_pos (Zpos mx) ex Hex eq_refl).
  pose proof (scaled_pos (Zpos my) ey Hey eq_refl).
  destruct sx; cbn [cond_Zopp] in *; [lia|].
  destruct sy; cbn [cond_Zopp] in *; [lia|].
  unfold SF64mul, SFmul. cbn [xorb].
  destruct (round_aux_upper false (mx * my) (ex + ey) mB eB) as (w & Hw & Hr); try assumption.
  - klia.
  - assert (HK : 0 < 2 ^ K) by (apply Z.pow_pos_nonneg; klia).
    assert (E : scaled (Zpos mx) ex * scaled (Zpos my) ey = scaled (Zpos (mx * my)) (ex + ey) * 2 ^ K).
    { unfold scaled. rewrite Pos2Z.inj_mul.
      transitivity (Zpos mx * Zpos my * (2 ^ (ex + K) * 2 ^ (ey + K))); [ring|].
      rewrite <- Z.pow_add_r by lia.
      transitivity (Zpos mx * Zpos my * (2 ^ (ex + ey + K) * 2 ^ K)); [|ring].
      rewrite <- Z.pow_add_r by klia. do 2 f_equal. lia. }
    nia.
  - exists w. cbn [cond_Zopp] in Hw. split; assumption.
Qed.

Lemma leb_val x y vx vy :
  fval x = Some vx -> fval y = Some vy -> PrimFloat.leb x y = (vx <=? vy).
Proof.
  unfold fval. intros Hx Hy. rewrite FloatAxioms.leb_spec. unfold SFleb.
  rewrite (SFcompare_val _ _ vx vy (Prim2SF_valid x) (Prim2SF_valid y) Hx Hy).
  unfold Z.leb. destruct (vx ?= vy); reflexivity.
Qed.

Lemma ltb_val x y vx vy :
  fval x = Some vx -> fval y = Some vy -> PrimFloat.ltb x y = (vx <? vy).
Proof.
  unfold fval. intros Hx Hy. rewrite FloatAxioms.ltb_spec. unfold SFltb.
  rewrite (SFcompare_val _ _ vx vy (Prim2SF_valid x) (Prim2SF_valid y) Hx Hy).
  unfold Z.ltb. destruct (vx ?= vy); reflexivity.
Qed.

Lemma fval_between lo hi x vlo vhi :
  fval lo = Some vlo -> fval hi = Some vhi ->
  PrimFloat.leb lo x = true -> (PrimFloat.leb x hi = true \/ PrimFloat.ltb x hi = true) ->
  exists v, fval x = Some v.
Proof.
  unfold fval. rewrite !FloatAxioms.leb_spec, FloatAxioms.ltb_spec. unfold SFleb, SFltb.
  intros Hlo Hhi H1 H2.
  destruct (Prim2SF x) as [s|s| |s m e]; cbn [SFval]; eauto.
  - destruct s.
    + destruct (Prim2SF lo) as [?|?| |? ? ?]; try discriminate; cbn in H1; discriminate.
    + destruct (Prim2SF hi) as [?|?| |? ? ?]; try discriminate; cbn in H2; destruct H2; discriminate.
  - destruct (Prim2SF lo) as [?|?| |? ? ?]; cbn in H1; discriminate.
Qed.

Lemma fval_bounded B vB :
  fval B = Some vB -> 0 < vB ->
  exists mB eB, bounded prec emax mB eB = true /\ vB = scaled (Zpos mB) eB.
Proof.
  unfold fval. intros HB Hpos. pose proof (Prim2SF_valid B) as Hv.
  destruct (Prim2SF B) as [s|s| |s m e]; try discriminate; cbn in HB; injection HB as <-; [lia|].
  pose proof (SFval_valid_exp _ _ _ Hv) as [He _].
  pose proof (scaled_pos (Zpos m) e He eq_refl).
  destruct s; cbn [cond_Zopp] in *; [lia|]. exists m, e. split; [exact Hv|reflexivity].
Qed.

Lemma add_val x y vx vy B vB :
  fval x = Some vx -> fval y = Some vy -> fval B = Some vB ->
  0 < vB < 2 ^ (K + 900) -> Z.abs (vx + vy) <= vB ->
  exists w, fval (x + y)%float = Some w /\ Z.abs w <= vB.
Proof.
  intros Hx Hy HB [Hpos Hsm] Hle.
  destruct (fval_bounded B vB HB Hpos) as (mB & eB & Hb & ->).
  unfold fval. rewrite FloatAxioms.add_spec.
  apply (SFadd_bound _ _ vx vy mB eB); auto using Prim2SF_valid.
Qed.

Lemma sub_val x y vx vy B vB :
  fval x = Some vx -> fval y = Some vy -> fval B = Some vB ->
  0 < vB < 2 ^ (K + 900) -> Z.abs (vx - vy) <= vB ->
  exists w, fval (x - y)%float = Some w /\ Z.abs w <= vB.
Proof.
  intros Hx Hy HB [Hpos Hsm] Hle.
  destruct (fval_bounded B vB HB Hpos) as (mB & eB & Hb & ->).
  unfold fval. rewrite FloatAxioms.sub_spec.
  apply (SFsub_bound _ _ vx vy mB eB); auto using Prim2SF_valid.
Qed.

Lemma mul_val x y vx vy B vB :
  fval x = Some vx -> fval y = Some vy -> fval B = Some vB ->
  0 < vB < 2 ^ (K + 900) -> 0 <= vx -> 0 <= vy -> vx * vy <= vB * 2 ^ K ->
  exists w, fval (x * y)%float = Some w /\ 0 <= w <= vB.
Proof.
  intros Hx Hy HB [Hpos Hsm] Hx0 Hy0 Hle.
  destruct (fval_bounded B vB HB Hpos) as (mB & eB & Hb & ->).
  unfold fval. rewrite FloatAxioms.mul_spec.
  apply (SFmul_bound _ _ vx vy mB eB); auto using Prim2SF_valid.
Qed.

Lemma U4_pos : 0 < U4.
Proof. reflexivity. Qed.
Lemma pow_K : 2 ^ K = 4 * U4.
Proof. vm_compute. reflexivity. Qed.
Lemma U4_small : 16 * U4 < 2 ^ (K + 900).
Proof. vm_compute. reflexivity. Qed.

Lemma fval_0 : fval 0 = Some 0. Proof. vm_compute. reflexivity. Qed.
Lemma fval_quarter : fval 0.25 = Some U4. Proof. vm_compute. reflexivity. Qed.
Lemma fval_half : fval 0.5 = Some (2 * U4). Proof. vm_compute. reflexivity. Qed.
Lemma fval_1 : fval 1 = Some (4 * U4). Proof. vm_compute. reflexivity. Qed.
Lemma fval_5q : fval 1.25 = Some (5 * U4). Proof. vm_compute. reflexivity. Qed.
Lemma fval_2 : fval 2 = Some (8 * U4). Proof. vm_compute. reflexivity. Qed.
Lemma fval_m1 : fval (-1) = Some (- (4 * U4)). Proof. vm_compute. reflexivity. Qed.
Lemma fval_mquarter : fval (-0.25) = Some (- U4). Proof. vm_compute. reflexivity. Qed.
Lemma fval_m5q : fval (-1.25) = Some (- (5 * U4)). Proof. vm_compute. reflexivity. Qed.

Lemma unit_interval_val u :
  unit_interval u -> exists v, fval u = Some v /\ 0 <= v < 4 * U4.
Proof.
  intros [H0 H1].
  destruct (fval_between 0 1 u _ _ fval_0 fval_1 H0 (or_intror H1)) as [v Hv].
  exists v. split; [exact Hv|].
  rewrite (leb_val _ _ _ _ fval_0 Hv) in H0. rewrite (ltb_val _ _ _ _ Hv fval_1) in H1.
  lia.
Qed.

Lemma range_of_abs x B v vB :
  fval x = Some v -> fval B = Some vB -> fval (- B)%float = Some (- vB) -> Z.abs v <= vB ->
  PrimFloat.leb (- B) x = true /\ PrimFloat.leb x B = true.
Proof.
  intros Hx HB HmB Hle.
  rewrite (leb_val _ _ _ _ HmB Hx), (leb_val _ _ _ _ Hx HB). lia.
Qed.

Lemma center_range u :
  unit_interval u ->
  PrimFloat.leb (-1) (u * 2 - 1) = true /\ PrimFloat.leb (u * 2 - 1) 1 = true.
Proof.
  intros Hu. destruct (unit_interval_val u Hu) as (v & Hv & Hr).
  pose proof U4_pos. pose proof pow_K. pose proof U4_small.
  destruct (mul_val u 2 v (8 * U4) 2 (8 * U4) Hv fval_2 fval_2) as (t & Ht & Htr); try nia.
  destruct (sub_val (u * 2) 1 t (4 * U4) 1 (4 * U4) Ht fval_1 fval_1) as (c & Hc & Hcr); try lia.
  apply (range_of_abs _ 1%float c (4 * U4) Hc fval_1 fval_m1 Hcr).
Qed.

Lemma noise_range u :
  unit_interval u ->
  PrimFloat.leb (-0.25) (u * 0.5 - 0.25) = true /\ PrimFloat.leb (u * 0.5 - 0.25) 0.25 = true.
Proof.
  intros Hu. destruct (unit_interval_val u Hu) as (v & Hv & Hr).
  pose proof U4_pos. pose proof pow_K. pose proof U4_small.
  destruct (mul_val u 0.5 v (2 * U4) 0.5 (2 * U4) Hv fval_half fval_half) as (t & Ht & Htr); try nia.
  destruct (sub_val (u * 0.5) 0.25 t U4 0.25 U4 Ht fval_quarter fval_quarter) as (c & Hc & Hcr); try lia.
  apply (range_of_abs _ 0.25%float c U4 Hc fval_quarter fval_mquarter Hcr).
Qed.

Lemma abs_of_range x B vB :
  fval B = Some vB -> fval (- B)%float = Some (- vB) ->
  PrimFloat.leb (- B) x = true -> PrimFloat.leb x B = true ->
  exists v, fval x = Some v /\ Z.abs v <= vB.
Proof.
  intros HB HmB H1 H2.
  destruct (fval_between _ _ x _ _ HmB HB H1 (or_introl H2)) as [v Hv].
  exists v. split; [exact Hv|].
  rewrite (leb_val _ _ _ _ HmB Hv) in H1. rewrite (leb_val _ _ _ _ Hv HB) in H2. lia.
Qed.

Lemma sum_range c e :
  PrimFloat.leb (-1) c = true -> PrimFloat.leb c 1 = true ->
  PrimFloat.leb (-0.25) e = true -> PrimFloat.leb e 0.25 = true ->
  PrimFloat.leb (-1.25) (c + e) = true /\ PrimFloat.leb (c + e) 1.25 = true.
Proof.
  intros Hc1 Hc2 He1 He2.
  destruct (abs_of_range c 1 _ fval_1 fval_m1 Hc1 Hc2) as (vc & Hvc & Hcr).
  destruct (abs_of_range e 0.25 _ fval_quarter fval_mquarter He1 He2) as (ve & Hve & Her).
  pose proof U4_pos. pose proof U4_small.
  destruct (add_val c e vc ve 1.25 (5 * U4) Hvc Hve fval_5q) as (w & Hw & Hwr); try lia.
  apply (range_of_abs _ 1.25%float w (5 * U4) Hw fval_5q fval_m5q Hwr).
Qed.

Lemma floor_val x v : fval x = Some v -> floor x = v / 2 ^ K.
Proof.
  unfold fval, floor. intros Hv. pose proof (Prim2SF_valid x) as Hx.
  destruct (Prim2SF x) as [s|s| |s m e]; try discriminate; cbn in Hv; injection Hv as <-.
  - reflexivity.
  - apply SFval_valid_exp in Hx as [He _].
    assert (E : cond_Zopp s (scaled (Zpos m) e) = cond_Zopp s (Zpos m) * 2 ^ (e + K)).
    { unfold scaled. destruct s; cbn [cond_Zopp]; ring. }
    rewrite E. set (a := cond_Zopp s (Zpos m)).
    destruct (Z_le_gt_dec 0 e) as [Hp|Hn].
    + rewrite Z.shiftl_mul_pow2 by lia. rewrite Z.pow_add_r by klia.
      rewrite Z.mul_assoc. symmetry. apply Z.div_mul. apply Z.pow_nonzero; klia.
    + replace e with (- (- e)) at 1 by lia. rewrite Z.shiftl_opp_r.
      rewrite Z.shiftr_div_pow2 by lia.
      replace (2 ^ K) with (2 ^ (- e) * 2 ^ (e + K)).
      2:{ rewrite <- Z.pow_add_r by klia. f_equal. lia. }
      symmetry. apply Z.div_mul_cancel_r; apply Z.pow_nonzero; klia.
Qed.

Lemma below_one u v :
  fval u = Some v -> 0 <= v < 4 * U4 ->
  u = pred_one \/ v <= 4 * U4 - 2 ^ (K - 52).
Proof.
  unfold fval. intros Hv Hr. pose proof (Prim2SF_valid u) as Hx.
  destruct (Z_le_gt_dec v (4 * U4 - 2 ^ (K - 52))) as [Hle|Hgt]; [now right|left].
  apply Prim2SF_inj.
  destruct (Prim2SF u) as [s|s| |s m e]; try discriminate; cbn in Hv; injection Hv as <-.
  - exfalso. revert Hgt. vm_compute. discriminate.
  - pose proof (SFval_valid_exp _ _ _ Hx) as [He _].
    pose proof (scaled_pos (Zpos m) e He eq_refl).
    destruct s; cbn [cond_Zopp] in *; [lia|].
    change (Prim2SF pred_one) with (S754_finite false 9007199254740991 (-53)).
    cbn in Hx.
    assert (Hpp : bounded prec emax 9007199254740990 (-53) = true) by reflexivity.
    assert (H1 : bounded prec emax 4503599627370496 (-52) = true) by reflexivity.
    assert (Epp : scaled 9007199254740990 (-53) = 4 * U4 - 2 ^ (K - 52)) by (vm_compute; reflexivity).
    assert (E1 : scaled 4503599627370496 (-52) = 4 * U4) by (vm_compute; reflexivity).
    destruct (Z.lt_trichotomy e (-53)) as [Hlt|[->|Hgt']].
    + pose proof (scaled_lt_exp _ _ _ _ Hx Hpp Hlt). lia.
    + f_equal.
      assert (E53 : forall a, scaled a (-53) = a * 2 ^ (K - 53)) by reflexivity.
      rewrite E53 in *.
      assert (0 < 2 ^ (K - 53)) by reflexivity.
      assert (2 * 2 ^ (K - 53) = 2 ^ (K - 52)) by reflexivity.
      assert (4 * U4 = 9007199254740992 * 2 ^ (K - 53)) by (vm_compute; reflexivity).
      assert (9007199254740990 < Zpos m < 9007199254740992) by nia. lia.
    + destruct (Z.eq_dec e (-52)) as [->|Hne].
      * apply bounded_inv in Hx as (_ & _ & [Hx|Hx]); [lia|].
        assert (E52 : forall a, scaled a (-52) = a * 2 ^ (K - 52)) by reflexivity.
        rewrite E52 in *. assert (0 < 2 ^ (K - 52)) by reflexivity.
        assert (4 * U4 = 2 ^ 52 * 2 ^ (K - 52)) by (vm_compute; reflexivity). nia.
      * pose proof (scaled_lt_exp _ _ _ _ H1 Hx ltac:(lia)). lia.
Qed.

Lemma floor_scale3 u :
  unit_interval u -> 0 <= floor (u * 3) < 3.
Proof.
  intros Hu. destruct (unit_interval_val u Hu) as (v & Hv & Hr).
  pose proof U4_pos. pose proof pow_K. pose proof U4_small.
  destruct (below_one u v Hv Hr) as [->|Hle].
  - vm_compute. split; [discriminate|reflexivity].
  - assert (H3 : fval 3 = Some (12 * U4)) by (vm_compute; reflexivity).
    assert (Hp3 : fval (PrimFloat.next_down 3) = Some (12 * U4 - 2 ^ (K - 51))) by (vm_compute; reflexivity).
    assert (Hq : 2 * 2 ^ (K - 52) = 2 ^ (K - 51)) by reflexivity.
    assert (Hq' : 0 < 2 ^ (K - 52) < U4) by (split; reflexivity).
    destruct (mul_val u 3 v (12 * U4) _ _ Hv H3 Hp3) as (w & Hw & Hwr); try nia.
    rewrite (floor_val _ _ Hw). rewrite H0.
    split; [apply Z.div_pos; lia|apply Z.div_lt_upper_bound; lia].
Qed.

(** *** Rounding to nearest, division, and exact integers *)

Lemma digits2_pos_unique (m : positive) (d : Z) :
  2 ^ (d - 1) <= Zpos m < 2 ^ d -> 1 <= d -> Zpos (digits2_pos m) = d.
Proof.
  intros [Hlo Hhi] Hd. pose proof (digits2_pos_bounds m) as [Hlo' Hhi'].
  set (d' := Zpos (digits2_pos m)) in *.
  assert (H1 : d - 1 < d').
  { apply (Z.pow_lt_mono_r_iff 2); lia. }
  assert (H2 : d' - 1 < d).
  { apply (Z.pow_lt_mono_r_iff 2); lia. }
  lia.
Qed.

Lemma iter_shr_1_gen k m r0 s0 :
  0 <= m ->
  let x := Nat.iter k shr_1 {| shr_m := m; shr_r := r0; shr_s := s0 |} in
  shr_m x = m / 2 ^ Z.of_nat k
  /\ (m mod 2 ^ Z.of_nat k = 0 -> r0 = false -> s0 = false ->
      shr_r x = false /\ shr_s x = false)
  /\ (forall k', k = S k' -> shr_r x = Z.odd (m / 2 ^ Z.of_nat k')).
Proof.
  intros Hm. induction k as [|k IH].
  - cbn. rewrite Z.div_1_r. repeat split; auto. intros k' E. discriminate.
  - cbv zeta in IH |- *. rewrite !Nat.iter_succ. destruct IH as (IHm & IHe & _).
    destruct (Nat.iter k shr_1 _) as [mk rk sk]. cbn [shr_m shr_r shr_s] in *.
    assert (Hp : 0 < 2 ^ Z.of_nat k) by (apply Z.pow_pos_nonneg; lia).
    assert (Hmk : 0 <= mk) by (subst mk; apply Z.div_pos; lia).
    rewrite shr_1_spec by exact Hmk. cbn [shr_m shr_r shr_s].
    rewrite Nat2Z.inj_succ, Z.pow_succ_r by lia.
    split; [|split].
    + subst mk. rewrite Z.div_div by lia. f_equal. ring.
    + intros Hmod Hr0 Hs0.
      apply Z.div_exact in Hmod; [|lia].
      set (q := m / (2 * 2 ^ Z.of_nat k)) in *.
      assert (Hmk2 : mk = 2 * q).
      { subst mk. rewrite Hmod. replace (2 * 2 ^ Z.of_nat k * q) with (2 * q * 2 ^ Z.of_nat k) by ring.
        apply Z.div_mul. lia. }
      assert (Hm0 : m mod 2 ^ Z.of_nat k = 0).
      { rewrite Hmod. replace (2 * 2 ^ Z.of_nat k * q) with (2 * q * 2 ^ Z.of_nat k) by ring.
        apply Z.mod_mul. lia. }
      destruct (IHe Hm0 Hr0 Hs0) as [-> ->]. split; [|reflexivity].
      rewrite Hmk2, Z.odd_mul. reflexivity.
    + intros k' E. injection E as <-. rewrite IHm. reflexivity.
Qed.

Lemma shr_gen_spec m r0 s0 e n :
  0 <= m ->
  let r := shr {| shr_m := m; shr_r := r0; shr_s := s0 |} e n in
  let m2 := round_nearest_even (shr_m (fst r)) (loc_of_shr_record (fst r)) in
  let n' := Z.max n 0 in
  snd r = e + n' /\ shr_m (fst r) = m / 2 ^ n'
  /\ m / 2 ^ n' <= m2 <= m / 2 ^ n' + 1
  /\ (m mod 2 ^ n' = 0 -> r0 = false -> s0 = false -> m2 = m / 2 ^ n')
  /\ (0 < n -> m mod 2 ^ n < 2 ^ (n - 1) -> m2 = m / 2 ^ n).
Proof.
  intros Hm. destruct n as [|p|p]; cbn [shr Z.max fst snd].
  - cbn [shr_m]. rewrite Z.div_1_r, Z.add_0_r.
    repeat split; try lia.
    + destruct r0, s0; cbn; try destruct (Z.even m); lia.
    + destruct r0, s0; cbn; try destruct (Z.even m); lia.
    + intros _ -> ->. reflexivity.
  - rewrite iter_pos_nat.
    pose proof (iter_shr_1_gen (Pos.to_nat p) m r0 s0 Hm) as (H1 & H2 & H3).
    rewrite positive_nat_Z in H1, H2.
    replace (Z.pos p `max` 0) with (Z.pos p) by lia.
    destruct (Nat.iter _ shr_1 _) as [mk rk sk]. cbn [shr_m shr_r shr_s] in *.
    split; [reflexivity|]. split; [exact H1|]. rewrite <- H1. split; [|split].
    + destruct rk, sk; cbn; try destruct (Z.even mk); lia.
    + intros H0 Hr0 Hs0. destruct (H2 H0 Hr0 Hs0) as [-> ->]. reflexivity.
    + intros _ Hhalf.
      destruct (Pos2Nat.is_succ p) as [k' Ek].
      rewrite (H3 k' Ek).
      assert (Ek' : Z.of_nat k' = Zpos p - 1) by lia.
      rewrite Ek'.
      assert (Hp : 0 < 2 ^ (Zpos p - 1)) by (apply Z.pow_pos_nonneg; lia).
      assert (E2 : 2 ^ Zpos p = 2 * 2 ^ (Zpos p - 1)).
      { rewrite <- Z.pow_succ_r by lia. f_equal. lia. }
      pose proof (Z.div_mod m (2 ^ Zpos p) ltac:(lia)) as Hdm.
      pose proof (Z.mod_pos_bound m (2 ^ Zpos p) ltac:(lia)) as Hmb.
      set (q := m / 2 ^ Zpos p) in *. set (t := m mod 2 ^ Zpos p) in *.
      assert (Eq : m / 2 ^ (Zpos p - 1) = 2 * q).
      { symmetry. apply (Z.div_unique _ _ _ t); [lia|]. rewrite Hdm, E2. ring. }
      rewrite Eq, Z.odd_mul. cbn. destruct sk; reflexivity.
  - cbn [shr_m]. rewrite Z.div_1_r, Z.add_0_r.
    repeat split; try lia.
    + destruct r0, s0; cbn; try destruct (Z.even m); lia.
    + destruct r0, s0; cbn; try destruct (Z.even m); lia.
    + intros _ -> ->. reflexivity.
Qed.


Lemma exact_or_inexact m n (l : location) :
  (m mod 2 ^ n = 0 /\ l = loc_Exact) \/ (m mod 2 ^ n <> 0 \/ l <> loc_Exact).
Proof.
  destruct (Z.eq_dec (m mod 2 ^ n) 0); [|auto].
  destruct l; [left; auto|right; right; discriminate].
Qed.

Lemma shr_record_of_loc_eq m l :
  exists r0 s0, shr_record_of_loc m l = {| shr_m := m; shr_r := r0; shr_s := s0 |}
                /\ (l = loc_Exact -> r0 = false /\ s0 = false).
Proof.
  destruct l as [|[| |]]; cbn; do 2 eexists; (split; [reflexivity|]);
    intros E; try discriminate; auto.
Qed.

(** The part of [binary_round_aux] after the first shift. *)
Lemma round_aux_core s m e l mB eB :
  0 <= m -> - K <= e ->
  bounded prec emax mB eB = true ->
  scaled (Zpos mB) eB < 2 ^ (K + 900) ->
  scaled (round_nearest_even (shr_m (fst (shr_fexp prec emax m e l)))
            (loc_of_shr_record (fst (shr_fexp prec emax m e l))))
         (snd (shr_fexp prec emax m e l)) <= scaled (Zpos mB) eB ->
  exists w, SFval (binary_round_aux prec emax s m e l) = Some (cond_Zopp s w)
            /\ 0 <= w <= scaled (Zpos mB) eB.
Proof.
  intros Hm He HB Hsmall HA.
  pose proof (bounded_inv _ _ HB) as (HeB & HmB & HnormB).
  assert (HvBpos : 0 < scaled (Zpos mB) eB) by (apply scaled_pos; klia).
  remember (scaled (Zpos mB) eB) as vB eqn:EvB.
  unfold binary_round_aux. unfold shr_fexp in HA. unfold shr_fexp at 1.
  destruct (shr_record_of_loc_eq m l) as (r0 & s0 & Erec & _). rewrite Erec in HA |- *.
  set (n1 := fexp prec emax (Zdigits2 m + e) - e) in *.
  pose proof (shr_gen_spec m r0 s0 e n1 Hm) as H1. cbv zeta in H1.
  destruct (shr {| shr_m := m; shr_r := r0; shr_s := s0 |} e n1) as [x1 e1].
  cbn [fst snd] in H1, HA.
  destruct H1 as (He1 & Hm1 & Hm2 & _).
  set (m2 := round_nearest_even (shr_m x1) (loc_of_shr_record x1)) in *.
  set (n1' := Z.max n1 0) in *.
  assert (Hp1 : 0 < 2 ^ n1') by (apply Z.pow_pos_nonneg; lia).
  assert (Hm1pos : 0 <= m / 2 ^ n1') by (apply Z.div_pos; lia).
  assert (Hm2pos : 0 <= m2) by lia.
  unfold shr_fexp. cbn [shr_record_of_loc].
  set (n2 := fexp prec emax (Zdigits2 m2 + e1) - e1).
  pose proof (shr_gen_spec m2 false false e1 n2 Hm2pos) as H2. cbv zeta in H2.
  destruct (shr _ e1 n2) as [x2 e2]. cbn [fst snd] in H2.
  destruct H2 as (He2 & Hm3 & _ & _).
  set (n2' := Z.max n2 0) in *.
  assert (Hp2 : 0 < 2 ^ n2') by (apply Z.pow_pos_nonneg; lia).
  assert (He1K : 0 <= e1 + K) by klia.
  assert (HB2 : scaled (shr_m x2) e2 <= scaled m2 e1).
  { rewrite Hm3, He2. rewrite scaled_shift by lia. unfold scaled.
    assert (HPe1 : 0 < 2 ^ (e1 + K)) by (apply Z.pow_pos_nonneg; lia).
    pose proof (Z.mul_div_le m2 (2 ^ n2') Hp2). nia. }
  assert (Hm3pos : 0 <= shr_m x2) by (rewrite Hm3; apply Z.div_pos; lia).
  destruct (shr_m x2) as [|m3|m3] eqn:E3.
  - exists 0. split; [destruct s; reflexivity|]. lia.
  - assert (He2le : e2 <= emax - prec).
    { assert (2 ^ (e2 + K) < 2 ^ (K + 900)).
      { eapply Z.le_lt_trans; [|exact Hsmall]. eapply Z.le_trans; [|exact HA].
        eapply Z.le_trans; [|exact HB2]. unfold scaled.
        assert (0 < 2 ^ (e2 + K)) by (apply Z.pow_pos_nonneg; lia). nia. }
      apply Z.pow_lt_mono_r_iff in H; unfold emax, prec; klia. }
    apply Z.leb_le in He2le. rewrite He2le.
    exists (scaled (Zpos m3) e2). split; [reflexivity|].
    split; [|lia]. pose proof (scaled_pos (Zpos m3) e2 ltac:(klia) eq_refl). lia.
  - lia.
Qed.

(** Rounding never crosses a representable number: if the exact value,
    which lies at [m * 2^e] ([l] exact) or strictly between it and
    [(m + 1) * 2^e], is at most a representable bound, so is the rounded
    one. *)
Lemma round_aux_le s m e l mB eB :
  0 <= m -> - K <= e ->
  e <= fexp prec emax (Zdigits2 m + e) ->
  bounded prec emax mB eB = true ->
  scaled m e <= scaled (Zpos mB) eB ->
  (l <> loc_Exact -> scaled m e < scaled (Zpos mB) eB) ->
  scaled (Zpos mB) eB < 2 ^ (K + 900) ->
  exists w, SFval (binary_round_aux prec emax s m e l) = Some (cond_Zopp s w)
            /\ 0 <= w <= scaled (Zpos mB) eB.
Proof.
  intros Hm He Hprec HB Hle Hlt Hsmall.
  apply round_aux_core; try assumption.
  pose proof (bounded_inv _ _ HB) as (HeB & HmB & HnormB).
  assert (HvBpos : 0 < scaled (Zpos mB) eB) by (apply scaled_pos; klia).
  remember (scaled (Zpos mB) eB) as vB eqn:EvB.
  unfold shr_fexp.
  destruct (shr_record_of_loc_eq m l) as (r0 & s0 & -> & Hex0).
  set (n1 := fexp prec emax (Zdigits2 m + e) - e) in *.
  pose proof (shr_gen_spec m r0 s0 e n1 Hm) as H1. cbv zeta in H1.
  destruct (shr {| shr_m := m; shr_r := r0; shr_s := s0 |} e n1) as [x1 e1].
  cbn [fst snd] in H1 |- *.
  destruct H1 as (He1 & Hm1 & Hm2 & Hex & _).
  set (m2 := round_nearest_even (shr_m x1) (loc_of_shr_record x1)) in *.
  assert (Hn1 : 0 <= n1) by (unfold n1; lia).
  replace (Z.max n1 0) with n1 in * by lia.
  assert (Hp1 : 0 < 2 ^ n1) by (apply Z.pow_pos_nonneg; lia).
  assert (Hm1pos : 0 <= m / 2 ^ n1) by (apply Z.div_pos; lia).
  set (m1 := m / 2 ^ n1) in *.
  assert (HPe : 0 < 2 ^ (e + K)) by (apply Z.pow_pos_nonneg; klia).
  assert (Hsc : forall a, scaled a e1 = a * 2 ^ n1 * 2 ^ (e + K)).
  { intros a. rewrite He1. apply scaled_shift; klia. }
  pose proof (Z.div_mod m (2 ^ n1) ltac:(lia)) as Hdm. fold m1 in Hdm.
  pose proof (Z.mod_pos_bound m (2 ^ n1) Hp1) as Hmb.
  destruct (exact_or_inexact m n1 l) as [[Hz Hl]|Hne].
  - destruct (Hex0 Hl) as [-> ->]. rewrite (Hex Hz eq_refl eq_refl). rewrite Hsc.
    unfold scaled in Hle. nia.
  - assert (Hlt1 : scaled m1 e1 < vB).
    { rewrite Hsc. unfold scaled in Hle, Hlt.
      destruct Hne as [Hnz|Hnl]; [nia|]. specialize (Hlt Hnl). nia. }
    assert (Hup : scaled (m1 + 1) e1 <= vB).
    { destruct (Z_le_gt_dec e1 eB) as [Hge|Hlt'].
      - assert (EvB' : vB = Zpos mB * 2 ^ (eB - e1) * 2 ^ (e1 + K)).
        { rewrite EvB. replace eB with (e1 + (eB - e1)) at 1 by lia.
          apply scaled_shift; klia. }
        unfold scaled in Hlt1 |- *. rewrite EvB' in Hlt1 |- *.
        assert (HPe1 : 0 < 2 ^ (e1 + K)) by (apply Z.pow_pos_nonneg; klia).
        assert (m1 < Zpos mB * 2 ^ (eB - e1)) by nia. nia.
      - exfalso.
        assert (Hd : e1 = Zdigits2 m + e - 53 /\ n1 = Zdigits2 m - 53).
        { unfold n1, fexp, SpecFloat.emin, prec, emax in *. lia. }
        destruct Hd as [He1' Hn1'].
        destruct m as [|mp|mp]; [cbn in Hn1'; lia| |lia].
        cbn [Zdigits2] in *.
        pose proof (digits2_pos_bounds mp) as [Hdlo Hdhi].
        set (d := Zpos (digits2_pos mp)) in *.
        assert (Hm1lo : 2 ^ 52 <= m1).
        { unfold m1. rewrite Hn1'. apply Z.div_le_lower_bound; [rewrite <- Hn1'; exact Hp1|].
          rewrite <- Z.pow_add_r by lia. replace (d - 53 + 52) with (d - 1) by lia. exact Hdlo. }
        assert (HPe1 : 0 < 2 ^ (e1 + K)) by (apply Z.pow_pos_nonneg; klia).
        assert (Hpw : 2 ^ (e1 + K) = 2 ^ (e1 - eB) * 2 ^ (eB + K)).
        { rewrite <- Z.pow_add_r by klia. f_equal. lia. }
        assert (Hq : 2 ^ 1 <= 2 ^ (e1 - eB)) by (apply Z.pow_le_mono_r; lia).
        assert (HPeB : 0 < 2 ^ (eB + K)) by (apply Z.pow_pos_nonneg; klia).
        unfold scaled in Hlt1. rewrite Hpw in Hlt1. rewrite EvB in Hlt1. unfold scaled in Hlt1.
        change (2 ^ 53) with (2 ^ 52 * 2 ^ 1) in HmB. nia. }
    eapply Z.le_trans; [|exact Hup].
    rewrite !Hsc. nia.
Qed.

(** Rounding to nearest goes down when the discarded part is below one
    half. *)
Lemma round_aux_floor s m e mB eB :
  let n1 := fexp prec emax (Zdigits2 m + e) - e in
  0 <= m -> - K <= e -> 0 < n1 ->
  m mod 2 ^ n1 < 2 ^ (n1 - 1) ->
  bounded prec emax mB eB = true ->
  scaled (m / 2 ^ n1) (e + n1) <= scaled (Zpos mB) eB ->
  scaled (Zpos mB) eB < 2 ^ (K + 900) ->
  exists w, SFval (binary_round_aux prec emax s m e loc_Exact) = Some (cond_Zopp s w)
            /\ 0 <= w <= scaled (Zpos mB) eB.
Proof.
  intros n1 Hm He Hn1 Hhalf HB Hle Hsmall.
  apply round_aux_core; try assumption.
  unfold shr_fexp. cbn [shr_record_of_loc]. fold n1.
  pose proof (shr_gen_spec m false false e n1 Hm) as H1. cbv zeta in H1.
  destruct (shr {| shr_m := m; shr_r := false; shr_s := false |} e n1) as [x1 e1].
  cbn [fst snd] in H1 |- *.
  destruct H1 as (He1 & _ & _ & _ & Hdown).
  rewrite (Hdown Hn1 Hhalf), He1. replace (Z.max n1 0) with n1 by lia. exact Hle.
Qed.


(** A finite number kept as it is by the rounding step. *)
Lemma round_aux_exact s m e :
  bounded prec emax m e = true ->
  binary_round_aux prec emax s (Zpos m) e loc_Exact = S754_finite s m e.
Proof.
  intros HB. unfold bounded, canonical_mantissa in HB.
  apply andb_true_iff in HB as [Hc Hle]. apply Z.eqb_eq in Hc.
  unfold binary_round_aux, shr_fexp. cbn [Zdigits2 shr_record_of_loc].
  rewrite Hc, Z.sub_diag. cbn [shr shr_m loc_of_shr_record round_nearest_even Zdigits2].
  rewrite Hc, Z.sub_diag. cbn [shr shr_m]. rewrite Hle. reflexivity.
Qed.

(** Every [n * 2^e] with [n] below [2^53] and a moderate [e] is a binary64
    number, with a full mantissa. *)
Lemma representable (n e : Z) :
  0 < n < 2 ^ 53 -> -1000 <= e <= 900 ->
  exists mB eB, bounded prec emax mB eB = true
                /\ scaled (Zpos mB) eB = n * 2 ^ (e + K)
                /\ 2 ^ 52 <= Zpos mB /\ e - 52 <= eB <= e.
Proof.
  intros Hn He. destruct n as [|p|p]; try lia.
  pose proof (digits2_pos_bounds p) as [Hlo Hhi].
  set (d := Zpos (digits2_pos p)) in *.
  assert (Hd : 1 <= d <= 53).
  { split; [unfold d; lia|].
    destruct (Z_le_gt_dec d 53) as [|Hgt]; [assumption|exfalso].
    assert (2 ^ 53 <= 2 ^ (d - 1)) by (apply Z.pow_le_mono_r; lia). lia. }
  assert (Hp : 0 < 2 ^ (53 - d)) by (apply Z.pow_pos_nonneg; lia).
  set (M := Zpos p * 2 ^ (53 - d)).
  assert (HM : 2 ^ 52 <= M < 2 ^ 53).
  { unfold M. replace (2 ^ 52) with (2 ^ (d - 1) * 2 ^ (53 - d)).
    2:{ rewrite <- Z.pow_add_r by lia. f_equal. lia. }
    replace (2 ^ 53) with (2 ^ d * 2 ^ (53 - d)).
    2:{ rewrite <- Z.pow_add_r by lia. f_equal. lia. }
    nia. }
  exists (Z.to_pos M), (d + e - 53).
  assert (EM : Zpos (Z.to_pos M) = M) by (apply Z2Pos.id; lia).
  assert (Hdig : Zpos (digits2_pos (Z.to_pos M)) = 53).
  { apply digits2_pos_unique; [rewrite EM; exact HM|lia]. }
  split; [|split; [|split]].
  - unfold bounded, canonical_mantissa. rewrite Hdig.
    apply andb_true_iff. split; [apply Z.eqb_eq|apply Z.leb_le];
      unfold fexp, SpecFloat.emin, prec, emax; lia.
  - rewrite EM. unfold scaled, M. rewrite <- Z.mul_assoc, <- Z.pow_add_r by klia.
    do 2 f_equal. lia.
  - rewrite EM. apply HM.
  - lia.
Qed.

(** Integers below [2^53] are converted exactly. *)
Lemma of_int_pos (n : Z) :
  0 < n < 2 ^ 53 ->
  exists m e, Prim2SF (of_int n) = S754_finite false m e
              /\ scaled (Zpos m) e = n * 2 ^ K /\ 2 ^ 52 <= Zpos m /\ -52 <= e <= 0.
Proof.
  intros Hn. destruct (representable n 0 Hn ltac:(lia)) as (mB & eB & HB & Hv & Hm & HeB).
  exists mB, eB. rewrite Z.add_0_l in Hv. repeat split; try assumption; try lia.
  unfold of_int. destruct n as [|p|p]; try lia. cbn [binary_normalize].
  assert (E : binary_round prec emax false p 0 = S754_finite false mB eB).
  { unfold binary_round.
    set (e' := fexp prec emax (Zpos (digits2_pos p) + 0)).
    assert (He' : - K <= e') by (unfold e', fexp, SpecFloat.emin, prec, emax; klia).
    destruct (shl_align_scaled p 0 e' ltac:(klia) He') as [Hsv Hs].
    destruct (shl_align p 0 e') as [mz ez]. cbn [fst snd] in Hsv, Hs.
    pose proof (digits2_pos_bounds p) as [Hlo Hhi].
    set (d := Zpos (digits2_pos p)) in *.
    assert (Hd : 1 <= d <= 53).
    { split; [unfold d; lia|].
      destruct (Z_le_gt_dec d 53) as [|Hgt]; [assumption|exfalso].
      assert (2 ^ 53 <= 2 ^ (d - 1)) by (apply Z.pow_le_mono_r; lia). lia. }
    assert (Eez : ez = d - 53) by (unfold e', fexp, SpecFloat.emin, prec, emax in *; lia).
    assert (Emz : Zpos mz = Zpos p * 2 ^ (53 - d)).
    { unfold scaled in Hsv. rewrite Eez, Z.add_0_l in Hsv.
      replace (2 ^ K) with (2 ^ (53 - d) * 2 ^ (d - 53 + K)) in Hsv.
      2:{ rewrite <- Z.pow_add_r by klia. f_equal. lia. }
      assert (0 < 2 ^ (d - 53 + K)) by (apply Z.pow_pos_nonneg; klia). nia. }
    assert (H52 : 2 ^ 52 <= Zpos mz < 2 ^ 53).
    { rewrite Emz. replace (2 ^ 52) with (2 ^ (d - 1) * 2 ^ (53 - d)).
      2:{ rewrite <- Z.pow_add_r by lia. f_equal. lia. }
      replace (2 ^ 53) with (2 ^ d * 2 ^ (53 - d)).
      2:{ rewrite <- Z.pow_add_r by lia. f_equal. lia. }
      assert (0 < 2 ^ (53 - d)) by (apply Z.pow_pos_nonneg; lia). nia. }
    assert (Hbz : bounded prec emax mz ez = true).
    { unfold bounded, canonical_mantissa.
      rewrite (digits2_pos_unique mz 53 H52 ltac:(lia)).
      apply andb_true_iff. split; [apply Z.eqb_eq|apply Z.leb_le];
        unfold fexp, SpecFloat.emin, prec, emax; lia. }
    rewrite (round_aux_exact _ _ _ Hbz).
    (* the two representations of the same number coincide *)
    assert (Hlt : ~ ez < eB).
    { intros Hlt. pose proof (scaled_lt_exp _ _ _ _ Hbz HB Hlt) as H. rewrite Hv, Hsv in H.
      unfold scaled in H. rewrite Z.add_0_l in H. lia. }
    assert (Hgt : ~ eB < ez).
    { intros Hgt. pose proof (scaled_lt_exp _ _ _ _ HB Hbz Hgt) as H. rewrite Hv, Hsv in H.
      unfold scaled in H. rewrite Z.add_0_l in H. lia. }
    assert (Ee : ez = eB) by lia. rewrite Ee in Hsv |- *.
    f_equal. unfold scaled in Hsv, Hv. rewrite Z.add_0_l in Hsv.
    assert (0 < 2 ^ (eB + K)) by (apply Z.pow_pos_nonneg; klia).
    assert (Zpos mz = Zpos mB) by (apply (Z.mul_reg_r _ _ (2 ^ (eB + K))); lia). congruence. }
  rewrite E. apply Prim2SF_SF2Prim. exact HB.
Qed.

Lemma fval_of_int (n : Z) : 0 <= n < 2 ^ 53 -> fval (of_int n) = Some (n * 2 ^ K).
Proof.
  intros Hn. destruct (Z.eq_dec n 0) as [->|Hne]; [vm_compute; reflexivity|].
  destruct (of_int_pos n ltac:(lia)) as (m & e & E & Hv & _).
  unfold fval. rewrite E. cbn. f_equal. exact Hv.
Qed.


(** The largest binary64 number below a positive normal one. *)
Lemma pred_normal mx ex :
  bounded prec emax mx ex = true -> 2 ^ 52 <= Zpos mx -> -900 <= ex <= 800 ->
  exists mP eP, bounded prec emax mP eP = true
    /\ scaled (Zpos mP) eP < scaled (Zpos mx) ex
    /\ scaled (Zpos mP) eP < 2 ^ (K + 900)
    /\ (2 ^ K - 2 ^ (K - 52)) * scaled (Zpos mx) ex <= scaled (Zpos mP) eP * 2 ^ K
    /\ ((Zpos mx = 2 ^ 52 /\ scaled (Zpos mP) eP = (2 ^ 53 - 1) * 2 ^ (ex - 1 + K))
        \/ (2 ^ 52 < Zpos mx /\ scaled (Zpos mP) eP = (Zpos mx - 1) * 2 ^ (ex + K))).
Proof.
  intros HB Hmx Hex. pose proof (bounded_inv _ _ HB) as (_ & Hm53 & _).
  set (a := 2 ^ (ex - 1 + K)). set (b := 2 ^ (K - 52)).
  assert (Ha : 0 < a) by (apply Z.pow_pos_nonneg; klia).
  assert (Hb : 0 < b) by (apply Z.pow_pos_nonneg; klia).
  assert (Et : 2 ^ (ex + K) = 2 * a).
  { unfold a. rewrite <- Z.pow_succ_r by klia. f_equal. lia. }
  assert (EK : 2 ^ K = 2 ^ 52 * b).
  { reflexivity. }
  assert (Hsm : 2 ^ 53 * (2 * a) <= 2 ^ (K + 900)).
  { rewrite <- Et, <- Z.pow_add_r by klia. apply Z.pow_le_mono_r; klia. }
  unfold scaled at 2 4. rewrite Et, EK.
  destruct (Z.eq_dec (Zpos mx) (2 ^ 52)) as [E52|Hne].
  - destruct (representable (2 ^ 53 - 1) (ex - 1) ltac:(lia) ltac:(lia))
      as (mP & eP & HP & HvP & _).
    fold a in HvP. exists mP, eP. rewrite HvP, E52.
    split; [exact HP|]. split; [nia|]. split; [nia|]. split; [|left; auto].
    replace ((2 ^ 52 * b - b) * (2 ^ 52 * (2 * a))) with (a * b * ((2 ^ 52 - 1) * 2 ^ 53)) by ring.
    replace ((2 ^ 53 - 1) * a * (2 ^ 52 * b)) with (a * b * ((2 ^ 53 - 1) * 2 ^ 52)) by ring.
    apply Z.mul_le_mono_nonneg_l; [nia|]. vm_compute. discriminate.
  - destruct (representable (Zpos mx - 1) ex ltac:(lia) ltac:(lia))
      as (mP & eP & HP & HvP & _).
    rewrite Et in HvP. exists mP, eP. rewrite HvP.
    split; [exact HP|]. split; [nia|]. split; [nia|]. split; [|right; split; [lia|reflexivity]].
    replace ((2 ^ 52 * b - b) * (Zpos mx * (2 * a))) with (2 * a * b * ((2 ^ 52 - 1) * Zpos mx)) by ring.
    replace ((Zpos mx - 1) * (2 * a) * (2 ^ 52 * b)) with (2 * a * b * ((Zpos mx - 1) * 2 ^ 52)) by ring.
    apply Z.mul_le_mono_nonneg_l; [nia|]. lia.
Qed.

(** A number of [0,1) times a positive normal number stays strictly below
    that number, also after rounding. *)
Lemma mul_below u x mx ex :
  unit_interval u ->
  Prim2SF x = S754_finite false mx ex -> 2 ^ 52 <= Zpos mx -> -900 <= ex <= 800 ->
  exists w, fval (u * x)%float = Some w /\ 0 <= w < scaled (Zpos mx) ex.
Proof.
  intros Hu Ex Hmx Hex.
  pose proof (Prim2SF_valid x) as Hvx. rewrite Ex in Hvx.
  assert (HB : bounded prec emax mx ex = true) by exact Hvx.
  pose proof (bounded_inv _ _ HB) as (_ & Hm53 & _).
  destruct (pred_normal mx ex HB Hmx Hex) as (mP & eP & HP & Hlt & Hsm & Hmul & Hcase).
  destruct (unit_interval_val u Hu) as (v & Hv & Hr).
  pose proof pow_K as HK.
  assert (Hvxpos : 0 < scaled (Zpos mx) ex) by (apply scaled_pos; [klia|lia]).
  unfold fval. rewrite FloatAxioms.mul_spec.
  destruct (below_one u v Hv Hr) as [->|Hle].
  - rewrite Ex. change (Prim2SF pred_one) with (S754_finite false 9007199254740991 (-53)).
    unfold SF64mul, SFmul. cbn [xorb].
    set (M := (9007199254740991 * mx)%positive).
    assert (EM : Zpos M = (2 ^ 53 - 1) * Zpos mx) by (unfold M; rewrite Pos2Z.inj_mul; reflexivity).
    destruct Hcase as [[E52 EvP]|[Hgt EvP]].
    + destruct (round_aux_upper false M (-53 + ex) mP eP) as (w & Hw & Hwr);
        try assumption; [klia| |].
      * rewrite EvP. unfold scaled. rewrite EM, E52.
        replace (-53 + ex + K) with (ex - 1 + K - 52) by lia.
        assert (0 <= ex - 1 + K - 52) by klia.
        replace (2 ^ (ex - 1 + K)) with (2 ^ 52 * 2 ^ (ex - 1 + K - 52)).
        2:{ rewrite <- Z.pow_add_r by lia. f_equal. lia. }
        lia.
      * exists w. cbn [cond_Zopp] in Hw. split; [exact Hw|lia].
    + assert (Hdig : Zdigits2 (Zpos M) = 106).
      { cbn [Zdigits2]. apply digits2_pos_unique; [|lia]. rewrite EM.
        change (2 ^ (106 - 1)) with (2 ^ 53 * 2 ^ 52). change (2 ^ 106) with (2 ^ 53 * 2 ^ 53). nia. }
      pose proof (round_aux_floor false (Zpos M) (-53 + ex) mP eP) as H. cbv zeta in H.
      rewrite Hdig in H.
      replace (fexp prec emax (106 + (-53 + ex)) - (-53 + ex)) with 53 in H
        by (unfold fexp, SpecFloat.emin, prec, emax; lia).
      assert (Ediv : Zpos M / 2 ^ 53 = Zpos mx - 1).
      { symmetry. apply (Z.div_unique _ _ _ (2 ^ 53 - Zpos mx)); [lia|]. rewrite EM. ring. }
      assert (Emod : Zpos M mod 2 ^ 53 = 2 ^ 53 - Zpos mx).
      { symmetry. apply (Z.mod_unique _ _ (Zpos mx - 1)); [lia|]. rewrite EM. ring. }
      destruct H as (w & Hw & Hwr); try assumption; try lia; [klia| |].
      * rewrite Ediv, EvP. unfold scaled. replace (-53 + ex + 53 + K) with (ex + K) by lia. lia.
      * exists w. cbn [cond_Zopp] in Hw. split; [exact Hw|lia].
  - destruct (SFmul_bound (Prim2SF u) (Prim2SF x) v (scaled (Zpos mx) ex) mP eP)
      as (w & Hw & Hwr); try assumption; auto using Prim2SF_valid; try lia.
    + rewrite Ex. reflexivity.
    + rewrite HK in Hmul. eapply Z.le_trans; [|exact Hmul].
      apply Z.mul_le_mono_nonneg_r; lia.
    + exists w. split; [exact Hw|lia].
Qed.

(** [Math.floor(Math.random() * n)] is an index below [n]. *)
Lemma floor_scale u (n : Z) :
  unit_interval u -> 0 < n < 2 ^ 53 -> 0 <= floor (u * of_int n) < n.
Proof.
  intros Hu Hn. destruct (of_int_pos n Hn) as (m & e & E & Hv & Hm & He).
  destruct (mul_below u (of_int n) m e Hu E Hm ltac:(lia)) as (w & Hw & Hwr).
  rewrite (floor_val _ _ Hw). rewrite Hv in Hwr.
  assert (0 < 2 ^ K) by (apply Z.pow_pos_nonneg; klia).
  split; [apply Z.div_pos; lia|apply Z.div_lt_upper_bound; lia].
Qed.

Lemma floor_scale_0 u : unit_interval u -> floor (u * of_int 0) = 0.
Proof.
  intros Hu. destruct (unit_interval_val u Hu) as (v & Hv & _).
  assert (H : fval (u * of_int 0) = Some 0).
  { unfold fval in *. rewrite FloatAxioms.mul_spec.
    change (Prim2SF (of_int 0)) with (S754_zero false).
    destruct (Prim2SF u) as [s|s| |s m e]; try discriminate; reflexivity. }
  rewrite (floor_val _ _ H). reflexivity.
Qed.


(** The integer quotient that [SFdiv] rounds: enough digits, and the
    location says whether the division is exact. *)
Lemma SFdiv_core_spec mx ex my ey :
  -1074 <= ex <= 971 -> -1074 <= ey <= 971 ->
  exists q e' l r,
    SFdiv_core_binary prec emax (Zpos mx) ex (Zpos my) ey = (q, e', l)
    /\ 0 <= q /\ - K <= e' <= ex - ey
    /\ e' <= fexp prec emax (Zdigits2 q + e')
    /\ 0 <= r < Zpos my
    /\ Zpos mx * 2 ^ (ex - ey - e') = q * Zpos my + r
    /\ (r = 0 -> l = loc_Exact).
Proof.
  intros Hex Hey. unfold SFdiv_core_binary. cbn [Zdigits2].
  pose proof (digits2_pos_bounds mx) as [Hxlo Hxhi].
  pose proof (digits2_pos_bounds my) as [Hylo Hyhi].
  set (d1 := Zpos (digits2_pos mx)) in *. set (d2 := Zpos (digits2_pos my)) in *.
  set (e' := Z.min (fexp prec emax (d1 + ex - (d2 + ey))) (ex - ey)).
  set (s := ex - ey - e').
  assert (Hs : 0 <= s) by (unfold s, e'; lia).
  assert (Em : match s with 0 => Zpos mx | Zpos _ => Z.shiftl (Zpos mx) s | Zneg _ => 0 end
               = Zpos mx * 2 ^ s).
  { destruct s as [|p|p] eqn:Es; [cbn; lia| |lia]. apply Z.shiftl_mul_pow2. lia. }
  rewrite Em.
  pose proof (Z_div_mod (Zpos mx * 2 ^ s) (Zpos my) ltac:(lia)) as Hdm.
  destruct (Z.div_eucl (Zpos mx * 2 ^ s) (Zpos my)) as [q r]. destruct Hdm as [Hdm Hr].
  assert (Hps : 0 < 2 ^ s) by (apply Z.pow_pos_nonneg; lia).
  assert (Hq : 0 <= q) by nia.
  exists q, e', (new_location (Zpos my) r), r.
  split; [reflexivity|]. split; [exact Hq|].
  split; [unfold e', fexp, SpecFloat.emin, prec, emax; klia|].
  split; [|split; [exact Hr|split; [unfold s in Hdm; lia|]]].
  - assert (Hdig : d1 + s - d2 <= Zdigits2 q).
    { destruct (Z_le_gt_dec (d1 + s - d2) 0) as [Hk|Hk].
      - destruct q; cbn [Zdigits2]; lia.
      - assert (Hqlo : 2 ^ (d1 + s - d2 - 1) <= q).
        { assert (H1 : 2 ^ (d1 + s - d2 - 1) * 2 ^ d2 <= Zpos mx * 2 ^ s).
          { rewrite <- Z.pow_add_r by lia. replace (d1 + s - d2 - 1 + d2) with (d1 - 1 + s) by lia.
            rewrite Z.pow_add_r by lia. nia. }
          assert (0 < 2 ^ (d1 + s - d2 - 1)) by (apply Z.pow_pos_nonneg; lia).
          nia. }
        assert (0 < 2 ^ (d1 + s - d2 - 1)) by (apply Z.pow_pos_nonneg; lia).
        destruct q as [|qp|qp]; try lia. cbn [Zdigits2].
        pose proof (digits2_pos_bounds qp) as [_ Hqhi].
        assert (d1 + s - d2 - 1 < Zpos (digits2_pos qp)); [|lia].
        apply (Z.pow_lt_mono_r_iff 2); lia. }
    unfold s in Hdig. unfold e' at 1.
    unfold fexp in *. lia.
  - intros ->. unfold new_location, new_location_even, new_location_odd.
    destruct (Z.even (Zpos my)); reflexivity.
Qed.

Lemma SFdiv_bound x y vx vy mB eB :
  valid_binary x = true -> valid_binary y = true ->
  SFval x = Some vx -> SFval y = Some vy -> 0 < vy ->
  bounded prec emax mB eB = true ->
  Z.abs vx * 2 ^ K <= scaled (Zpos mB) eB * vy ->
  scaled (Zpos mB) eB < 2 ^ (K + 900) ->
  exists w, SFval (SF64div x y) = Some w /\ Z.abs w <= scaled (Zpos mB) eB.
Proof.
  intros Hx Hy Vx Vy Hpos HB Hle Hsmall.
  assert (HvB : 0 < scaled (Zpos mB) eB).
  { apply scaled_pos; [|reflexivity]. apply bounded_inv in HB. klia. }
  destruct y as [sy|sy| |sy my ey]; try discriminate;
    cbn in Vy; injection Vy as <-; [lia|].
  pose proof (bounded_inv _ _ Hy) as (Hey & _).
  pose proof (scaled_pos (Zpos my) ey ltac:(klia) eq_refl) as Hvy.
  destruct sy; cbn [cond_Zopp] in Hpos, Hle; [lia|].
  destruct x as [sx|sx| |sx mx ex]; try discriminate; cbn in Vx; injection Vx as <-.
  - exists 0. split; [reflexivity|]. cbn. lia.
  - pose proof (bounded_inv _ _ Hx) as (Hex & _).
    unfold SF64div, SFdiv.
    destruct (SFdiv_core_spec mx ex my ey Hex Hey)
      as (q & e' & l & r & -> & Hq & He' & Hprec & Hr & Hdm & Hl).
    assert (Habs : Z.abs (cond_Zopp sx (scaled (Zpos mx) ex)) = scaled (Zpos mx) ex).
    { pose proof (scaled_pos (Zpos mx) ex ltac:(klia) eq_refl).
      destruct sx; cbn [cond_Zopp]; lia. }
    rewrite Habs in Hle.
    set (vB := scaled (Zpos mB) eB) in *.
    assert (HPK : 0 < 2 ^ (ey + K)) by (apply Z.pow_pos_nonneg; klia).
    assert (HPe : 0 < 2 ^ (e' + K)) by (apply Z.pow_pos_nonneg; klia).
    assert (H1 : Zpos mx * 2 ^ (ex - ey + K) <= vB * Zpos my).
    { unfold scaled in Hle.
      assert (E : 2 ^ (ex + K) * 2 ^ K = 2 ^ (ex - ey + K) * 2 ^ (ey + K)).
      { rewrite <- !Z.pow_add_r by klia. f_equal. lia. }
      apply (Z.mul_le_mono_pos_r _ _ (2 ^ (ey + K)) HPK).
      rewrite <- Z.mul_assoc, <- E. lia. }
    assert (E2 : 2 ^ (ex - ey + K) = 2 ^ (ex - ey - e') * 2 ^ (e' + K)).
    { rewrite <- Z.pow_add_r by klia. f_equal. lia. }
    assert (H2 : (q * Zpos my + r) * 2 ^ (e' + K) <= vB * Zpos my).
    { rewrite <- Hdm, <- Z.mul_assoc, <- E2. exact H1. }
    destruct (round_aux_le sx q e' l mB eB) as (w & Hw & Hwr); try assumption; try lia.
    + change (scaled q e' <= vB). unfold scaled.
      apply (Z.mul_le_mono_pos_r _ _ (Zpos my)); [lia|].
      assert (0 <= r * 2 ^ (e' + K)) by nia. lia.
    + intros Hne. change (scaled q e' < vB). unfold scaled.
      assert (r <> 0) by (intros E0; apply Hne, Hl, E0).
      apply (Z.mul_lt_mono_pos_r (Zpos my)); [lia|].
      assert (0 < r * 2 ^ (e' + K)) by nia. lia.
    + rewrite xorb_false_r. exists (cond_Zopp sx w). split; [exact Hw|].
      destruct sx; cbn [cond_Zopp]; lia.
Qed.

Lemma SFmul_abs_bound x y vx vy mB eB :
  valid_binary x = true -> valid_binary y = true ->
  SFval x = Some vx -> SFval y = Some vy ->
  bounded prec emax mB eB = true ->
  Z.abs vx * Z.abs vy <= scaled (Zpos mB) eB * 2 ^ K ->
  scaled (Zpos mB) eB < 2 ^ (K + 900) ->
  exists w, SFval (SF64mul x y) = Some w /\ Z.abs w <= scaled (Zpos mB) eB.
Proof.
  intros Hx Hy Vx Vy HB Hle Hsmall.
  assert (HvB : 0 < scaled (Zpos mB) eB).
  { apply scaled_pos; [|reflexivity]. apply bounded_inv in HB. klia. }
  destruct x as [sx|sx| |sx mx ex], y as [sy|sy| |sy my ey]; try discriminate;
    cbn in Vx, Vy; injection Vx as <-; injection Vy as <-;
    try (exists 0; split; [reflexivity|cbn; lia]).
  pose proof (SFval_valid_exp _ _ _ Hx) as [Hex Hex'].
  pose proof (SFval_valid_exp _ _ _ Hy) as [Hey Hey'].
  pose proof (scaled_pos (Zpos mx) ex Hex eq_refl).
  pose proof (scaled_pos (Zpos my) ey Hey eq_refl).
  assert (Ax : Z.abs (cond_Zopp sx (scaled (Zpos mx) ex)) = scaled (Zpos mx) ex)
    by (destruct sx; cbn [cond_Zopp]; lia).
  assert (Ay : Z.abs (cond_Zopp sy (scaled (Zpos my) ey)) = scaled (Zpos my) ey)
    by (destruct sy; cbn [cond_Zopp]; lia).
  rewrite Ax, Ay in Hle.
  unfold SF64mul, SFmul.
  destruct (round_aux_upper (xorb sx sy) (mx * my) (ex + ey) mB eB) as (w & Hw & Hr);
    try assumption.
  - klia.
  - assert (HK : 0 < 2 ^ K) by (apply Z.pow_pos_nonneg; klia).
    assert (E : scaled (Zpos mx) ex * scaled (Zpos my) ey = scaled (Zpos (mx * my)) (ex + ey) * 2 ^ K).
    { unfold scaled. rewrite Pos2Z.inj_mul.
      transitivity (Zpos mx * Zpos my * (2 ^ (ex + K) * 2 ^ (ey + K))); [ring|].
      rewrite <- Z.pow_add_r by lia.
      transitivity (Zpos mx * Zpos my * (2 ^ (ex + ey + K) * 2 ^ K)); [|ring].
      rewrite <- Z.pow_add_r by klia. do 2 f_equal. lia. }
    nia.
  - exists (cond_Zopp (xorb sx sy) w). split; [exact Hw|].
    destruct (xorb sx sy); cbn [cond_Zopp]; lia.
Qed.

Lemma div_val x y vx vy B vB :
  fval x = Some vx -> fval y = Some vy -> fval B = Some vB ->
  0 < vB < 2 ^ (K + 900) -> 0 < vy -> Z.abs vx * 2 ^ K <= vB * vy ->
  exists w, fval (x / y)%float = Some w /\ Z.abs w <= vB.
Proof.
  intros Hx Hy HB [Hpos Hsm] Hy0 Hle.
  destruct (fval_bounded B vB HB Hpos) as (mB & eB & Hb & ->).
  unfold fval. rewrite FloatAxioms.div_spec.
  apply (SFdiv_bound _ _ vx vy mB eB); auto using Prim2SF_valid.
Qed.

Lemma mul_abs_val x y vx vy B vB :
  fval x = Some vx -> fval y = Some vy -> fval B = Some vB ->
  0 < vB < 2 ^ (K + 900) -> Z.abs vx * Z.abs vy <= vB * 2 ^ K ->
  exists w, fval (x * y)%float = Some w /\ Z.abs w <= vB.
Proof.
  intros Hx Hy HB [Hpos Hsm] Hle.
  destruct (fval_bounded B vB HB Hpos) as (mB & eB & Hb & ->).
  unfold fval. rewrite FloatAxioms.mul_spec.
  apply (SFmul_abs_bound _ _ vx vy mB eB); auto using Prim2SF_valid.
Qed.


Lemma fval_5 : fval 5 = Some (20 * U4). Proof. vm_compute. reflexivity. Qed.
Lemma fval_25q : fval 6.25 = Some (25 * U4). Proof. vm_compute. reflexivity. Qed.
Lemma fval_m25q : fval (-6.25) = Some (- (25 * U4)). Proof. vm_compute. reflexivity. Qed.

(** A running sum of [j] numbers of [-1.25, 1.25] stays within [j * 1.25],
    as long as [5 * j] is below [2^53]. *)
Lemma fold_add_bound (l : list float) acc va (j : Z) :
  fval acc = Some va -> 0 <= j -> Z.abs va <= j * (5 * U4) ->
  Forall (between (-1.25) 1.25) l ->
  (j + Z.of_nat (length l)) * 5 < 2 ^ 53 ->
  exists v, fval (fold_left PrimFloat.add l acc) = Some v
            /\ Z.abs v <= (j + Z.of_nat (length l)) * (5 * U4).
Proof.
  revert acc va j. induction l as [|x l IH]; intros acc va j Ha Hj Hva Hl Hn.
  - exists va. cbn. split; [exact Ha|]. lia.
  - apply Forall_cons in Hl as [[Hx1 Hx2] Hl]. cbn [length fold_left] in *.
    destruct (abs_of_range x 1.25 _ fval_5q fval_m5q Hx1 Hx2) as (vx & Hvx & Hxr).
    destruct (representable ((j + 1) * 5) (-2) ltac:(lia) ltac:(lia))
      as (mB & eB & HB & HvB & _).
    change (2 ^ (-2 + K)) with U4 in HvB.
    pose proof U4_pos.
    assert (Hsm : (j + 1) * 5 * U4 < 2 ^ (K + 900)).
    { change (2 ^ (K + 900)) with (2 ^ 902 * U4). apply Z.mul_lt_mono_pos_r; [lia|].
      assert (2 ^ 53 < 2 ^ 902) by reflexivity. lia. }
    destruct (SFadd_bound (Prim2SF acc) (Prim2SF x) va vx mB eB) as (w & Hw & Hwr);
      auto using Prim2SF_valid; try (rewrite HvB; lia).
    rewrite HvB in Hwr. rewrite <- FloatAxioms.add_spec in Hw.
    destruct (IH (acc + x)%float w (j + 1) Hw ltac:(lia) ltac:(lia) Hl ltac:(lia))
      as (v & Hv & Hvr).
    exists v. split; [exact Hv|]. lia.
Qed.

(** The mean of a non-empty block of numbers of [-1.25, 1.25], times 5. *)
Lemma scaled_mean_bound (l : list float) :
  l <> [] -> Z.of_nat (length l) < 2 ^ 50 ->
  Forall (between (-1.25) 1.25) l ->
  between (-6.25) 6.25 (sum l / of_int (Z.of_nat (length l)) * 5).
Proof.
  intros Hne Hlen Hl. set (n := Z.of_nat (length l)) in *.
  assert (Hn : 0 < n) by (unfold n; destruct l; [contradiction|cbn; lia]).
  pose proof U4_pos. pose proof pow_K as HK. pose proof U4_small.
  destruct (fold_add_bound l 0%float 0 0 fval_0 ltac:(lia) ltac:(cbn; lia) Hl ltac:(fold n; lia))
    as (s & Hs & Hsr).
  fold n in Hsr. rewrite Z.add_0_l in Hsr.
  pose proof (fval_of_int n ltac:(lia)) as Hfn.
  assert (H5 : 0 < 5 * U4 < 2 ^ (K + 900)) by lia.
  assert (Hnk : 0 < n * 2 ^ K) by (rewrite HK; nia).
  assert (Hdiv : Z.abs s * 2 ^ K <= 5 * U4 * (n * 2 ^ K)) by (rewrite HK; nia).
  destruct (div_val (sum l) (of_int n) s (n * 2 ^ K) 1.25 (5 * U4) Hs Hfn fval_5q H5 Hnk Hdiv)
    as (q & Hq & Hqr).
  assert (H25 : 0 < 25 * U4 < 2 ^ (K + 900)).
  { split; [lia|]. change (2 ^ (K + 900)) with (2 ^ 902 * U4).
    apply Z.mul_lt_mono_pos_r; [lia|reflexivity]. }
  assert (Hmul : Z.abs q * Z.abs (20 * U4) <= 25 * U4 * 2 ^ K).
  { rewrite HK. replace (Z.abs (20 * U4)) with (20 * U4) by lia. nia. }
  destruct (mul_abs_val _ 5 q (20 * U4) 6.25 (25 * U4) Hq fval_5 fval_25q H25 Hmul)
    as (p & Hp & Hpr).
  apply (range_of_abs _ 6.25%float p (25 * U4) Hp fval_25q fval_m25q Hpr).
Qed.

End F64Facts.

(** ** The vector projector *)

Section Projector.
Local Open Scope Z_scope.

Lemma slice_take_drop {A} (l : list A) (a b : nat) :
  (a <= b <= length l)%nat ->
  slice l (Z.of_nat a) (Z.of_nat b) = take (b - a) (drop a l).
Proof.
  intros H. unfold slice, sliceIndex.
  rewrite (proj2 (Z.ltb_ge (Z.of_nat a) 0)), (proj2 (Z.ltb_ge (Z.of_nat b) 0)) by lia.
  rewrite !Z.min_l by lia. rewrite Nat2Z.id.
  f_equal. lia.
Qed.

Lemma slice_from_drop {A} (l : list A) (a : nat) :
  (a <= length l)%nat -> slice_from l (Z.of_nat a) = drop a l.
Proof.
  intros H. unfold slice_from. rewrite slice_take_drop by lia.
  apply take_ge. rewrite length_drop. lia.
Qed.

(** The three block lengths add up to the dimension. *)
Lemma axisDims_sum (n : Z) :
  0 <= n ->
  let '(xDims, yDims, zDims) := axisDims n in
  0 <= zDims /\ zDims <= yDims <= xDims /\ xDims <= zDims + 1
  /\ xDims + yDims + zDims = n.
Proof.
  intros Hn. unfold axisDims.
  pose proof (Z.div_mod n 3 ltac:(lia)) as Hdm.
  pose proof (Z.mod_pos_bound n 3 ltac:(lia)) as Hm.
  destruct (0 <? n mod 3) eqn:E0, (1 <? n mod 3) eqn:E1; lia.
Qed.

(** The blocks as plain prefixes and suffixes of the vector. *)
Lemma axisBlocks_take_drop (v : list float) :
  let '(xDims, yDims, zDims) := axisDims (Z.of_nat (length v)) in
  axisBlocks v = (take (Z.to_nat xDims) v,
                  take (Z.to_nat yDims) (drop (Z.to_nat xDims) v),
                  drop (Z.to_nat xDims + Z.to_nat yDims) v).
Proof.
  pose proof (axisDims_sum (Z.of_nat (length v)) ltac:(lia)) as H.
  unfold axisBlocks. destruct (axisDims _) as [[x y] z].
  destruct H as (Hz & Hyx & Hxz & Hsum).
  replace (x + y) with (Z.of_nat (Z.to_nat x + Z.to_nat y)) by lia.
  replace x with (Z.of_nat (Z.to_nat x)) at 1 2 by lia.
  change 0 with (Z.of_nat 0).
  rewrite !slice_take_drop, slice_from_drop by lia.
  rewrite drop_0. repeat f_equal; lia.
Qed.
End Projector.

(** C1.  The projector partitions the dimensions of every vector (of length
    n >= 1, and of length 0 as well) into three contiguous, non-overlapping
    blocks: their lengths are xLen = floor(n/3) + (1 if n mod 3 > 0),
    yLen = floor(n/3) + (1 if n mod 3 > 1) and zLen = floor(n/3); they are
    the index ranges [0,xLen), [xLen,xLen+yLen) and [xLen+yLen,n) of the
    vector; the third one has n - xLen - yLen = zLen elements.  For
    n = 9, 10, 11 the lengths are (3,3,3), (4,3,3), (4,4,3). *)
Theorem C1_axis_blocks_partition (v : list float) :
  let n := Z.of_nat (length v) in
  let '(xLen, yLen, zLen) := axisDims n in
  let '(xs, ys, zs) := axisBlocks v in
  (xLen = n / 3 + (if 0 <? n mod 3 then 1 else 0)
   /\ yLen = n / 3 + (if 1 <? n mod 3 then 1 else 0)
   /\ zLen = n / 3)
  /\ (Z.of_nat (length xs) = xLen /\ Z.of_nat (length ys) = yLen
      /\ Z.of_nat (length zs) = zLen /\ n - xLen - yLen = zLen)
  /\ xs ++ ys ++ zs = v
  /\ (forall i, (i < length xs)%nat -> xs !! i = v !! i)
  /\ (forall i, (i < length ys)%nat -> ys !! i = v !! (Z.to_nat xLen + i)%nat)
  /\ (forall i, (i < length zs)%nat -> zs !! i = v !! (Z.to_nat (xLen + yLen) + i)%nat)
  /\ axisDims 9 = (3, 3, 3) /\ axisDims 10 = (4, 3, 3) /\ axisDims 11 = (4, 4, 3).
Proof.
  cbv zeta.
  pose proof (axisDims_sum (Z.of_nat (length v)) ltac:(lia)) as Hsum.
  pose proof (axisBlocks_take_drop v) as Hblocks.
  assert (Hdef : axisDims (Z.of_nat (length v))
                 = (Z.of_nat (length v) / 3 + (if 0 <? Z.of_nat (length v) mod 3 then 1 else 0),
                    Z.of_nat (length v) / 3 + (if 1 <? Z.of_nat (length v) mod 3 then 1 else 0),
                    Z.of_nat (length v) / 3)) by reflexivity.
  destruct (axisDims (Z.of_nat (length v))) as [[x y] z].
  injection Hdef as Hx Hy Hz.
  rewrite Hblocks. destruct Hsum as (Hz0 & Hyx & Hxz & Hsum).
  split; [auto|].
  assert (Lx : length (take (Z.to_nat x) v) = Z.to_nat x) by (rewrite length_take; lia).
  assert (Ly : length (take (Z.to_nat y) (drop (Z.to_nat x) v)) = Z.to_nat y)
    by (rewrite length_take, length_drop; lia).
  assert (Lz : length (drop (Z.to_nat x + Z.to_nat y) v) = Z.to_nat z)
    by (rewrite length_drop; lia).
  split; [rewrite Lx, Ly, Lz; lia|].
  split.
  { rewrite <- drop_drop, take_drop. apply take_drop. }
  split.
  { intros i Hi. apply lookup_take_lt. lia. }
  split.
  { intros i Hi. rewrite lookup_take_lt by lia. apply lookup_drop. }
  split.
  { intros i Hi. rewrite lookup_drop. f_equal. lia. }
  repeat split; reflexivity.
Qed.

(** C2 (as stated, refuted).  The vector [0,0,0,3,3,3,6,6,6] does not
    project to the block means (1,4,7), nor to the position (5,20,35). *)
Lemma C2_counterexample :
  blockMeans vector9 <> (1, 4, 7)%float
  /\ forall out, projectVectorsTo3D [item9] = Ok out ->
                 map position out <> [(5, 20, 35)%float].
Proof.
  split.
  - intros H. apply (f_equal (fun p => PrimFloat.eqb (fst (fst p)) 1)) in H.
    vm_compute in H. discriminate.
  - intros out H. injection H as <-. intros H.
    apply (f_equal (fun l => match l with
                             | [p] => PrimFloat.eqb (fst (fst p)) 5
                             | _ => false
                             end)) in H.
    vm_compute in H. discriminate.
Qed.

(** C2 (amended).  Projecting a single item whose vector is
    [0,0,0,3,3,3,6,6,6] yields the block means (0,3,6) before scaling and
    the position (0,15,30) after the scaling by 5. *)
Theorem C2_vector9_position (i : ItemId) (k : string) (m : list (string * Value))
    (c : list string) :
  let it := {| id := i; key := k; vector := vector9; metadata := m; clusters := c |} in
  blockMeans (vector it) = (0, 3, 6)%float
  /\ scale = 5%float
  /\ exists p, projectVectorsTo3D [it] = Ok [p] /\ position p = (0, 15, 30)%float.
Proof.
  cbv zeta. split; [vm_compute; reflexivity|]. split; [reflexivity|].
  eexists. split; [reflexivity|]. vm_compute. reflexivity.
Qed.

(** C3 (as stated, refuted).  For an item whose vector has length 2 the
    projector does not fail: it returns an item whose position has a NaN
    coordinate. *)
Lemma C3_counterexample :
  (forall e, projectVectorsTo3D [item2] <> Err e)
  /\ exists p, projectVectorsTo3D [item2] = Ok [p]
               /\ PrimFloat.is_nan (snd (position p)) = true.
Proof.
  split; [discriminate|].
  eexists. split; [reflexivity|]. vm_compute. reflexivity.
Qed.

(** C3 (amended).  For every input item whose vector has length n < 3,
    at any position of the input sequence, the projector raises no error:
    it returns the projected item at that position, and the z coordinate
    of its position is NaN (the third block is empty, so its mean is
    0/0). *)
Theorem C3_short_vector_nan (data : list VectorItem) (i : nat) (it : VectorItem) :
  data !! i = Some it ->
  (length (vector it) < 3)%nat ->
  exists out p,
    projectVectorsTo3D data = Ok out
    /\ out !! i = Some p
    /\ p = projectItem it
    /\ PrimFloat.is_nan (snd (position p)) = true.
Proof.
  intros Hi Hlen. exists (map projectItem data), (projectItem it).
  split; [reflexivity|].
  split; [rewrite list_lookup_fmap, Hi; reflexivity|]. split; [reflexivity|].
  unfold projectItem, position.
  destruct (vector it) as [|a [|b [|c l]]]; cbn in Hlen; try lia;
    vm_compute; reflexivity.
Qed.

Lemma C3_short_vector_nan_witness :
  exists out p,
    projectVectorsTo3D [item9; item2] = Ok out
    /\ out !! 1%nat = Some p
    /\ p = projectItem item2
    /\ PrimFloat.is_nan (snd (position p)) = true.
Proof. apply (C3_short_vector_nan [item9; item2] 1 item2); [reflexivity|cbn; lia]. Defined.

(** C8.  For every input sequence the projector returns a sequence of the
    same length and order; each output item carries the id, key, vector,
    metadata and clusters of the input item at its index unchanged, and its
    primaryCluster is clusters[0] when clusters is non-empty and unset when
    it is empty.  (The embedding is a pure function of immutable values:
    the source reads its input with [map], [slice], [reduce] and a spread
    only, none of which writes to it.) *)
Theorem C8_projection_frame (data : list VectorItem) :
  exists out,
    projectVectorsTo3D data = Ok out
    /\ length out = length data
    /\ forall i it, data !! i = Some it ->
         exists p, out !! i = Some p
           /\ p_id p = id it /\ p_key p = key it /\ p_vector p = vector it
           /\ p_metadata p = metadata it /\ p_clusters p = clusters it
           /\ primaryCluster p = clusters it !! 0%nat
           /\ (clusters it = [] -> primaryCluster p = None)
           /\ (forall c rest, clusters it = c :: rest -> primaryCluster p = Some c).
Proof.
  exists (map projectItem data). split; [reflexivity|].
  split; [apply length_map|].
  intros i it Hi. exists (projectItem it).
  split; [rewrite list_lookup_fmap, Hi; reflexivity|].
  cbn. repeat split; try reflexivity.
  - destruct (clusters it); reflexivity.
  - intros ->. reflexivity.
  - intros c rest ->. reflexivity.
Qed.

(** The projector on small inputs.  The block means (1,4,7) that the spec
    gives for [0,0,0,3,3,3,6,6,6] are those of [0,1,2,3,4,5,6,7,8]. *)
Example axisBlocks_10 :
  axisBlocks [1; 2; 3; 4; 5; 6; 7; 8; 9; 10]%float
  = ([1; 2; 3; 4], [5; 6; 7], [8; 9; 10])%float.
Proof. reflexivity. Qed.

Example blockMeans_0_to_8 :
  blockMeans [0; 1; 2; 3; 4; 5; 6; 7; 8]%float = (1, 4, 7)%float
  /\ scalePosition (1, 4, 7)%float = (5, 20, 35)%float.
Proof. split; vm_compute; reflexivity. Qed.

Example projectVectorsTo3D_item2 :
  exists p, projectVectorsTo3D [item2] = Ok [p]
            /\ fst (position p) = (5, 10)%float
            /\ primaryCluster p = None.
Proof. eexists. split; [reflexivity|]. split; [vm_compute|]; reflexivity. Qed.

(** ** Query parameters of the HTTP handler *)

Lemma parseDigits_allDigits (s : string) (acc : Z) :
  allDigits s = false -> Go.parseDigits s acc = None.
Proof.
  revert acc. induction s as [|c rest IH]; intros acc H; cbn in *; [discriminate|].
  destruct (Go.digit c); [apply IH; exact H|reflexivity].
Qed.

Lemma Atoi_not_numeric (s : string) : numeric s = false -> Go.Atoi s = None.
Proof.
  destruct s as [|c rest]; [reflexivity|].
  unfold numeric, Go.Atoi.
  destruct (Ascii.eqb c "-") eqn:Em; cbn [orb].
  - destruct rest as [|c' rest']; [reflexivity|].
    cbn [String.eqb negb andb]. intros H.
    rewrite parseDigits_allDigits by exact H. reflexivity.
  - destruct (Ascii.eqb c "+") eqn:Ep.
    + destruct rest as [|c' rest']; [reflexivity|].
      cbn [String.eqb negb andb]. intros H.
      rewrite parseDigits_allDigits by exact H. reflexivity.
    + intros H. rewrite parseDigits_allDigits by exact H. reflexivity.
Qed.

Lemma parseQuery_component (s : string) (dflt : Z) :
  fallsBack s ->
  (if String.eqb s "" then dflt
   else match Go.Atoi s with
        | Some parsed => if 0 <? parsed then parsed else dflt
        | None => dflt
        end) = dflt.
Proof.
  intros [->|[H|[H|(v & H & Hv)]]].
  - reflexivity.
  - apply Atoi_not_numeric in H. rewrite H. destruct (String.eqb s ""); reflexivity.
  - rewrite H. destruct (String.eqb s ""); reflexivity.
  - rewrite H. rewrite (proj2 (Z.ltb_ge 0 v)) by lia. destruct (String.eqb s ""); reflexivity.
Qed.

(** Both results of the parsing are positive. *)
Lemma parseQuery_positive (limitStr dimensionsStr : string) :
  exists limit dimensions,
    Go.parseQuery limitStr dimensionsStr = (limit, dimensions)
    /\ 0 < limit /\ 0 < dimensions.
Proof.
  eexists _, _. split; [reflexivity|]. split.
  - destruct (String.eqb limitStr ""); [lia|].
    destruct (Go.Atoi limitStr) as [v|]; [|lia].
    destruct (Z.ltb_spec 0 v); lia.
  - destruct (String.eqb dimensionsStr ""); [lia|].
    destruct (Go.Atoi dimensionsStr) as [v|]; [|lia].
    destruct (Z.ltb_spec 0 v); lia.
Qed.

(** C10.  Whatever the two query strings are, the parsing of
    [handleVectorData] returns a pair of integers and no error.  A limit
    that is missing, non-numeric, rejected by [Atoi] or not positive gives
    the default 500, and such a dimensions value gives the default 100; a
    positive numeral is taken as it is, so both results are positive. *)
Theorem C10_query_defaults (limitStr dimensionsStr : string) :
  exists limit dimensions,
    Go.parseQuery limitStr dimensionsStr = (limit, dimensions)
    /\ 0 < limit /\ 0 < dimensions
    /\ (fallsBack limitStr -> limit = 500)
    /\ (fallsBack dimensionsStr -> dimensions = 100)
    /\ (forall v, limitStr <> ""%string -> Go.Atoi limitStr = Some v -> 0 < v -> limit = v)
    /\ (forall v, dimensionsStr <> ""%string -> Go.Atoi dimensionsStr = Some v -> 0 < v ->
                  dimensions = v).
Proof.
  eexists _, _. split; [reflexivity|].
  split; [|split; [|split; [|split; [|split]]]].
  - destruct (String.eqb limitStr ""); [lia|].
    destruct (Go.Atoi limitStr) as [v|]; [|lia].
    destruct (Z.ltb_spec 0 v); lia.
  - destruct (String.eqb dimensionsStr ""); [lia|].
    destruct (Go.Atoi dimensionsStr) as [v|]; [|lia].
    destruct (Z.ltb_spec 0 v); lia.
  - apply parseQuery_component.
  - apply parseQuery_component.
  - intros v Hne Hv Hpos. apply String.eqb_neq in Hne. rewrite Hne, Hv.
    rewrite (proj2 (Z.ltb_lt 0 v)) by lia. reflexivity.
  - intros v Hne Hv Hpos. apply String.eqb_neq in Hne. rewrite Hne, Hv.
    rewrite (proj2 (Z.ltb_lt 0 v)) by lia. reflexivity.
Qed.

Example Atoi_examples :
  Go.Atoi "250" = Some 250 /\ Go.Atoi "-3" = Some (-3) /\ Go.Atoi "+7" = Some 7
  /\ Go.Atoi "12a" = None /\ Go.Atoi "" = None /\ Go.Atoi "-" = None
  /\ Go.Atoi "9223372036854775808" = None
  /\ Go.parseQuery "abc" "0" = (500, 100) /\ Go.parseQuery "20" "-5" = (20, 100)
  /\ Go.parseQuery "" "3" = (500, 3).
Proof. repeat split; reflexivity. Qed.

(** ** Runs that succeed *)

Section Runs.
Context {W : Type}.

Lemma succeeds_ret {A} (a : A) (Q : A -> W -> Prop) w :
  Q a w -> succeeds (ret a) Q w.
Proof. intros H. exact H. Qed.

Lemma succeeds_bind {A B} (m : M W A) (k : A -> M W B) (Q : B -> W -> Prop) w :
  succeeds m (fun a w' => succeeds (k a) Q w') w -> succeeds (bind m k) Q w.
Proof.
  unfold succeeds, bind. destruct (m w) as [[a w']|e]; [auto|contradiction].
Qed.

Lemma succeeds_lift {A} (f : W -> A * W) (Q : A -> W -> Prop) w :
  Q (fst (f w)) (snd (f w)) -> succeeds (lift f) Q w.
Proof. unfold succeeds, lift. destruct (f w). auto. Qed.

Lemma succeeds_mono {A} (m : M W A) (Q Q' : A -> W -> Prop) w :
  succeeds m Q w -> (forall a w', Q a w' -> Q' a w') -> succeeds m Q' w.
Proof.
  unfold succeeds. destruct (m w) as [[a w']|e]; [auto|contradiction].
Qed.

Lemma succeeds_inv {A} (m : M W A) (Q : A -> W -> Prop) w :
  succeeds m Q w -> exists a w', m w = Ok (a, w') /\ Q a w'.
Proof.
  unfold succeeds. destruct (m w) as [[a w']|e]; [eauto|contradiction].
Qed.

Lemma succeeds_index {A} (s : list A) (i : Z) (Q : A -> W -> Prop) w :
  0 <= i < Go.len s ->
  (forall x, s !! Z.to_nat i = Some x -> Q x w) ->
  succeeds (Go.index s i) Q w.
Proof.
  unfold Go.index, Go.len. intros Hi HQ.
  rewrite (proj2 (Z.ltb_ge i 0)) by lia.
  destruct (s !! Z.to_nat i) as [x|] eqn:E.
  - apply succeeds_ret. auto.
  - apply lookup_ge_None in E. lia.
Qed.

Lemma succeeds_store {A} (s : list A) (i : Z) (x : A) (Q : list A -> W -> Prop) w :
  0 <= i < Go.len s ->
  Q (<[Z.to_nat i := x]> s) w ->
  succeeds (Go.store s i x) Q w.
Proof.
  unfold Go.store. intros Hi HQ.
  rewrite (proj2 (Z.ltb_ge i 0)), (proj2 (Z.leb_gt (Go.len s) i)) by lia.
  apply succeeds_ret. exact HQ.
Qed.

Lemma succeeds_prefix {A} (s : list A) (n : Z) (Q : list A -> W -> Prop) w :
  0 <= n <= Go.len s ->
  Q (take (Z.to_nat n) s) w ->
  succeeds (Go.prefix s n) Q w.
Proof.
  unfold Go.prefix. intros Hn HQ.
  rewrite (proj2 (Z.ltb_ge n 0)), (proj2 (Z.ltb_ge (Go.len s) n)) by lia.
  apply succeeds_ret. exact HQ.
Qed.

Lemma succeeds_make (n : Z) (Q : nat -> W -> Prop) w :
  0 <= n -> Q (Z.to_nat n) w -> succeeds (Go.make n) Q w.
Proof.
  unfold Go.make. intros Hn HQ.
  rewrite (proj2 (Z.ltb_ge n 0)) by lia. apply succeeds_ret. exact HQ.
Qed.

Lemma succeeds_makeCap (n : Z) (Q : nat -> W -> Prop) w :
  0 <= n -> Q (Z.to_nat n) w -> succeeds (Go.makeCap n) Q w.
Proof.
  unfold Go.makeCap. intros Hn HQ.
  rewrite (proj2 (Z.ltb_ge n 0)) by lia. apply succeeds_ret. exact HQ.
Qed.
End Runs.

(** ** Facts about generated items *)

Lemma nearCenter_length center vector :
  nearCenter center vector -> length vector = length center.
Proof. intros H. symmetry. exact (Forall2_length _ _ _ H). Qed.

Lemma nearCenter_bounds center vector :
  Forall (between (-1) 1) center -> nearCenter center vector ->
  Forall (between (-1.25) 1.25) vector.
Proof.
  intros Hc H. induction H as [|c v center vector (noise & Hn & ->) H IH].
  - constructor.
  - apply Forall_cons in Hc as [[Hc1 Hc2] Hc]. destruct Hn as [Hn1 Hn2].
    constructor; [|auto]. apply F64Facts.sum_range; assumption.
Qed.

Lemma take_perm_clusters (vocab l r : list string) (n : nat) :
  NoDup vocab -> l ≡ₚ vocab -> r = take n l -> NoDup r /\ r ⊆ vocab.
Proof.
  intros Hnd Hp ->. split.
  - apply (sublist_NoDup _ l); [rewrite Hp; exact Hnd|apply sublist_take].
  - intros x Hx. rewrite <- Hp. exact (subseteq_take n l x Hx).
Qed.

(** ** The Go generator *)

Lemma sampleClusters_NoDup : NoDup Go.sampleClusters.
Proof. apply (bool_decide_unpack _). vm_compute. exact I. Qed.

Lemma findIndex_lookup (l : list string) (target : string) (base : Z) :
  target ∈ l ->
  exists k, l !! k = Some target /\ Go.findIndex l target base = base + Z.of_nat k.
Proof.
  revert base. induction l as [|c rest IH]; intros base Hin.
  - apply elem_of_nil in Hin. contradiction.
  - cbn [Go.findIndex]. destruct (String.eqb_spec c target) as [->|Hne].
    + exists 0%nat. split; [reflexivity|lia].
    + apply elem_of_cons in Hin as [->|Hin]; [contradiction|].
      destruct (IH (base + 1) Hin) as (k & Hk & E).
      exists (S k). split; [exact Hk|lia].
Qed.

Lemma chars_get (i : nat) : (i < 62)%nat -> is_Some (String.get i Go.chars).
Proof.
  intros H. do 62 (destruct i as [|i]; [eexists; reflexivity|]). lia.
Qed.

Section GoFacts.
Context {W : Type}.
Variable rand_Float64 : W -> float * W.
Variable rand_Intn : Z -> W -> Z * W.
Variable time_Now : W -> Z * W.
Variable formatRFC3339 : Z -> string.

(** What the code relies on: [rand.Float64()] is in [0,1), and
    [rand.Intn(n)] is in [0,n) for a positive [n]. *)
Hypothesis Float64_unit : forall w, unit_interval (fst (rand_Float64 w)).
Hypothesis Intn_range : forall n w, 0 < n -> 0 <= fst (rand_Intn n w) < n.

Lemma succeeds_Float64 (Q : float -> W -> Prop) w :
  (forall u w', unit_interval u -> Q u w') ->
  succeeds (Go.Float64 rand_Float64) Q w.
Proof. intros H. apply succeeds_lift, H, Float64_unit. Qed.

Lemma succeeds_Intn (n : Z) (Q : Z -> W -> Prop) w :
  0 < n ->
  (forall r w', 0 <= r < n -> Q r w') ->
  succeeds (Go.Intn rand_Intn n) Q w.
Proof.
  intros Hn H. unfold Go.Intn. rewrite (proj2 (Z.leb_gt n 0)) by lia.
  apply succeeds_lift, H, Intn_range, Hn.
Qed.

Lemma succeeds_shuffleLoop (i : nat) (l : list string) (Q : list string -> W -> Prop) w :
  (i < length l \/ i = 0)%nat ->
  (forall l' w', l' ≡ₚ l -> Q l' w') ->
  succeeds (Go.shuffleLoop rand_Intn i l) Q w.
Proof.
  revert l Q w. induction i as [|i IH]; intros l Q w Hi HQ.
  - apply succeeds_ret, HQ. reflexivity.
  - cbn [Go.shuffleLoop]. destruct Hi as [Hi|Hi]; [|discriminate].
    apply succeeds_bind, succeeds_Intn; [lia|]. intros j w1 Hj.
    apply succeeds_bind, succeeds_index; [unfold Go.len; lia|]. intros sj Hsj.
    apply succeeds_bind, succeeds_index; [unfold Go.len; lia|]. intros si Hsi.
    apply succeeds_bind, succeeds_store; [unfold Go.len; lia|].
    apply succeeds_bind, succeeds_store; [unfold Go.len; rewrite length_insert; lia|].
    apply IH.
    + left. rewrite !length_insert. lia.
    + intros l' w' Hl'. apply HQ. rewrite Hl'.
      apply Permutation_insert_swap; assumption.
Qed.

Lemma succeeds_getRandomItems (items : list string) (lo hi : Z)
    (Q : list string -> W -> Prop) w :
  0 <= lo <= hi -> hi <= Go.len items ->
  (forall r w', lo <= Go.len r <= hi ->
                (exists l', l' ≡ₚ items /\ r = take (length r) l') -> Q r w') ->
  succeeds (Go.getRandomItems rand_Intn items lo hi) Q w.
Proof.
  intros Hlo Hhi HQ. unfold Go.getRandomItems.
  apply succeeds_bind, succeeds_Intn; [lia|]. intros r w1 Hr.
  apply succeeds_bind, succeeds_makeCap; [lia|].
  apply succeeds_bind, succeeds_shuffleLoop; [unfold Go.len in *; lia|].
  intros l' w2 Hl'.
  assert (Hlen : length l' = length items) by (rewrite Hl'; reflexivity).
  apply succeeds_prefix; [unfold Go.len in *; lia|].
  assert (E : length (take (Z.to_nat (r + lo)) l') = Z.to_nat (r + lo)).
  { rewrite length_take. unfold Go.len in *. lia. }
  apply HQ.
  - unfold Go.len. rewrite E. lia.
  - exists l'. split; [exact Hl'|]. rewrite E. reflexivity.
Qed.

Lemma succeeds_getRandomItem_strings (v : list string) (Q : Value -> W -> Prop) w :
  v <> [] ->
  (forall s w', s ∈ v -> Q (VString s) w') ->
  succeeds (Go.getRandomItem rand_Intn (VStrings v)) Q w.
Proof.
  intros Hv HQ. cbn [Go.getRandomItem].
  assert (0 < Go.len v) by (unfold Go.len; destruct v; [contradiction|cbn; lia]).
  apply succeeds_bind, succeeds_Intn; [lia|]. intros i w1 Hi.
  apply succeeds_bind, succeeds_index; [lia|]. intros x Hx.
  apply succeeds_ret, HQ. eapply list_elem_of_lookup_2, Hx.
Qed.

Lemma succeeds_getRandomItem_ints (v : list Z) (Q : Value -> W -> Prop) w :
  v <> [] ->
  (forall z w', z ∈ v -> Q (VInt z) w') ->
  succeeds (Go.getRandomItem rand_Intn (VInts v)) Q w.
Proof.
  intros Hv HQ. cbn [Go.getRandomItem].
  assert (0 < Go.len v) by (unfold Go.len; destruct v; [contradiction|cbn; lia]).
  apply succeeds_bind, succeeds_Intn; [lia|]. intros i w1 Hi.
  apply succeeds_bind, succeeds_index; [lia|]. intros x Hx.
  apply succeeds_ret, HQ. eapply list_elem_of_lookup_2, Hx.
Qed.

Lemma succeeds_keyLoop (n : nat) (Q : string -> W -> Prop) w :
  (forall s w', String.length s = n -> Q s w') ->
  succeeds (Go.keyLoop rand_Intn n) Q w.
Proof.
  revert Q w. induction n as [|n IH]; intros Q w HQ.
  - apply succeeds_ret, HQ. reflexivity.
  - cbn [Go.keyLoop].
    apply succeeds_bind, succeeds_Intn; [reflexivity|]. intros i w1 Hi.
    apply succeeds_bind.
    destruct (chars_get (Z.to_nat i)) as [c Hc]; [change (String.length Go.chars) with 62%nat in Hi; lia|].
    rewrite Hc. apply succeeds_ret.
    apply succeeds_bind, IH. intros rest w2 Hrest.
    apply succeeds_ret, HQ. cbn. rewrite Hrest. reflexivity.
Qed.

Lemma succeeds_getRandomNumber (lo hi : float) (decimals : Z) (Q : float -> W -> Prop) w :
  (forall x w', Q x w') ->
  succeeds (Go.getRandomNumber rand_Float64 lo hi decimals) Q w.
Proof.
  intros HQ. unfold Go.getRandomNumber.
  apply succeeds_bind, succeeds_Float64. intros u w1 _. apply succeeds_ret, HQ.
Qed.

Lemma succeeds_newMetadata (Q : list (string * Value) -> W -> Prop) w :
  (forall m w', Q m w') ->
  succeeds (Go.newMetadata rand_Float64 rand_Intn time_Now formatRFC3339) Q w.
Proof.
  intros HQ. unfold Go.newMetadata.
  repeat first
    [ apply succeeds_ret, HQ
    | apply succeeds_bind, succeeds_getRandomItem_strings; [discriminate|]; intros ? ? _
    | apply succeeds_bind, succeeds_getRandomItem_ints; [discriminate|]; intros ? ? _
    | apply succeeds_bind, succeeds_getRandomNumber; intros ? ?
    | apply succeeds_bind, succeeds_Float64; intros ? ? _
    | apply succeeds_bind, succeeds_Intn; [reflexivity|]; intros ? ? _
    | apply succeeds_bind, succeeds_lift
    | apply succeeds_bind, succeeds_getRandomItems;
        [lia | unfold Go.len; cbn; lia | intros ? ? _ _]
    | apply succeeds_bind, succeeds_ret ].
Qed.
End GoFacts.

Section GoGenerator.
Context {W : Type}.
Variable rand_Float64 : W -> float * W.
Variable rand_Intn : Z -> W -> Z * W.
Variable time_Now : W -> Z * W.
Variable formatRFC3339 : Z -> string.
Hypothesis Float64_unit : forall w, unit_interval (fst (rand_Float64 w)).
Hypothesis Intn_range : forall n w, 0 < n -> 0 <= fst (rand_Intn n w) < n.

Lemma succeeds_newCenter (n : nat) (Q : list float -> W -> Prop) w :
  (forall c w', length c = n -> Forall (between (-1) 1) c -> Q c w') ->
  succeeds (Go.newCenter rand_Float64 n) Q w.
Proof.
  revert Q w. induction n as [|n IH]; intros Q w HQ.
  - apply succeeds_ret, HQ; [reflexivity|constructor].
  - cbn [Go.newCenter].
    apply succeeds_bind, succeeds_Float64; [exact Float64_unit|]. intros u w1 Hu.
    apply succeeds_bind, IH. intros rest w2 Hlen Hrest.
    apply succeeds_ret, HQ; [cbn; lia|].
    constructor; [|exact Hrest]. apply F64Facts.center_range, Hu.
Qed.

Lemma succeeds_newCenters (k : nat) (d : Z) (Q : list (list float) -> W -> Prop) w :
  0 <= d ->
  (forall cs w', length cs = k ->
                 Forall (fun c => length c = Z.to_nat d /\ Forall (between (-1) 1) c) cs ->
                 Q cs w') ->
  succeeds (Go.newCenters rand_Float64 k d) Q w.
Proof.
  intros Hd. revert Q w. induction k as [|k IH]; intros Q w HQ.
  - apply succeeds_ret, HQ; [reflexivity|constructor].
  - cbn [Go.newCenters].
    apply succeeds_bind, succeeds_make; [exact Hd|].
    apply succeeds_bind, succeeds_newCenter. intros c w1 Hlen Hc.
    apply succeeds_bind, IH. intros rest w2 Hk Hrest.
    apply succeeds_ret, HQ; [cbn; lia|].
    constructor; [split; assumption|exact Hrest].
Qed.

Lemma succeeds_fillVector (rest : list float) (j : nat) (vector : list float)
    (Q : list float -> W -> Prop) w :
  (j + length rest <= length vector)%nat ->
  (forall v' w',
      length v' = length vector ->
      (forall k, (k < j)%nat -> v' !! k = vector !! k) ->
      (forall k c, rest !! k = Some c ->
         exists noise, between (-0.25) 0.25 noise
                       /\ v' !! (j + k)%nat = Some (c + noise)%float) ->
      Q v' w') ->
  succeeds (Go.fillVector rand_Float64 rest (Z.of_nat j) vector) Q w.
Proof.
  revert j vector Q w. induction rest as [|c rest IH]; intros j vector Q w Hj HQ.
  - apply succeeds_ret, HQ; [reflexivity|reflexivity|]. intros k c Hk. discriminate.
  - cbn [Go.fillVector]. cbn [length] in Hj.
    apply succeeds_bind, succeeds_Float64; [exact Float64_unit|]. intros u w1 Hu.
    apply succeeds_bind, succeeds_store; [unfold Go.len; lia|].
    rewrite Nat2Z.id. replace (Z.of_nat j + 1) with (Z.of_nat (S j)) by lia.
    apply IH; [rewrite length_insert; lia|].
    intros v' w' Hlen Hlow Hrest. rewrite length_insert in Hlen.
    apply HQ; [exact Hlen| |].
    + intros k Hk. rewrite Hlow by lia. apply list_lookup_insert_ne. lia.
    + intros [|k] c' Hk.
      * injection Hk as <-. exists (u * 0.5 - 0.25)%float.
        split; [apply F64Facts.noise_range, Hu|]. rewrite Nat.add_0_r.
        rewrite Hlow by lia. apply list_lookup_insert_eq. lia.
      * destruct (Hrest k c' Hk) as (noise & Hn & E).
        exists noise. split; [exact Hn|]. rewrite <- E. f_equal. lia.
Qed.

Lemma succeeds_newItem (centers : list (list float)) (d i : Z)
    (Q : Go.VectorItem -> W -> Prop) w :
  0 <= d -> centersOk Go.sampleClusters (Z.to_nat d) centers ->
  (forall it w', goItemOk centers i it -> Q it w') ->
  succeeds (Go.newItem rand_Float64 rand_Intn time_Now formatRFC3339 centers d i) Q w.
Proof.
  intros Hd [Hclen Hcs] HQ. unfold Go.newItem.
  apply succeeds_bind, succeeds_getRandomItems;
    [exact Intn_range|lia|unfold Go.len; cbn; lia|].
  intros clusters w1 Hlen (l' & Hperm & Htake).
  destruct (take_perm_clusters _ _ _ _ sampleClusters_NoDup Hperm Htake) as [Hnd Hsub].
  apply succeeds_bind, succeeds_index; [lia|]. intros c0 Hc0.
  destruct (findIndex_lookup Go.sampleClusters c0 0) as (idx & Hidx & Efind).
  { apply Hsub. eapply list_elem_of_lookup_2, Hc0. }
  rewrite Efind, Z.add_0_l.
  pose proof (lookup_lt_Some _ _ _ Hidx) as Hidxlt.
  apply succeeds_bind, succeeds_index; [unfold Go.len; lia|].
  rewrite Nat2Z.id. intros center Hcenter.
  pose proof (proj1 (Forall_lookup _ _) Hcs idx center Hcenter) as [Hclen' Hcrange].
  apply succeeds_bind, succeeds_make; [exact Hd|].
  apply succeeds_bind. change 0 with (Z.of_nat 0).
  apply succeeds_fillVector; [rewrite length_replicate; cbn; lia|].
  intros vector w2 Hvlen _ Hnear. rewrite length_replicate in Hvlen.
  apply succeeds_bind, succeeds_newMetadata; try assumption. intros metadata w3.
  apply succeeds_bind. unfold Go.generateRandomKey.
  apply succeeds_bind, succeeds_make; [lia|].
  apply succeeds_keyLoop; [exact Intn_range|]. intros key w4 _.
  apply succeeds_ret, HQ. split; [reflexivity|]. cbn [Go.Clusters Go.Vector].
  split.
  - split; [unfold Go.len in Hlen; lia|]. split; assumption.
  - exists c0, idx, center. repeat split; try assumption.
    apply Forall2_same_length_lookup_2; [lia|].
    intros k c v Hc Hv. destruct (Hnear k c Hc) as (noise & Hn & E).
    cbn in E. rewrite E in Hv. injection Hv as <-. eauto.
Qed.

Lemma succeeds_itemLoop (centers : list (list float)) (d : Z) (remaining : nat) (i : Z)
    (data : list Go.VectorItem) (Q : list Go.VectorItem -> W -> Prop) w :
  0 <= d -> centersOk Go.sampleClusters (Z.to_nat d) centers ->
  (forall new w',
      length new = remaining ->
      (forall k it, new !! k = Some it -> goItemOk centers (i + Z.of_nat k) it) ->
      Q (data ++ new) w') ->
  succeeds (Go.itemLoop rand_Float64 rand_Intn time_Now formatRFC3339
              centers d remaining i data) Q w.
Proof.
  intros Hd Hc. revert i data Q w.
  induction remaining as [|r IH]; intros i data Q w HQ.
  - apply succeeds_ret. rewrite <- (app_nil_r data). apply HQ; [reflexivity|].
    intros k it Hk. discriminate.
  - cbn [Go.itemLoop].
    apply succeeds_bind, succeeds_newItem; [exact Hd|exact Hc|]. intros it w1 Hit.
    apply IH. intros new w2 Hlen Hnew.
    rewrite <- app_assoc. apply HQ; [cbn; lia|].
    intros [|k] it' Hk.
    + injection Hk as <-. rewrite Z.add_0_r. exact Hit.
    + replace (i + Z.of_nat (S k)) with (i + 1 + Z.of_nat k) by lia.
      apply Hnew. exact Hk.
Qed.

(** The Go generator on valid arguments: it returns [limit] items, the
    one at position [k] built from the centers of the run. *)
Lemma succeeds_generateVectorData (limit d : Z) w :
  0 <= limit -> 0 <= d ->
  succeeds (Go.generateVectorData rand_Float64 rand_Intn time_Now formatRFC3339 limit d)
    (fun data _ =>
       Go.len data = limit
       /\ exists centers,
            centersOk Go.sampleClusters (Z.to_nat d) centers
            /\ forall k it, data !! k = Some it -> goItemOk centers (Z.of_nat k) it) w.
Proof.
  intros Hl Hd. unfold Go.generateVectorData.
  apply succeeds_bind, succeeds_newCenters; [exact Hd|]. intros centers w1 Hk Hcs.
  assert (Hc : centersOk Go.sampleClusters (Z.to_nat d) centers) by (split; assumption).
  apply succeeds_bind, succeeds_makeCap; [exact Hl|].
  apply succeeds_itemLoop; [exact Hd|exact Hc|].
  intros new w2 Hlen Hnew. cbn [app]. split; [unfold Go.len; lia|].
  exists centers. split; [exact Hc|]. intros j it Hj.
  rewrite <- (Z.add_0_l (Z.of_nat j)). apply Hnew, Hj.
Qed.

(** A negative [dimensions] makes the first [make] of the centers panic;
    a negative [limit] makes the [make] of [data] panic, after the centers
    have been drawn. *)
Lemma generateVectorData_negative_dimensions (limit d : Z) w :
  d < 0 ->
  Go.generateVectorData rand_Float64 rand_Intn time_Now formatRFC3339 limit d w
  = Err (Panic "makeslice: len out of range").
Proof.
  intros Hd. unfold Go.generateVectorData, bind. cbn [length Go.sampleClusters Go.newCenters].
  unfold bind, Go.make. rewrite (proj2 (Z.ltb_lt d 0)) by lia. reflexivity.
Qed.

Lemma generateVectorData_negative_limit (limit d : Z) w :
  limit < 0 -> 0 <= d ->
  Go.generateVectorData rand_Float64 rand_Intn time_Now formatRFC3339 limit d w
  = Err (Panic "makeslice: cap out of range").
Proof.
  intros Hl Hd. unfold Go.generateVectorData, bind.
  assert (H : succeeds (Go.newCenters rand_Float64 (length Go.sampleClusters) d)
                (fun _ _ => True) w) by (apply succeeds_newCenters; auto).
  apply succeeds_inv in H as (cs & w' & -> & _).
  unfold Go.makeCap. rewrite (proj2 (Z.ltb_lt limit 0)) by lia. reflexivity.
Qed.
End GoGenerator.

(** ** The mock data service *)

Lemma SAMPLE_CLUSTERS_NoDup : NoDup Mock.SAMPLE_CLUSTERS.
Proof. apply (bool_decide_unpack _). vm_compute. exact I. Qed.

Lemma indexOfFrom_lookup (l : list string) (x : string) (base : Z) :
  x ∈ l ->
  exists k, l !! k = Some x /\ Mock.indexOfFrom l x base = base + Z.of_nat k.
Proof.
  revert base. induction l as [|c rest IH]; intros base Hin.
  - apply elem_of_nil in Hin. contradiction.
  - cbn [Mock.indexOfFrom]. destruct (String.eqb_spec c x) as [->|Hne].
    + exists 0%nat. split; [reflexivity|lia].
    + apply elem_of_cons in Hin as [->|Hin]; [contradiction|].
      destruct (IH (base + 1) Hin) as (k & Hk & E).
      exists (S k). split; [exact Hk|lia].
Qed.

Lemma slice_prefix {A} (l : list A) (n : Z) :
  0 <= n <= Z.of_nat (length l) -> slice l 0 n = take (Z.to_nat n) l.
Proof.
  intros Hn. unfold slice, sliceIndex. cbn [Z.ltb Z.compare].
  rewrite (proj2 (Z.ltb_ge n 0)) by lia.
  rewrite Z.min_l, Z.min_l by lia. cbn [Z.to_nat drop]. f_equal. lia.
Qed.

Section MockFacts.
Context {W : Type}.
Variable Math_random : W -> float * W.
Variable Date_now : W -> float * W.
Variable toISOString : float -> string.
Variable Array_sort : forall A : Type, (A -> A -> W -> float * W) -> list A -> W -> list A * W.

(** What the code relies on: [Math.random()] is in [0,1), and sorting
    rearranges the array, whatever the comparison function answers. *)
Hypothesis random_unit : forall w, unit_interval (fst (Math_random w)).
Hypothesis sort_permutation :
  forall (A : Type) (cmp : A -> A -> W -> float * W) (l : list A) w,
    fst (Array_sort A cmp l w) ≡ₚ l.

Lemma succeeds_random (Q : float -> W -> Prop) w :
  (forall u w', unit_interval u -> Q u w') ->
  succeeds (Mock.random Math_random) Q w.
Proof. intros H. apply succeeds_lift, H, random_unit. Qed.

(** Every helper of the service is total. *)
Lemma succeeds_getRandomItem {A} (array : list A) (Q : option A -> W -> Prop) w :
  (forall x w', Q x w') -> succeeds (Mock.getRandomItem Math_random array) Q w.
Proof.
  intros HQ. unfold Mock.getRandomItem.
  apply succeeds_bind, succeeds_lift, succeeds_ret, HQ.
Qed.

Lemma succeeds_getRandomItems_any {A} (array : list A) (lo hi : Z)
    (Q : list A -> W -> Prop) w :
  (forall r w', Q r w') ->
  succeeds (Mock.getRandomItems Math_random Array_sort array lo hi) Q w.
Proof.
  intros HQ. unfold Mock.getRandomItems.
  apply succeeds_bind, succeeds_lift, succeeds_bind, succeeds_lift, succeeds_ret, HQ.
Qed.

Lemma succeeds_getRandomNumber_mock (lo hi : float) (decimals : nat)
    (Q : float -> W -> Prop) w :
  (forall x w', Q x w') ->
  succeeds (Mock.getRandomNumber Math_random lo hi decimals) Q w.
Proof.
  intros HQ. unfold Mock.getRandomNumber.
  apply succeeds_bind, succeeds_lift, succeeds_ret, HQ.
Qed.

Lemma succeeds_keyLoop_mock (n : nat) (result : string) (Q : string -> W -> Prop) w :
  (forall s w', Q s w') -> succeeds (Mock.keyLoop Math_random n result) Q w.
Proof.
  intros HQ. revert result w. induction n as [|n IH]; intros result w.
  - apply succeeds_ret, HQ.
  - cbn [Mock.keyLoop]. apply succeeds_bind, succeeds_lift, IH.
Qed.

Lemma succeeds_newMetadata_mock (Q : list (string * Value) -> W -> Prop) w :
  (forall m w', Q m w') ->
  succeeds (Mock.newMetadata Math_random Date_now toISOString Array_sort) Q w.
Proof.
  intros HQ. unfold Mock.newMetadata.
  repeat first
    [ apply succeeds_ret, HQ
    | apply succeeds_bind, succeeds_getRandomItem; intros ? ?
    | apply succeeds_bind, succeeds_getRandomNumber_mock; intros ? ?
    | apply succeeds_bind, succeeds_getRandomItems_any; intros ? ?
    | apply succeeds_bind, succeeds_lift ].
Qed.

(** One to three names: [Math.floor(Math.random() * 3) + 1] is 1, 2 or 3. *)
Lemma succeeds_getRandomItems_clusters (Q : list string -> W -> Prop) w :
  (forall r w', (1 <= length r <= 3)%nat ->
                (exists l', l' ≡ₚ Mock.SAMPLE_CLUSTERS /\ r = take (length r) l') ->
                Q r w') ->
  succeeds (Mock.getRandomItems Math_random Array_sort Mock.SAMPLE_CLUSTERS 1 3) Q w.
Proof.
  intros HQ. unfold Mock.getRandomItems.
  apply succeeds_bind, succeeds_random. intros u w1 Hu.
  apply succeeds_bind, succeeds_lift, succeeds_ret.
  pose proof (sort_permutation string
                (fun _ _ w => let '(u, w') := Math_random w in ((0.5 - u)%float, w'))
                Mock.SAMPLE_CLUSTERS w1) as Hperm.
  set (shuffled := fst (Array_sort _ _ _ _)) in *.
  assert (Hlen : length shuffled = 10%nat) by (rewrite Hperm; reflexivity).
  change (of_int (3 - 1 + 1)) with 3%float.
  pose proof (F64Facts.floor_scale3 u Hu) as Hf.
  rewrite slice_prefix by lia.
  assert (E : length (take (Z.to_nat (floor (u * 3) + 1)) shuffled)
              = Z.to_nat (floor (u * 3) + 1)) by (rewrite length_take; lia).
  apply HQ; [lia|]. exists shuffled. split; [exact Hperm|]. rewrite E. reflexivity.
Qed.

Lemma succeeds_newCenter_mock (n : nat) (Q : list float -> W -> Prop) w :
  (forall c w', length c = n -> Forall (between (-1) 1) c -> Q c w') ->
  succeeds (Mock.newCenter Math_random n) Q w.
Proof.
  revert Q w. induction n as [|n IH]; intros Q w HQ.
  - apply succeeds_ret, HQ; [reflexivity|constructor].
  - cbn [Mock.newCenter].
    apply succeeds_bind, succeeds_random. intros u w1 Hu.
    apply succeeds_bind, IH. intros rest w2 Hlen Hrest.
    apply succeeds_ret, HQ; [cbn; lia|].
    constructor; [|exact Hrest]. apply F64Facts.center_range, Hu.
Qed.

Lemma succeeds_newCenters_mock (k : nat) (d : Z) (Q : list (list float) -> W -> Prop) w :
  (forall cs w', length cs = k ->
                 Forall (fun c => length c = Z.to_nat d /\ Forall (between (-1) 1) c) cs ->
                 Q cs w') ->
  succeeds (Mock.newCenters Math_random k d) Q w.
Proof.
  revert Q w. induction k as [|k IH]; intros Q w HQ.
  - apply succeeds_ret, HQ; [reflexivity|constructor].
  - cbn [Mock.newCenters].
    apply succeeds_bind, succeeds_newCenter_mock. intros c w1 Hlen Hc.
    apply succeeds_bind, IH. intros rest w2 Hk Hrest.
    apply succeeds_ret, HQ; [cbn; lia|].
    constructor; [split; assumption|exact Hrest].
Qed.

Lemma succeeds_jitter (center : list float) (Q : list float -> W -> Prop) w :
  (forall v w', nearCenter center v -> Q v w') ->
  succeeds (Mock.jitter Math_random center) Q w.
Proof.
  revert Q w. induction center as [|c rest IH]; intros Q w HQ.
  - apply succeeds_ret, HQ. constructor.
  - cbn [Mock.jitter].
    apply succeeds_bind, succeeds_random. intros u w1 Hu.
    apply succeeds_bind, IH. intros rest' w2 Hrest.
    apply succeeds_ret, HQ. constructor; [|exact Hrest].
    exists (u * 0.5 - 0.25)%float. split; [apply F64Facts.noise_range, Hu|reflexivity].
Qed.

Lemma succeeds_newItem_mock (centers : list (list float)) (d : nat) (i : Z)
    (Q : VectorItem -> W -> Prop) w :
  centersOk Mock.SAMPLE_CLUSTERS d centers ->
  (forall it w', mockItemOk centers i it -> Q it w') ->
  succeeds (Mock.newItem Math_random Date_now toISOString Array_sort centers i) Q w.
Proof.
  intros [Hclen Hcs] HQ. unfold Mock.newItem.
  apply succeeds_bind, succeeds_getRandomItems_clusters.
  intros clusters w1 Hlen (l' & Hperm & Htake).
  destruct (take_perm_clusters _ _ _ _ SAMPLE_CLUSTERS_NoDup Hperm Htake) as [Hnd Hsub].
  destruct clusters as [|c0 rest]; [cbn in Hlen; lia|].
  change (Mock.at_index (c0 :: rest) 0) with (Some c0). cbn [Mock.indexOf].
  destruct (indexOfFrom_lookup Mock.SAMPLE_CLUSTERS c0 0) as (idx & Hidx & Efind).
  { apply Hsub. left. }
  rewrite Efind, Z.add_0_l.
  pose proof (lookup_lt_Some _ _ _ Hidx) as Hidxlt.
  destruct (lookup_lt_is_Some_2 centers idx ltac:(lia)) as [center Hcenter].
  unfold Mock.at_index. rewrite (proj2 (Z.ltb_ge (Z.of_nat idx) 0)) by lia.
  rewrite Nat2Z.id, Hcenter.
  apply succeeds_bind, succeeds_jitter. intros vec w2 Hnear.
  apply succeeds_bind, succeeds_newMetadata_mock. intros metadata w3.
  apply succeeds_bind. unfold Mock.generateRandomKey.
  apply succeeds_keyLoop_mock. intros key w4.
  apply succeeds_ret, HQ. split; [reflexivity|]. cbn.
  split; [split; [exact Hlen|split; assumption]|].
  exists c0, idx, center. repeat split; assumption.
Qed.

Lemma succeeds_itemLoop_mock (centers : list (list float)) (d : nat) (remaining : nat)
    (i : Z) (data : list VectorItem) (Q : list VectorItem -> W -> Prop) w :
  centersOk Mock.SAMPLE_CLUSTERS d centers ->
  (forall new w',
      length new = remaining ->
      (forall k it, new !! k = Some it -> mockItemOk centers (i + Z.of_nat k) it) ->
      Q (data ++ new) w') ->
  succeeds (Mock.itemLoop Math_random Date_now toISOString Array_sort
              centers remaining i data) Q w.
Proof.
  intros Hc. revert i data Q w.
  induction remaining as [|r IH]; intros i data Q w HQ.
  - apply succeeds_ret. rewrite <- (app_nil_r data). apply HQ; [reflexivity|].
    intros k it Hk. discriminate.
  - cbn [Mock.itemLoop].
    apply succeeds_bind, (succeeds_newItem_mock centers d); [exact Hc|]. intros it w1 Hit.
    apply IH. intros new w2 Hlen Hnew.
    rewrite <- app_assoc. apply HQ; [cbn; lia|].
    intros [|k] it' Hk.
    + injection Hk as <-. rewrite Z.add_0_r. exact Hit.
    + replace (i + Z.of_nat (S k)) with (i + 1 + Z.of_nat k) by lia.
      apply Hnew. exact Hk.
Qed.

(** The mock service on any arguments: it returns [max(limit, 0)] items,
    the one at position [k] built from the centers of the run, which have
    [max(dimensions, 0)] components. *)
Lemma succeeds_fetchVectorData (params : Mock.FetchVectorDataParams) w :
  let limit := default 500 (Mock.limit params) in
  let d := default 100 (Mock.dimensions params) in
  succeeds (Mock.fetchVectorData Math_random Date_now toISOString Array_sort params)
    (fun data _ =>
       length data = Z.to_nat limit
       /\ exists centers,
            centersOk Mock.SAMPLE_CLUSTERS (Z.to_nat d) centers
            /\ forall k it, data !! k = Some it -> mockItemOk centers (Z.of_nat k) it) w.
Proof.
  cbv zeta. unfold Mock.fetchVectorData.
  apply succeeds_bind, succeeds_newCenters_mock. intros centers w1 Hk Hcs.
  assert (Hc : centersOk Mock.SAMPLE_CLUSTERS
                 (Z.to_nat (default 100 (Mock.dimensions params))) centers)
    by (split; assumption).
  eapply succeeds_itemLoop_mock; [exact Hc|].
  intros new w2 Hlen Hnew. cbn [app]. split; [exact Hlen|].
  exists centers. split; [exact Hc|]. intros j it Hj.
  rewrite <- (Z.add_0_l (Z.of_nat j)). apply Hnew, Hj.
Qed.
End MockFacts.

(** ** The run-time limits

    Within the limits, the functions of [Go64] and [Mock32] are those of
    [Go] and [Mock]; beyond, they stop in the panic or the exception of the
    run-time. *)

Lemma bind_ext {W A B} (m m' : M W A) (k k' : A -> M W B) :
  (forall w, m w = m' w) -> (forall a w, k a w = k' a w) ->
  forall w, bind m k w = bind m' k' w.
Proof.
  intros Hm Hk w. unfold bind. rewrite Hm.
  destruct (m' w) as [[a w']|e]; [apply Hk|reflexivity].
Qed.

Lemma int_id (z : Z) : - 2 ^ 63 <= z < 2 ^ 63 -> Go64.int z = z.
Proof. intros H. unfold Go64.int. rewrite Z.mod_small; lia. Qed.

Lemma int_range (z : Z) : - 2 ^ 63 <= Go64.int z < 2 ^ 63.
Proof.
  unfold Go64.int. pose proof (Z.mod_pos_bound (z + 2 ^ 63) (2 ^ 64) ltac:(lia)). lia.
Qed.

(** The argument of [rand.Intn] in [getRandomItems], for bounds in the
    range of an [int]: it is not positive when the bounds are inverted by
    at most 2^63 + 1, and when they are 2^63 - 1 or more apart. *)
Lemma int_span (minItems maxItems : Z) :
  - 2 ^ 63 <= minItems < 2 ^ 63 -> - 2 ^ 63 <= maxItems < 2 ^ 63 ->
  (Go64.int (maxItems - minItems + 1) <= 0
   <-> (maxItems < minItems <= maxItems + 2 ^ 63 + 1) \/ 2 ^ 63 - 1 <= maxItems - minItems).
Proof.
  intros Hmin Hmax. unfold Go64.int.
  destruct (Z_lt_le_dec (maxItems - minItems + 1) (- 2 ^ 63)) as [H1|H1].
  - replace (maxItems - minItems + 1 + 2 ^ 63)
      with (maxItems - minItems + 1 + 2 ^ 63 + 2 ^ 64 + (-1) * 2 ^ 64) by lia.
    rewrite Z.mod_add by lia. rewrite Z.mod_small by lia. lia.
  - destruct (Z_lt_le_dec (maxItems - minItems + 1) (2 ^ 63)) as [H2|H2].
    + rewrite Z.mod_small by lia. lia.
    + replace (maxItems - minItems + 1 + 2 ^ 63)
        with (maxItems - minItems + 1 + 2 ^ 63 - 2 ^ 64 + 1 * 2 ^ 64) by lia.
      rewrite Z.mod_add by lia. rewrite Z.mod_small by lia. lia.
Qed.

Section Go64Limits.
Context {W : Type}.
Variable rand_Float64 : W -> float * W.
Variable rand_Intn : Z -> W -> Z * W.
Variable time_Now : W -> Z * W.
Variable formatRFC3339 : Z -> string.
Hypothesis Float64_unit : forall w, unit_interval (fst (rand_Float64 w)).
Hypothesis Intn_range : forall n w, 0 < n -> 0 <= fst (rand_Intn n w) < n.

Lemma make_within (size n : Z) (w : W) :
  0 <= n -> size * n <= Go64.maxAlloc ->
  Go64.make size n w = Ok (Z.to_nat n, w).
Proof.
  intros Hn Hs. unfold Go64.make, Go64.makeslice, bind.
  rewrite (proj2 (Z.ltb_ge n 0)), (proj2 (Z.ltb_ge (Go64.maxAlloc) (size * n))) by lia.
  rewrite Z.ltb_irrefl. reflexivity.
Qed.

Lemma make_beyond (size n : Z) (w : W) :
  n < 0 \/ Go64.maxAlloc < size * n ->
  Go64.make size n w = Err (Panic "makeslice: len out of range").
Proof.
  intros H. unfold Go64.make, Go64.makeslice, bind.
  destruct (Z.ltb_spec n 0) as [Hn|Hn]; cbn [orb]; [reflexivity|].
  rewrite (proj2 (Z.ltb_lt Go64.maxAlloc (size * n))) by lia. reflexivity.
Qed.

Lemma makeCap_within (size n : Z) (w : W) :
  0 <= n -> size * n <= Go64.maxAlloc ->
  Go64.makeCap size n w = Ok (Z.to_nat n, w).
Proof.
  intros Hn Hs. unfold Go64.makeCap, Go64.makeslice, bind.
  rewrite (proj2 (Z.ltb_ge n 0)), (proj2 (Z.ltb_ge (Go64.maxAlloc) (size * n))) by lia.
  reflexivity.
Qed.

Lemma makeCap_beyond (size n : Z) (w : W) :
  n < 0 \/ Go64.maxAlloc < size * n ->
  Go64.makeCap size n w = Err (Panic "makeslice: cap out of range").
Proof.
  intros H. unfold Go64.makeCap, Go64.makeslice, bind.
  rewrite Z.mul_0_r. change (Go64.maxAlloc <? 0) with false. cbn [Z.ltb Z.compare orb].
  destruct (Z.ltb_spec n 0) as [Hn|Hn]; cbn [orb]; [reflexivity|].
  rewrite (proj2 (Z.ltb_lt Go64.maxAlloc (size * n))) by lia. reflexivity.
Qed.

Lemma make_agrees (size n : Z) (w : W) :
  0 <= n -> size * n <= Go64.maxAlloc -> Go64.make size n w = Go.make n w.
Proof.
  intros Hn Hs. rewrite make_within by assumption.
  unfold Go.make. rewrite (proj2 (Z.ltb_ge n 0)) by lia. reflexivity.
Qed.

Lemma makeCap_agrees (size n : Z) (w : W) :
  0 <= n -> size * n <= Go64.maxAlloc -> Go64.makeCap size n w = Go.makeCap n w.
Proof.
  intros Hn Hs. rewrite makeCap_within by assumption.
  unfold Go.makeCap. rewrite (proj2 (Z.ltb_ge n 0)) by lia. reflexivity.
Qed.

(** [getRandomItems] within the limits: bounds that are not negative, and
    slices that fit into memory. *)
Lemma getRandomItems_agrees (items : list string) (minItems maxItems : Z) (w : W) :
  0 <= minItems <= maxItems ->
  Go64.sizeofString * maxItems <= Go64.maxAlloc ->
  Go64.sizeofString * Go.len items <= Go64.maxAlloc ->
  Go64.getRandomItems rand_Intn items minItems maxItems w
  = Go.getRandomItems rand_Intn items minItems maxItems w.
Proof.
  intros Hb Hmax Hlen. unfold Go64.getRandomItems, Go.getRandomItems.
  unfold Go64.sizeofString, Go64.maxAlloc in *.
  rewrite int_id by lia.
  unfold bind, Go.Intn.
  rewrite (proj2 (Z.leb_gt (maxItems - minItems + 1) 0)) by lia. unfold lift.
  pose proof (Intn_range (maxItems - minItems + 1) w ltac:(lia)) as Hr.
  destruct (rand_Intn (maxItems - minItems + 1) w) as [r w1]. cbn [fst] in Hr.
  rewrite int_id by lia.
  rewrite makeCap_within by (unfold Go64.maxAlloc; lia).
  unfold Go.makeCap. rewrite (proj2 (Z.ltb_ge (r + minItems) 0)) by lia. unfold ret at 1.
  rewrite make_within by (unfold Go.len in *; unfold Go64.maxAlloc; lia).
  reflexivity.
Qed.

Lemma generateRandomKey_agrees (length : Z) (w : W) :
  0 <= length <= Go64.maxAlloc ->
  Go64.generateRandomKey rand_Intn length w = Go.generateRandomKey rand_Intn length w.
Proof.
  intros H. unfold Go64.generateRandomKey, Go.generateRandomKey.
  apply bind_ext; [|reflexivity].
  intros w'. apply make_agrees; unfold Go64.sizeofByte; lia.
Qed.

Lemma newMetadata_agrees (w : W) :
  Go64.newMetadata rand_Float64 rand_Intn time_Now formatRFC3339 w
  = Go.newMetadata rand_Float64 rand_Intn time_Now formatRFC3339 w.
Proof.
  revert w. unfold Go64.newMetadata, Go.newMetadata.
  do 23 (apply bind_ext; [reflexivity|intros ? ?]; revert w).
  apply bind_ext; [|reflexivity].
  intros w'. apply getRandomItems_agrees; [lia|vm_compute; discriminate..].
Qed.

Lemma newItem_agrees (centers : list (list float)) (d i : Z) (w : W) :
  0 <= d -> Go64.sizeofFloat64 * d <= Go64.maxAlloc ->
  Go64.newItem rand_Float64 rand_Intn time_Now formatRFC3339 centers d i w
  = Go.newItem rand_Float64 rand_Intn time_Now formatRFC3339 centers d i w.
Proof.
  intros Hd Hs. revert w. unfold Go64.newItem, Go.newItem.
  apply bind_ext.
  { intros w. apply getRandomItems_agrees; [lia|vm_compute; discriminate..]. }
  intros clusters w.  revert w.
  apply bind_ext; [reflexivity|intros c0 w]; revert w.
  apply bind_ext; [reflexivity|intros center w]; revert w.
  apply bind_ext; [intros w; apply make_agrees; assumption|intros n w]; revert w.
  apply bind_ext; [reflexivity|intros vector w]; revert w.
  apply bind_ext; [apply newMetadata_agrees|intros metadata w]; revert w.
  apply bind_ext; [|reflexivity].
  intros w. apply generateRandomKey_agrees. unfold Go64.maxAlloc. lia.
Qed.

Lemma itemLoop_agrees (centers : list (list float)) (d : Z) (remaining : nat) (i : Z)
    (data : list Go.VectorItem) (w : W) :
  0 <= d -> Go64.sizeofFloat64 * d <= Go64.maxAlloc ->
  Go64.itemLoop rand_Float64 rand_Intn time_Now formatRFC3339 centers d remaining i data w
  = Go.itemLoop rand_Float64 rand_Intn time_Now formatRFC3339 centers d remaining i data w.
Proof.
  intros Hd Hs. revert i data w. induction remaining as [|r IH]; intros i data w; [reflexivity|].
  cbn [Go64.itemLoop Go.itemLoop].
  apply bind_ext; [intros w'; apply newItem_agrees; assumption|].
  intros it w'. apply IH.
Qed.

Lemma newCenters_agrees (k : nat) (d : Z) (w : W) :
  0 <= d -> Go64.sizeofFloat64 * d <= Go64.maxAlloc ->
  Go64.newCenters rand_Float64 k d w = Go.newCenters rand_Float64 k d w.
Proof.
  intros Hd Hs. revert w. induction k as [|k IH]; intros w; [reflexivity|].
  cbn [Go64.newCenters Go.newCenters].
  apply bind_ext; [intros w'; apply make_agrees; assumption|intros n w1]; revert w1.
  apply bind_ext; [reflexivity|intros center w1]; revert w1.
  apply bind_ext; [exact IH|reflexivity].
Qed.

(** The generator: within the limits it is the generator of [Go]. *)
Lemma generateVectorData_agrees (limit d : Z) (w : W) :
  0 <= d -> Go64.sizeofFloat64 * d <= Go64.maxAlloc ->
  0 <= limit -> Go64.sizeofVectorItem * limit <= Go64.maxAlloc ->
  Go64.generateVectorData rand_Float64 rand_Intn time_Now formatRFC3339 limit d w
  = Go.generateVectorData rand_Float64 rand_Intn time_Now formatRFC3339 limit d w.
Proof.
  intros Hd Hs Hl Hls. revert w. unfold Go64.generateVectorData, Go.generateVectorData.
  apply bind_ext; [intros w; apply newCenters_agrees; assumption|intros centers w]; revert w.
  apply bind_ext; [intros w; apply makeCap_agrees; assumption|intros cap w].
  apply itemLoop_agrees; assumption.
Qed.

(** Beyond them, the first [make] of a center panics when [dimensions] is
    negative or too large; otherwise the [make] of [data] panics when
    [limit] is, after the centers have been drawn. *)
Lemma generateVectorData_dimensions_beyond (limit d : Z) (w : W) :
  d < 0 \/ Go64.maxAlloc < Go64.sizeofFloat64 * d ->
  Go64.generateVectorData rand_Float64 rand_Intn time_Now formatRFC3339 limit d w
  = Err (Panic "makeslice: len out of range").
Proof.
  intros H. unfold Go64.generateVectorData.
  cbn [length Go.sampleClusters Go64.newCenters]. unfold bind at 1 2.
  rewrite make_beyond by exact H. reflexivity.
Qed.

Lemma generateVectorData_limit_beyond (limit d : Z) (w : W) :
  0 <= d -> Go64.sizeofFloat64 * d <= Go64.maxAlloc ->
  limit < 0 \/ Go64.maxAlloc < Go64.sizeofVectorItem * limit ->
  Go64.generateVectorData rand_Float64 rand_Intn time_Now formatRFC3339 limit d w
  = Err (Panic "makeslice: cap out of range").
Proof.
  intros Hd Hs H. unfold Go64.generateVectorData. unfold bind at 1.
  rewrite newCenters_agrees by assumption.
  assert (Hc : succeeds (Go.newCenters rand_Float64 (length Go.sampleClusters) d)
                 (fun _ _ => True) w) by (apply succeeds_newCenters; auto).
  apply succeeds_inv in Hc as (cs & w' & -> & _).
  unfold bind. rewrite makeCap_beyond by exact H. reflexivity.
Qed.

(** So a result of the generator under the limits is a result of the
    generator of [Go], for arguments within the limits. *)
Lemma generateVectorData_returns (limit d : Z) (w : W) data w' :
  Go64.generateVectorData rand_Float64 rand_Intn time_Now formatRFC3339 limit d w
  = Ok (data, w') ->
  (0 <= d /\ Go64.sizeofFloat64 * d <= Go64.maxAlloc)
  /\ (0 <= limit /\ Go64.sizeofVectorItem * limit <= Go64.maxAlloc)
  /\ Go.generateVectorData rand_Float64 rand_Intn time_Now formatRFC3339 limit d w
     = Ok (data, w').
Proof.
  intros E.
  assert (Hd : 0 <= d /\ Go64.sizeofFloat64 * d <= Go64.maxAlloc).
  { destruct (Z_lt_le_dec d 0) as [H|H];
      [rewrite generateVectorData_dimensions_beyond in E by (left; exact H); discriminate|].
    destruct (Z_lt_le_dec Go64.maxAlloc (Go64.sizeofFloat64 * d)) as [H'|H'];
      [rewrite generateVectorData_dimensions_beyond in E by (right; exact H'); discriminate|].
    split; assumption. }
  destruct Hd as [Hd Hs].
  assert (Hl : 0 <= limit /\ Go64.sizeofVectorItem * limit <= Go64.maxAlloc).
  { destruct (Z_lt_le_dec limit 0) as [H|H];
      [rewrite generateVectorData_limit_beyond in E by (auto; left; exact H); discriminate|].
    destruct (Z_lt_le_dec Go64.maxAlloc (Go64.sizeofVectorItem * limit)) as [H'|H'];
      [rewrite generateVectorData_limit_beyond in E by (auto; right; exact H'); discriminate|].
    split; assumption. }
  destruct Hl as [Hl Hls].
  rewrite generateVectorData_agrees in E by assumption. auto.
Qed.
End Go64Limits.

Section Mock32Limits.
Context {W : Type}.
Variable Math_random : W -> float * W.
Variable Date_now : W -> float * W.
Variable toISOString : float -> string.
Variable Array_sort : forall A : Type, (A -> A -> W -> float * W) -> list A -> W -> list A * W.
Hypothesis random_unit : forall w, unit_interval (fst (Math_random w)).
Hypothesis sort_permutation :
  forall (A : Type) (cmp : A -> A -> W -> float * W) (l : list A) w,
    fst (Array_sort A cmp l w) ≡ₚ l.

Lemma arrayCreate_within (len : Z) (w : W) :
  len <= Mock32.maxLength -> Mock32.arrayCreate len w = Ok (Z.to_nat len, w).
Proof.
  intros H. unfold Mock32.arrayCreate.
  rewrite (proj2 (Z.ltb_ge Mock32.maxLength len)) by lia. reflexivity.
Qed.

Lemma arrayCreate_beyond (len : Z) (w : W) :
  Mock32.maxLength < len -> Mock32.arrayCreate len w = Err (RangeError "Invalid array length").
Proof.
  intros H. unfold Mock32.arrayCreate.
  rewrite (proj2 (Z.ltb_lt Mock32.maxLength len)) by lia. reflexivity.
Qed.

Lemma newCenters_agrees_mock (k : nat) (d : Z) (w : W) :
  d <= Mock32.maxLength ->
  Mock32.newCenters Math_random k d w = Mock.newCenters Math_random k d w.
Proof.
  intros Hd. revert w. induction k as [|k IH]; intros w; [reflexivity|].
  cbn [Mock32.newCenters Mock.newCenters]. unfold bind at 1.
  rewrite arrayCreate_within by exact Hd. revert w.
  apply bind_ext; [reflexivity|intros center w]. revert w.
  apply bind_ext; [exact IH|reflexivity].
Qed.

Lemma itemLoop_agrees_mock (centers : list (list float)) (remaining : nat) (i : Z)
    (data : list VectorItem) (w : W) :
  Z.of_nat (length data) + Z.of_nat remaining <= Mock32.maxLength ->
  Mock32.itemLoop Math_random Date_now toISOString Array_sort centers remaining i data w
  = Mock.itemLoop Math_random Date_now toISOString Array_sort centers remaining i data w.
Proof.
  revert i data w. induction remaining as [|r IH]; intros i data w H; [reflexivity|].
  cbn [Mock32.itemLoop Mock.itemLoop]. revert w.
  apply bind_ext; [reflexivity|intros it w].
  unfold bind, Mock32.push.
  rewrite (proj2 (Z.leb_gt Mock32.maxLength (Z.of_nat (length data)))) by lia.
  unfold ret. apply IH. rewrite length_app. cbn [length]. lia.
Qed.

(** A loop that would take the array to 2^32 elements or more stops in
    the [RangeError] of the [push] that would add element number 2^32. *)
Lemma itemLoop_beyond_mock (centers : list (list float)) (d : nat) (remaining : nat) (i : Z)
    (data : list VectorItem) (w : W) :
  centersOk Mock.SAMPLE_CLUSTERS d centers ->
  Z.of_nat (length data) <= Mock32.maxLength < Z.of_nat (length data) + Z.of_nat remaining ->
  Mock32.itemLoop Math_random Date_now toISOString Array_sort centers remaining i data w
  = Err (RangeError "Invalid array length").
Proof.
  intros Hc. revert i data w. induction remaining as [|r IH]; intros i data w H; [lia|].
  cbn [Mock32.itemLoop].
  assert (Hit : succeeds (Mock.newItem Math_random Date_now toISOString Array_sort centers i)
                  (fun _ _ => True) w).
  { apply (succeeds_newItem_mock _ _ _ _ random_unit sort_permutation centers d); auto. }
  apply succeeds_inv in Hit as (it & w1 & E & _).
  unfold bind at 1. rewrite E. unfold bind, Mock32.push.
  destruct (Z.leb_spec Mock32.maxLength (Z.of_nat (length data))) as [Hfull|Hroom];
    [reflexivity|].
  unfold ret. apply IH. rewrite length_app. cbn [length]. lia.
Qed.

(** The service: within the limits it is the service of [Mock]. *)
Lemma fetchVectorData_agrees (params : Mock.FetchVectorDataParams) (w : W) :
  default 100 (Mock.dimensions params) <= Mock32.maxLength ->
  default 500 (Mock.limit params) <= Mock32.maxLength ->
  Mock32.fetchVectorData Math_random Date_now toISOString Array_sort params w
  = Mock.fetchVectorData Math_random Date_now toISOString Array_sort params w.
Proof.
  intros Hd Hl. revert w. unfold Mock32.fetchVectorData, Mock.fetchVectorData.
  apply bind_ext; [intros w; apply newCenters_agrees_mock, Hd|].
  intros centers w. apply itemLoop_agrees_mock. cbn [length].
  pose proof (Z2Nat.id (default 500 (Mock.limit params))).
  destruct (Z_lt_le_dec (default 500 (Mock.limit params)) 0);
    [rewrite Z2Nat.nonpos by lia; unfold Mock32.maxLength|]; lia.
Qed.

Lemma fetchVectorData_dimensions_beyond (params : Mock.FetchVectorDataParams) (w : W) :
  Mock32.maxLength < default 100 (Mock.dimensions params) ->
  Mock32.fetchVectorData Math_random Date_now toISOString Array_sort params w
  = Err (RangeError "Invalid array length").
Proof.
  intros H. unfold Mock32.fetchVectorData.
  cbn [length Mock.SAMPLE_CLUSTERS Mock32.newCenters]. unfold bind at 1 2.
  rewrite arrayCreate_beyond by exact H. reflexivity.
Qed.

Lemma fetchVectorData_limit_beyond (params : Mock.FetchVectorDataParams) (w : W) :
  default 100 (Mock.dimensions params) <= Mock32.maxLength ->
  Mock32.maxLength < default 500 (Mock.limit params) ->
  Mock32.fetchVectorData Math_random Date_now toISOString Array_sort params w
  = Err (RangeError "Invalid array length").
Proof.
  intros Hd Hl. unfold Mock32.fetchVectorData. unfold bind.
  rewrite newCenters_agrees_mock by exact Hd.
  assert (Hc : succeeds (Mock.newCenters Math_random (length Mock.SAMPLE_CLUSTERS)
                           (default 100 (Mock.dimensions params)))
                 (fun cs _ => centersOk Mock.SAMPLE_CLUSTERS
                                (Z.to_nat (default 100 (Mock.dimensions params))) cs) w).
  { apply succeeds_newCenters_mock; [exact random_unit|]. intros cs w' Hk Hcs. split; assumption. }
  apply succeeds_inv in Hc as (cs & w' & -> & Hcs).
  apply (itemLoop_beyond_mock cs _ _ _ _ _ Hcs). cbn [length]. unfold Mock32.maxLength in *. lia.
Qed.

Lemma fetchVectorData_returns (params : Mock.FetchVectorDataParams) (w : W) data w' :
  Mock32.fetchVectorData Math_random Date_now toISOString Array_sort params w = Ok (data, w') ->
  default 100 (Mock.dimensions params) <= Mock32.maxLength
  /\ default 500 (Mock.limit params) <= Mock32.maxLength
  /\ Mock.fetchVectorData Math_random Date_now toISOString Array_sort params w = Ok (data, w').
Proof.
  intros E.
  destruct (Z_lt_le_dec Mock32.maxLength (default 100 (Mock.dimensions params))) as [H|Hd];
    [rewrite fetchVectorData_dimensions_beyond in E by exact H; discriminate|].
  destruct (Z_lt_le_dec Mock32.maxLength (default 500 (Mock.limit params))) as [H|Hl];
    [rewrite fetchVectorData_limit_beyond in E by assumption; discriminate|].
  rewrite fetchVectorData_agrees in E by assumption. auto.
Qed.
End Mock32Limits.

(** ** The vector of an item, draw by draw

    Where the items of a result come from: each is the value of one run of
    the loop body, and its vector is the center of its primary cluster
    with the noise drawn right after its clusters. *)

Lemma bind_inv {W A B} (m : M W A) (k : A -> M W B) (w : W) b w' :
  bind m k w = Ok (b, w') -> exists a w1, m w = Ok (a, w1) /\ k a w1 = Ok (b, w').
Proof. unfold bind. destruct (m w) as [[a w1]|e]; [eauto|discriminate]. Qed.

Lemma ret_inv {W A} (a : A) (w : W) b w' : ret a w = Ok (b, w') -> b = a /\ w' = w.
Proof. unfold ret. intros E. injection E as <- <-. auto. Qed.

Lemma index_inv {W A} (s : list A) (i : Z) (w : W) x w' :
  Go.index s i w = Ok (x, w') -> 0 <= i /\ s !! Z.to_nat i = Some x /\ w' = w.
Proof.
  unfold Go.index. destruct (Z.ltb_spec i 0); [discriminate|].
  destruct (s !! Z.to_nat i); [|discriminate]. intros E. injection E as <- <-. auto.
Qed.

Lemma make_inv {W} (n : Z) (w : W) k w' :
  Go.make n w = Ok (k, w') -> 0 <= n /\ k = Z.to_nat n /\ w' = w.
Proof.
  unfold Go.make. destruct (Z.ltb_spec n 0); [discriminate|].
  intros E. injection E as <- <-. auto.
Qed.

Lemma withNoise_length {W} (draw : W -> float * W) (center : list float) (w : W) :
  length (fst (withNoise draw center w)) = length center.
Proof.
  revert w. induction center as [|c rest IH]; intros w; [reflexivity|].
  cbn [withNoise]. destruct (draw w) as [u w1]. specialize (IH w1).
  destruct (withNoise draw rest w1) as [v w2]. cbn [fst length] in *. lia.
Qed.

Lemma withNoise_near {W} (draw : W -> float * W) (center : list float) (w : W) :
  (forall w, unit_interval (fst (draw w))) ->
  nearCenter center (fst (withNoise draw center w)).
Proof.
  intros Hu. revert w. induction center as [|c rest IH]; intros w; [constructor|].
  cbn [withNoise]. pose proof (Hu w) as Hw. destruct (draw w) as [u w1]. specialize (IH w1).
  destruct (withNoise draw rest w1) as [v w2]. cbn [fst] in *.
  constructor; [|exact IH].
  exists (u * 0.5 - 0.25)%float. split; [apply F64Facts.noise_range, Hw|reflexivity].
Qed.

(** The loop of lines 158-160 writes [withNoise] of the center into the
    vector, from index [j] on. *)
Lemma fillVector_withNoise {W} (rand_Float64 : W -> float * W)
    (rest : list float) (j : nat) (vector : list float) (w : W) :
  (j + length rest <= length vector)%nat ->
  Go.fillVector rand_Float64 rest (Z.of_nat j) vector w
  = Ok (take j vector ++ fst (withNoise rand_Float64 rest w)
          ++ drop (j + length rest) vector,
        snd (withNoise rand_Float64 rest w)).
Proof.
  revert j vector w. induction rest as [|c rest IH]; intros j vector w Hj.
  - cbn [Go.fillVector withNoise fst snd length app]. rewrite Nat.add_0_r, take_drop. reflexivity.
  - cbn [Go.fillVector withNoise]. cbn [length] in Hj.
    unfold bind at 1. unfold Go.Float64, lift. destruct (rand_Float64 w) as [u w1].
    unfold bind at 1. unfold Go.store, Go.len.
    rewrite (proj2 (Z.ltb_ge (Z.of_nat j) 0)), (proj2 (Z.leb_gt (Z.of_nat (length vector)) (Z.of_nat j)))
      by lia.
    cbn [orb]. unfold ret. rewrite Nat2Z.id.
    replace (Z.of_nat j + 1) with (Z.of_nat (S j)) by lia.
    rewrite IH by (rewrite length_insert; lia).
    destruct (withNoise rand_Float64 rest w1) as [v w2]. cbn [fst snd].
    f_equal. f_equal.
    rewrite (take_S_r _ _ (c + (u * 0.5 - 0.25))%float)
      by (apply list_lookup_insert_eq; lia).
    rewrite take_insert_ge by lia.
    rewrite drop_insert_lt by lia.
    rewrite <- app_assoc. cbn [app].
    replace (S j + length rest)%nat with (j + S (length rest))%nat by lia. reflexivity.
Qed.

Section GoDrawn.
Context {W : Type}.
Variable rand_Float64 : W -> float * W.
Variable rand_Intn : Z -> W -> Z * W.
Variable time_Now : W -> Z * W.
Variable formatRFC3339 : Z -> string.
Hypothesis Float64_unit : forall w, unit_interval (fst (rand_Float64 w)).
Hypothesis Intn_range : forall n w, 0 < n -> 0 <= fst (rand_Intn n w) < n.

(** One run of the loop body. *)
Lemma newItem_drawn (centers : list (list float)) (d i : Z) (wa wb : W) (it : Go.VectorItem) :
  centersOk Go.sampleClusters (Z.to_nat d) centers ->
  Go.newItem rand_Float64 rand_Intn time_Now formatRFC3339 centers d i wa = Ok (it, wb) ->
  exists c0 idx center w1,
    Go.getRandomItems rand_Intn Go.sampleClusters 1 3 wa = Ok (Go.Clusters it, w1)
    /\ Go.Clusters it !! 0%nat = Some c0
    /\ Go.sampleClusters !! idx = Some c0
    /\ centers !! idx = Some center
    /\ Go.Vector it = fst (withNoise rand_Float64 center w1).
Proof.
  intros [Hclen Hcs] E. unfold Go.newItem in E.
  apply bind_inv in E as (clusters & w1 & Ecl & E).
  assert (Hsub : clusters ⊆ Go.sampleClusters).
  { assert (H : succeeds (Go.getRandomItems rand_Intn Go.sampleClusters 1 3)
                  (fun cl _ => cl ⊆ Go.sampleClusters) wa).
    { apply succeeds_getRandomItems; [exact Intn_range|lia|unfold Go.len; cbn; lia|].
      intros r w' _ (l' & Hperm & Htake).
      exact (proj2 (take_perm_clusters _ _ _ _ sampleClusters_NoDup Hperm Htake)). }
    unfold succeeds in H. rewrite Ecl in H. exact H. }
  apply bind_inv in E as (c0 & w2 & Ec0 & E). apply index_inv in Ec0 as (_ & Hc0 & ->).
  destruct (findIndex_lookup Go.sampleClusters c0 0) as (idx & Hidx & Efind).
  { apply Hsub. eapply list_elem_of_lookup_2, Hc0. }
  rewrite Efind, Z.add_0_l in E.
  apply bind_inv in E as (center & w2 & Ecenter & E).
  apply index_inv in Ecenter as (_ & Hcenter & ->). rewrite Nat2Z.id in Hcenter.
  pose proof (proj1 (Forall_lookup _ _) Hcs idx center Hcenter) as [Hlen _].
  apply bind_inv in E as (n & w2 & En & E). apply make_inv in En as (_ & -> & ->).
  apply bind_inv in E as (vector & w2 & Ev & E).
  change 0 with (Z.of_nat 0) in Ev.
  rewrite fillVector_withNoise in Ev by (rewrite length_replicate; cbn; lia).
  injection Ev as <- <-.
  apply bind_inv in E as (metadata & w3 & _ & E).
  apply bind_inv in E as (key & w4 & _ & E).
  apply ret_inv in E as [-> ->]. cbn [Go.Clusters Go.Vector].
  exists c0, idx, center, w1. repeat split; try assumption.
  cbn [take app Nat.add]. rewrite drop_ge by (rewrite length_replicate; lia).
  rewrite app_nil_r. reflexivity.
Qed.

Lemma itemLoop_members (centers : list (list float)) (d : Z) (remaining : nat) (i : Z)
    (data out : list Go.VectorItem) (w w' : W) :
  Go.itemLoop rand_Float64 rand_Intn time_Now formatRFC3339 centers d remaining i data w
  = Ok (out, w') ->
  exists new,
    out = data ++ new
    /\ forall it, it ∈ new ->
         exists k wa wb,
           Go.newItem rand_Float64 rand_Intn time_Now formatRFC3339 centers d k wa = Ok (it, wb).
Proof.
  revert i data w. induction remaining as [|r IH]; intros i data w E.
  - apply ret_inv in E as [-> _]. exists []. rewrite app_nil_r. split; [reflexivity|].
    intros it Hit. apply elem_of_nil in Hit. contradiction.
  - cbn [Go.itemLoop] in E. apply bind_inv in E as (it & w1 & Eit & E).
    apply IH in E as (new & -> & Hnew). exists (it :: new).
    rewrite <- app_assoc. split; [reflexivity|].
    intros it' Hit'. apply elem_of_cons in Hit' as [->|Hit']; [eauto|auto].
Qed.

(** A result of the generator: its centers are those drawn first, from
    the world of the call, and every item is a run of the loop body with
    them. *)
Lemma generateVectorData_members (limit d : Z) (w w' : W) (data : list Go.VectorItem) :
  Go.generateVectorData rand_Float64 rand_Intn time_Now formatRFC3339 limit d w = Ok (data, w') ->
  exists centers w1,
    Go.newCenters rand_Float64 (length Go.sampleClusters) d w = Ok (centers, w1)
    /\ forall it, it ∈ data ->
         exists k wa wb,
           Go.newItem rand_Float64 rand_Intn time_Now formatRFC3339 centers d k wa = Ok (it, wb).
Proof.
  intros E. unfold Go.generateVectorData in E.
  apply bind_inv in E as (centers & w1 & Ec & E).
  apply bind_inv in E as (cap & w2 & _ & E).
  apply itemLoop_members in E as (new & -> & Hnew).
  exists centers, w1. split; [exact Ec|]. exact Hnew.
Qed.
End GoDrawn.

Section MockDrawn.
Context {W : Type}.
Variable Math_random : W -> float * W.
Variable Date_now : W -> float * W.
Variable toISOString : float -> string.
Variable Array_sort : forall A : Type, (A -> A -> W -> float * W) -> list A -> W -> list A * W.
Hypothesis random_unit : forall w, unit_interval (fst (Math_random w)).
Hypothesis sort_permutation :
  forall (A : Type) (cmp : A -> A -> W -> float * W) (l : list A) w,
    fst (Array_sort A cmp l w) ≡ₚ l.

(** [center.map((val) => val + ...)] is [withNoise] of the center. *)
Lemma jitter_withNoise (center : list float) (w : W) :
  Mock.jitter Math_random center w
  = Ok (fst (withNoise Math_random center w), snd (withNoise Math_random center w)).
Proof.
  revert w. induction center as [|c rest IH]; intros w; [reflexivity|].
  cbn [Mock.jitter withNoise]. unfold bind at 1. unfold Mock.random, lift.
  destruct (Math_random w) as [u w1]. unfold bind. rewrite IH.
  destruct (withNoise Math_random rest w1) as [v w2]. reflexivity.
Qed.

Lemma newItem_drawn_mock (centers : list (list float)) (i : Z) (wa wb : W) (it : VectorItem) :
  Mock.newItem Math_random Date_now toISOString Array_sort centers i wa = Ok (it, wb) ->
  exists c0 idx center w1,
    Mock.getRandomItems Math_random Array_sort Mock.SAMPLE_CLUSTERS 1 3 wa
    = Ok (clusters it, w1)
    /\ clusters it !! 0%nat = Some c0
    /\ Mock.SAMPLE_CLUSTERS !! idx = Some c0
    /\ centers !! idx = Some center
    /\ vector it = fst (withNoise Math_random center w1).
Proof.
  intros E. unfold Mock.newItem in E.
  apply bind_inv in E as (cl & w1 & Ecl & E).
  assert (Hcl : (1 <= length cl)%nat /\ cl ⊆ Mock.SAMPLE_CLUSTERS).
  { assert (H : succeeds (Mock.getRandomItems Math_random Array_sort Mock.SAMPLE_CLUSTERS 1 3)
                  (fun cl _ => (1 <= length cl)%nat /\ cl ⊆ Mock.SAMPLE_CLUSTERS) wa).
    { apply succeeds_getRandomItems_clusters; [exact random_unit|exact sort_permutation|].
      intros r w' Hlen (l' & Hperm & Htake). split; [lia|].
      exact (proj2 (take_perm_clusters _ _ _ _ SAMPLE_CLUSTERS_NoDup Hperm Htake)). }
    unfold succeeds in H. rewrite Ecl in H. exact H. }
  destruct Hcl as [Hlen Hsub].
  destruct cl as [|c0 rest]; [cbn in Hlen; lia|].
  change (Mock.at_index (c0 :: rest) 0) with (Some c0) in E. cbn [Mock.indexOf] in E.
  destruct (indexOfFrom_lookup Mock.SAMPLE_CLUSTERS c0 0) as (idx & Hidx & Efind).
  { apply Hsub. left. }
  rewrite Efind, Z.add_0_l in E.
  unfold Mock.at_index in E. rewrite (proj2 (Z.ltb_ge (Z.of_nat idx) 0)) in E by lia.
  rewrite Nat2Z.id in E.
  apply bind_inv in E as (vec & w2 & Ev & E).
  destruct (centers !! idx) as [center|] eqn:Hcenter; [|discriminate].
  rewrite jitter_withNoise in Ev. injection Ev as <- <-.
  apply bind_inv in E as (metadata & w3 & _ & E).
  apply bind_inv in E as (key & w4 & _ & E).
  apply ret_inv in E as [-> ->]. cbn [clusters vector].
  exists c0, idx, center, w1. repeat split; assumption.
Qed.

Lemma itemLoop_members_mock (centers : list (list float)) (remaining : nat) (i : Z)
    (data out : list VectorItem) (w w' : W) :
  Mock.itemLoop Math_random Date_now toISOString Array_sort centers remaining i data w
  = Ok (out, w') ->
  exists new,
    out = data ++ new
    /\ forall it, it ∈ new ->
         exists k wa wb,
           Mock.newItem Math_random Date_now toISOString Array_sort centers k wa = Ok (it, wb).
Proof.
  revert i data w. induction remaining as [|r IH]; intros i data w E.
  - apply ret_inv in E as [-> _]. exists []. rewrite app_nil_r. split; [reflexivity|].
    intros it Hit. apply elem_of_nil in Hit. contradiction.
  - cbn [Mock.itemLoop] in E. apply bind_inv in E as (it & w1 & Eit & E).
    apply IH in E as (new & -> & Hnew). exists (it :: new).
    rewrite <- app_assoc. split; [reflexivity|].
    intros it' Hit'. apply elem_of_cons in Hit' as [->|Hit']; [eauto|auto].
Qed.

Lemma fetchVectorData_members (params : Mock.FetchVectorDataParams) (w w' : W)
    (data : list VectorItem) :
  Mock.fetchVectorData Math_random Date_now toISOString Array_sort params w = Ok (data, w') ->
  exists centers w1,
    Mock.newCenters Math_random (length Mock.SAMPLE_CLUSTERS)
      (default 100 (Mock.dimensions params)) w = Ok (centers, w1)
    /\ forall it, it ∈ data ->
         exists k wa wb,
           Mock.newItem Math_random Date_now toISOString Array_sort centers k wa = Ok (it, wb).
Proof.
  intros E. unfold Mock.fetchVectorData in E.
  apply bind_inv in E as (centers & w1 & Ec & E).
  apply itemLoop_members_mock in E as (new & -> & Hnew).
  exists centers, w1. split; [exact Ec|]. exact Hnew.
Qed.
End MockDrawn.

(** ** The sample world satisfies what the generators rely on *)

Module SampleFacts.
Import Sample.

Lemma Float64_unit (w : World) : unit_interval (fst (rand_Float64 w)).
Proof.
  unfold rand_Float64. cbn [fst].
  pose proof (Nat.mod_upper_bound w 4 ltac:(lia)) as H.
  destruct (w mod 4)%nat as [|[|[|[|n]]]]; try lia; split; reflexivity.
Qed.

Lemma Intn_range (n : Z) (w : World) : 0 < n -> 0 <= fst (rand_Intn n w) < n.
Proof. intros Hn. apply Z.mod_pos_bound, Hn. Qed.

Lemma insertBy_permutation {A} cmp (x : A) l w : fst (insertBy cmp x l w) ≡ₚ x :: l.
Proof.
  revert w. induction l as [|y rest IH]; intros w; cbn [insertBy]; [reflexivity|].
  destruct (cmp x y w) as [c w']. destruct (PrimFloat.ltb c 0); [reflexivity|].
  specialize (IH w'). destruct (insertBy cmp x rest w') as [r w'']. cbn [fst] in *.
  rewrite IH. apply Permutation_swap.
Qed.

Lemma sort_permutation (A : Type) (cmp : A -> A -> World -> float * World) (l : list A) w :
  fst (Array_sort A cmp l w) ≡ₚ l.
Proof.
  unfold Array_sort. revert w. induction l as [|x rest IH]; intros w; cbn [sortBy];
    [reflexivity|].
  specialize (IH w). destruct (sortBy cmp rest w) as [s w']. cbn [fst] in IH.
  rewrite insertBy_permutation, IH. reflexivity.
Qed.

End SampleFacts.

(** ** The claims about the generators *)

Section Claims.
Context {WG WJ : Type}.

(** The world of the Go backend. *)
Variable rand_Float64 : WG -> float * WG.
Variable rand_Intn : Z -> WG -> Z * WG.
Variable time_Now : WG -> Z * WG.
Variable formatRFC3339 : Z -> string.
Hypothesis Float64_unit : forall w, unit_interval (fst (rand_Float64 w)).
Hypothesis Intn_range : forall n w, 0 < n -> 0 <= fst (rand_Intn n w) < n.

(** The world of the mock service. *)
Variable Math_random : WJ -> float * WJ.
Variable Date_now : WJ -> float * WJ.
Variable toISOString : float -> string.
Variable Array_sort : forall A : Type, (A -> A -> WJ -> float * WJ) -> list A -> WJ -> list A * WJ.
Hypothesis random_unit : forall w, unit_interval (fst (Math_random w)).
Hypothesis sort_permutation :
  forall (A : Type) (cmp : A -> A -> WJ -> float * WJ) (l : list A) w,
    fst (Array_sort A cmp l w) ≡ₚ l.

Local Abbreviation generateVectorData :=
  (Go.generateVectorData rand_Float64 rand_Intn time_Now formatRFC3339).
Local Abbreviation fetchVectorData :=
  (Mock.fetchVectorData Math_random Date_now toISOString Array_sort).
Local Abbreviation params count d := {| Mock.limit := Some count; Mock.dimensions := Some d |}.

(** Both generators on valid arguments, with everything the lemmas above
    say about the items. *)
Lemma generateVectorData_items (count d : Z) (w : WG) :
  0 <= count -> 0 <= d ->
  exists data w' centers,
    generateVectorData count d w = Ok (data, w')
    /\ Go.len data = count
    /\ centersOk Go.sampleClusters (Z.to_nat d) centers
    /\ forall k it, data !! k = Some it -> goItemOk centers (Z.of_nat k) it.
Proof.
  intros Hc Hd.
  pose proof (succeeds_generateVectorData rand_Float64 rand_Intn time_Now formatRFC3339
                Float64_unit Intn_range count d w Hc Hd) as H.
  apply succeeds_inv in H as (data & w' & E & Hlen & centers & Hcs & Hitems).
  exists data, w', centers. auto.
Qed.

Lemma fetchVectorData_items (count d : Z) (w : WJ) :
  exists data w' centers,
    fetchVectorData (params count d) w = Ok (data, w')
    /\ length data = Z.to_nat count
    /\ centersOk Mock.SAMPLE_CLUSTERS (Z.to_nat d) centers
    /\ forall k it, data !! k = Some it -> mockItemOk centers (Z.of_nat k) it.
Proof.
  pose proof (succeeds_fetchVectorData Math_random Date_now toISOString Array_sort
                random_unit sort_permutation (params count d) w) as H.
  apply succeeds_inv in H as (data & w' & E & Hlen & centers & Hcs & Hitems).
  exists data, w', centers. auto.
Qed.

Lemma primaryOk_length vocab centers d cl v :
  centersOk vocab d centers -> primaryOk vocab centers cl v -> length v = d.
Proof.
  intros [_ Hcs] (c0 & idx & center & _ & _ & Hcenter & Hnear).
  rewrite (nearCenter_length _ _ Hnear).
  exact (proj1 (proj1 (Forall_lookup _ _) Hcs idx center Hcenter)).
Qed.

Local Ltac limits :=
  unfold Go64.maxAlloc, Go64.sizeofVectorItem, Go64.sizeofFloat64, Mock32.maxLength in *; lia.

Local Abbreviation generateVectorData64 :=
  (Go64.generateVectorData rand_Float64 rand_Intn time_Now formatRFC3339).
Local Abbreviation fetchVectorData32 :=
  (Mock32.fetchVectorData Math_random Date_now toISOString Array_sort).

(** Both generators under the limits of the run-times, for arguments
    within the limits. *)
Lemma generateVectorData64_items (count d : Z) (w : WG) :
  0 <= count -> Go64.sizeofVectorItem * count <= Go64.maxAlloc ->
  0 <= d -> Go64.sizeofFloat64 * d <= Go64.maxAlloc ->
  exists data w' centers,
    generateVectorData64 count d w = Ok (data, w')
    /\ Go.len data = count
    /\ centersOk Go.sampleClusters (Z.to_nat d) centers
    /\ forall k it, data !! k = Some it -> goItemOk centers (Z.of_nat k) it.
Proof.
  intros Hc Hcs Hd Hds.
  rewrite (generateVectorData_agrees _ _ _ _ Intn_range) by assumption.
  apply generateVectorData_items; assumption.
Qed.

Lemma fetchVectorData32_items (count d : Z) (w : WJ) :
  count <= Mock32.maxLength -> d <= Mock32.maxLength ->
  exists data w' centers,
    fetchVectorData32 (params count d) w = Ok (data, w')
    /\ length data = Z.to_nat count
    /\ centersOk Mock.SAMPLE_CLUSTERS (Z.to_nat d) centers
    /\ forall k it, data !! k = Some it -> mockItemOk centers (Z.of_nat k) it.
Proof.
  intros Hc Hd. rewrite fetchVectorData_agrees by assumption.
  apply fetchVectorData_items.
Qed.

(** C4 (amended).  For every count >= 0 and dimensionality d >= 1 within
    the limits of the run-time, each generator returns, without error,
    exactly count items in generation order (the item at position k
    carries the id k), each with a vector of length exactly d: the Go
    backend when count items of 88 bytes and d numbers of 8 bytes fit the
    largest allocation of 2^48 bytes, the mock service when count and d are
    below 2^32.  Beyond these limits neither returns: the Go backend
    panics in [make], on d before count, and the mock service throws a
    RangeError.  In particular generate(0, 100) returns the empty
    sequence.  (An allocation that the run-time accepts is taken to be
    served.) *)
Theorem C4_generator_count_and_dimensions (count d : Z) (wg : WG) (wj : WJ) :
  0 <= count -> 1 <= d ->
  (Go64.sizeofVectorItem * count <= Go64.maxAlloc -> Go64.sizeofFloat64 * d <= Go64.maxAlloc ->
   exists data w',
     generateVectorData64 count d wg = Ok (data, w')
     /\ Go.len data = count
     /\ forall k it, data !! k = Some it ->
          Go.ID it = Go.Itoa (Z.of_nat k) /\ Go.len (Go.Vector it) = d)
  /\ (Go64.maxAlloc < Go64.sizeofFloat64 * d ->
      generateVectorData64 count d wg = Err (Panic "makeslice: len out of range"))
  /\ (Go64.sizeofFloat64 * d <= Go64.maxAlloc ->
      Go64.maxAlloc < Go64.sizeofVectorItem * count ->
      generateVectorData64 count d wg = Err (Panic "makeslice: cap out of range"))
  /\ (count <= Mock32.maxLength -> d <= Mock32.maxLength ->
      exists data w',
        fetchVectorData32 (params count d) wj = Ok (data, w')
        /\ Z.of_nat (length data) = count
        /\ forall k it, data !! k = Some it ->
             id it = IdNumber (Z.of_nat k) /\ Z.of_nat (length (vector it)) = d)
  /\ (Mock32.maxLength < d ->
      fetchVectorData32 (params count d) wj = Err (RangeError "Invalid array length"))
  /\ (d <= Mock32.maxLength -> Mock32.maxLength < count ->
      fetchVectorData32 (params count d) wj = Err (RangeError "Invalid array length"))
  /\ (exists w', generateVectorData64 0 100 wg = Ok ([], w'))
  /\ (exists w', fetchVectorData32 (params 0 100) wj = Ok ([], w')).
Proof.
  intros Hc Hd. repeat apply conj.
  - intros Hcs Hds.
    destruct (generateVectorData64_items count d wg) as (data & w' & cs & E & Hl & Hcs' & Hit);
      [lia..|].
    exists data, w'. split; [exact E|]. split; [exact Hl|].
    intros k it Hk. destruct (Hit k it Hk) as (Hid & _ & Hp).
    split; [exact Hid|]. unfold Go.len. rewrite (primaryOk_length _ _ _ _ _ Hcs' Hp). lia.
  - intros Hds. apply generateVectorData_dimensions_beyond. right. exact Hds.
  - intros Hds Hcs.
    apply generateVectorData_limit_beyond; [exact Float64_unit|lia|exact Hds|right; exact Hcs].
  - intros Hcm Hdm.
    destruct (fetchVectorData32_items count d wj) as (data & w' & cs & E & Hl & Hcs & Hit);
      [assumption..|].
    exists data, w'. split; [exact E|]. split; [lia|].
    intros k it Hk. destruct (Hit k it Hk) as (Hid & _ & Hp).
    split; [exact Hid|]. rewrite (primaryOk_length _ _ _ _ _ Hcs Hp). lia.
  - intros Hdm. apply fetchVectorData_dimensions_beyond. exact Hdm.
  - intros Hdm Hcm.
    apply fetchVectorData_limit_beyond; [exact random_unit|exact sort_permutation|exact Hdm|exact Hcm].
  - destruct (generateVectorData64_items 0 100 wg) as (data & w' & cs & E & Hl & _);
      [limits..|].
    exists w'. destruct data; [exact E|discriminate].
  - destruct (fetchVectorData32_items 0 100 wj) as (data & w' & cs & E & Hl & _);
      [vm_compute; discriminate..|].
    exists w'. destruct data; [exact E|discriminate].
Qed.

(** C5 (amended).  Neither generator validates its arguments, and neither
    reports an InvalidArgument error.  Within the limits of the run-time
    (C4), with count = 0 both return the empty sequence, and with
    dimensions = 0 both return count items whose vectors are empty.  The
    mock service treats a negative count as 0 and a negative dimensions as
    0.  The Go generator called with a negative dimensions stops in the
    run-time panic of the [make] of a center, and called with a negative
    count in that of the [make] of the result. *)
Theorem C5_no_argument_validation (count d : Z) (wg : WG) (wj : WJ) :
  (0 <= d -> Go64.sizeofFloat64 * d <= Go64.maxAlloc ->
   exists w', generateVectorData64 0 d wg = Ok ([], w'))
  /\ (0 <= count -> Go64.sizeofVectorItem * count <= Go64.maxAlloc ->
      exists data w',
        generateVectorData64 count 0 wg = Ok (data, w')
        /\ Go.len data = count
        /\ forall it, it ∈ data -> Go.Vector it = [])
  /\ (d < 0 ->
      generateVectorData64 count d wg = Err (Panic "makeslice: len out of range"))
  /\ (count < 0 -> 0 <= d -> Go64.sizeofFloat64 * d <= Go64.maxAlloc ->
      generateVectorData64 count d wg = Err (Panic "makeslice: cap out of range"))
  /\ (count <= 0 -> d <= Mock32.maxLength ->
      exists w', fetchVectorData32 (params count d) wj = Ok ([], w'))
  /\ (d <= 0 -> count <= Mock32.maxLength ->
      exists data w',
        fetchVectorData32 (params count d) wj = Ok (data, w')
        /\ length data = Z.to_nat count
        /\ forall it, it ∈ data -> vector it = []).
Proof.
  repeat apply conj.
  - intros Hd Hds.
    destruct (generateVectorData64_items 0 d wg) as (data & w' & cs & E & Hl & _);
      [limits..|].
    exists w'. destruct data; [exact E|discriminate].
  - intros Hc Hcs.
    destruct (generateVectorData64_items count 0 wg) as (data & w' & cs & E & Hl & Hcs' & Hit);
      [limits..|].
    exists data, w'. split; [exact E|]. split; [exact Hl|].
    intros it Hin. apply list_elem_of_lookup in Hin as [k Hk].
    destruct (Hit k it Hk) as (_ & _ & Hp).
    apply length_zero_iff_nil. exact (primaryOk_length _ _ _ _ _ Hcs' Hp).
  - intros Hd. apply generateVectorData_dimensions_beyond. left. exact Hd.
  - intros Hc Hd Hds.
    apply generateVectorData_limit_beyond; [exact Float64_unit|exact Hd|exact Hds|left; exact Hc].
  - intros Hc Hd.
    destruct (fetchVectorData32_items count d wj) as (data & w' & cs & E & Hl & _);
      [unfold Mock32.maxLength; lia|exact Hd|].
    exists w'. destruct data; [exact E|]. cbn in Hl. lia.
  - intros Hd Hc.
    destruct (fetchVectorData32_items count d wj) as (data & w' & cs & E & Hl & Hcs & Hit);
      [exact Hc|unfold Mock32.maxLength; lia|].
    exists data, w'. split; [exact E|]. split; [exact Hl|].
    intros it Hin. apply list_elem_of_lookup in Hin as [k Hk].
    destruct (Hit k it Hk) as (_ & _ & Hp).
    apply length_zero_iff_nil. rewrite (primaryOk_length _ _ _ _ _ Hcs Hp). lia.
Qed.

(** C6.  Every item produced by either generator has a clusters list of
    length between 1 and 3, whose entries are pairwise distinct and all
    belong to the fixed vocabulary of 10 cluster names. *)
Theorem C6_clusters_of_items (count d : Z) (wg : WG) (wj : WJ) :
  0 <= count -> 0 <= d ->
  (length Go.sampleClusters = 10%nat /\ Mock.SAMPLE_CLUSTERS = Go.sampleClusters)
  /\ (exists data w',
         generateVectorData count d wg = Ok (data, w')
         /\ forall it, it ∈ data ->
              (1 <= length (Go.Clusters it) <= 3)%nat
              /\ NoDup (Go.Clusters it)
              /\ forall c, c ∈ Go.Clusters it -> c ∈ Go.sampleClusters)
  /\ (exists data w',
         fetchVectorData (params count d) wj = Ok (data, w')
         /\ forall it, it ∈ data ->
              (1 <= length (clusters it) <= 3)%nat
              /\ NoDup (clusters it)
              /\ forall c, c ∈ clusters it -> c ∈ Mock.SAMPLE_CLUSTERS).
Proof.
  intros Hc Hd. split; [split; reflexivity|]. split.
  - destruct (generateVectorData_items count d wg) as (data & w' & cs & E & Hl & Hcs & Hit);
      [lia..|].
    exists data, w'. split; [exact E|].
    intros it Hin. apply list_elem_of_lookup in Hin as [k Hk].
    destruct (Hit k it Hk) as (_ & (Hlen & Hnd & Hsub) & _). auto.
  - destruct (fetchVectorData_items count d wj) as (data & w' & cs & E & Hl & Hcs & Hit).
    exists data, w'. split; [exact E|].
    intros it Hin. apply list_elem_of_lookup in Hin as [k Hk].
    destruct (Hit k it Hk) as (_ & (Hlen & Hnd & Hsub) & _). auto.
Qed.

Lemma primaryOk_components vocab centers d cl v :
  centersOk vocab d centers -> primaryOk vocab centers cl v ->
  exists c0 idx center,
    cl !! 0%nat = Some c0 /\ vocab !! idx = Some c0 /\ centers !! idx = Some center
    /\ Forall (between (-1) 1) center
    /\ nearCenter center v
    /\ Forall (between (-1.25) 1.25) v.
Proof.
  intros [_ Hcs] (c0 & idx & center & H0 & Hidx & Hcenter & Hnear).
  pose proof (proj2 (proj1 (Forall_lookup _ _) Hcs idx center Hcenter)) as Hrange.
  exists c0, idx, center. repeat split; try assumption.
  exact (nearCenter_bounds _ _ Hrange Hnear).
Qed.

(** C7.  Every item that either generator returns has its vector built
    from the center of its primary cluster: the centers are the ones that
    the run draws first, one per cluster name, every component in
    [-1, 1]; the vector of an item is the center at the index of
    clusters[0] in the vocabulary, with a fresh noise [u * 0.5 - 0.25]
    added to every component, the numbers u being drawn one per component
    right after the clusters of the item.  So every component equals the
    component of the center plus a noise in [-0.25, 0.25], and lies in the
    closed interval [-1.25, 1.25].  Both generators return such items for
    every count and dimensions within the limits of the run-time (C4).
    (All comparisons and the sums are those of binary64 arithmetic.) *)
Theorem C7_vector_components (count d : Z) (wg : WG) (wj : WJ) :
  (forall data w',
      generateVectorData64 count d wg = Ok (data, w') ->
      exists centers w1,
        Go64.newCenters rand_Float64 (length Go.sampleClusters) d wg = Ok (centers, w1)
        /\ length centers = length Go.sampleClusters
        /\ forall it, it ∈ data ->
             exists c0 idx center wa wb,
               Go64.getRandomItems rand_Intn Go.sampleClusters 1 3 wa
               = Ok (Go.Clusters it, wb)
               /\ Go.Clusters it !! 0%nat = Some c0
               /\ Go.sampleClusters !! idx = Some c0
               /\ centers !! idx = Some center
               /\ Forall (between (-1) 1) center
               /\ Go.Vector it = fst (withNoise rand_Float64 center wb)
               /\ Forall2 (fun c v => exists noise, between (-0.25) 0.25 noise
                                                    /\ v = (c + noise)%float)
                          center (Go.Vector it)
               /\ Forall (between (-1.25) 1.25) (Go.Vector it))
  /\ (0 <= count -> Go64.sizeofVectorItem * count <= Go64.maxAlloc ->
      0 <= d -> Go64.sizeofFloat64 * d <= Go64.maxAlloc ->
      exists data w', generateVectorData64 count d wg = Ok (data, w') /\ Go.len data = count)
  /\ (forall data w',
        fetchVectorData32 (params count d) wj = Ok (data, w') ->
        exists centers w1,
          Mock32.newCenters Math_random (length Mock.SAMPLE_CLUSTERS) d wj = Ok (centers, w1)
          /\ length centers = length Mock.SAMPLE_CLUSTERS
          /\ forall it, it ∈ data ->
               exists c0 idx center wa wb,
                 Mock.getRandomItems Math_random Array_sort Mock.SAMPLE_CLUSTERS 1 3 wa
                 = Ok (clusters it, wb)
                 /\ clusters it !! 0%nat = Some c0
                 /\ Mock.SAMPLE_CLUSTERS !! idx = Some c0
                 /\ centers !! idx = Some center
                 /\ Forall (between (-1) 1) center
                 /\ vector it = fst (withNoise Math_random center wb)
                 /\ Forall2 (fun c v => exists noise, between (-0.25) 0.25 noise
                                                      /\ v = (c + noise)%float)
                            center (vector it)
                 /\ Forall (between (-1.25) 1.25) (vector it))
  /\ (count <= Mock32.maxLength -> d <= Mock32.maxLength ->
      exists data w',
        fetchVectorData32 (params count d) wj = Ok (data, w')
        /\ length data = Z.to_nat count).
Proof.
  repeat apply conj.
  - intros data w' E.
    apply (generateVectorData_returns _ _ _ _ Float64_unit Intn_range) in E
      as ((Hd & Hds) & _ & E).
    apply generateVectorData_members in E as (centers & w1 & Ec & Hitems).
    assert (Hcs : centersOk Go.sampleClusters (Z.to_nat d) centers).
    { assert (H : succeeds (Go.newCenters rand_Float64 (length Go.sampleClusters) d)
                    (fun cs _ => centersOk Go.sampleClusters (Z.to_nat d) cs) wg).
      { apply succeeds_newCenters; [exact Float64_unit|exact Hd|].
        intros cs w2 Hk Hcs. split; assumption. }
      unfold succeeds in H. rewrite Ec in H. exact H. }
    exists centers, w1. rewrite newCenters_agrees by assumption.
    split; [exact Ec|]. split; [exact (proj1 Hcs)|].
    intros it Hit. destruct (Hitems it Hit) as (k & wa & wb & Eit).
    destruct (newItem_drawn _ _ _ _ Intn_range _ _ _ _ _ _ Hcs Eit)
      as (c0 & idx & center & w2 & Ecl & Hc0 & Hidx & Hcenter & Ev).
    exists c0, idx, center, wa, w2.
    pose proof (proj2 (proj1 (Forall_lookup _ _) (proj2 Hcs) idx center Hcenter)) as Hrange.
    assert (Hnear : nearCenter center (Go.Vector it))
      by (rewrite Ev; apply withNoise_near, Float64_unit).
    rewrite (getRandomItems_agrees _ Intn_range) by (lia || (vm_compute; discriminate)).
    repeat split; try assumption.
    exact (nearCenter_bounds _ _ Hrange Hnear).
  - intros Hc Hcs Hd Hds.
    destruct (generateVectorData64_items count d wg) as (data & w' & cs & E & Hl & _);
      [assumption..|].
    eauto.
  - intros data w' E.
    apply (fetchVectorData_returns _ _ _ _ random_unit sort_permutation) in E
      as (Hd & _ & E).
    change (default 100 (Mock.dimensions (params count d))) with d in Hd.
    apply fetchVectorData_members in E as (centers & w1 & Ec & Hitems).
    change (default 100 (Mock.dimensions (params count d))) with d in Ec.
    assert (Hcs : centersOk Mock.SAMPLE_CLUSTERS (Z.to_nat d) centers).
    { assert (H : succeeds (Mock.newCenters Math_random (length Mock.SAMPLE_CLUSTERS) d)
                    (fun cs _ => centersOk Mock.SAMPLE_CLUSTERS (Z.to_nat d) cs) wj).
      { apply succeeds_newCenters_mock; [exact random_unit|].
        intros cs w2 Hk Hcs. split; assumption. }
      unfold succeeds in H. rewrite Ec in H. exact H. }
    exists centers, w1. rewrite newCenters_agrees_mock by assumption.
    split; [exact Ec|]. split; [exact (proj1 Hcs)|].
    intros it Hit. destruct (Hitems it Hit) as (k & wa & wb & Eit).
    destruct (newItem_drawn_mock _ _ _ _ random_unit sort_permutation _ _ _ _ _ Eit)
      as (c0 & idx & center & w2 & Ecl & Hc0 & Hidx & Hcenter & Ev).
    exists c0, idx, center, wa, w2.
    pose proof (proj2 (proj1 (Forall_lookup _ _) (proj2 Hcs) idx center Hcenter)) as Hrange.
    assert (Hnear : nearCenter center (vector it))
      by (rewrite Ev; apply withNoise_near, random_unit).
    repeat split; try assumption.
    exact (nearCenter_bounds _ _ Hrange Hnear).
  - intros Hc Hd.
    destruct (fetchVectorData32_items count d wj) as (data & w' & cs & E & Hl & _);
      [assumption..|].
    eauto.
Qed.

(** C9.  In every item generation step of either generator, for centers
    allocated one per cluster name: the clusters drawn are a non-empty
    subset of the vocabulary, the search for clusters[0] in the vocabulary
    finds it (the index is not -1 and lies in [0, 10)), and the indexing of
    the centers with it is in bounds (no panic in Go, no undefined center
    in the mock service). *)
Theorem C9_primary_cluster_lookup (centers : list (list float)) (wg : WG) (wj : WJ) :
  length centers = 10%nat ->
  (exists cl w',
      Go.getRandomItems rand_Intn Go.sampleClusters 1 3 wg = Ok (cl, w')
      /\ cl <> [] /\ (forall c, c ∈ cl -> c ∈ Go.sampleClusters)
      /\ exists c0 center,
           Go.index cl 0 w' = Ok (c0, w')
           /\ Go.findIndex Go.sampleClusters c0 0 <> -1
           /\ 0 <= Go.findIndex Go.sampleClusters c0 0 < Go.len Go.sampleClusters
           /\ Go.sampleClusters !! Z.to_nat (Go.findIndex Go.sampleClusters c0 0) = Some c0
           /\ Go.index centers (Go.findIndex Go.sampleClusters c0 0) w' = Ok (center, w'))
  /\ (exists cl w',
         Mock.getRandomItems Math_random Array_sort Mock.SAMPLE_CLUSTERS 1 3 wj = Ok (cl, w')
         /\ cl <> [] /\ (forall c, c ∈ cl -> c ∈ Mock.SAMPLE_CLUSTERS)
         /\ exists c0 center,
              Mock.at_index cl 0 = Some c0
              /\ Mock.indexOf Mock.SAMPLE_CLUSTERS (Mock.at_index cl 0) <> -1
              /\ 0 <= Mock.indexOf Mock.SAMPLE_CLUSTERS (Mock.at_index cl 0) < 10
              /\ Mock.at_index Mock.SAMPLE_CLUSTERS
                   (Mock.indexOf Mock.SAMPLE_CLUSTERS (Mock.at_index cl 0)) = Some c0
              /\ Mock.at_index centers
                   (Mock.indexOf Mock.SAMPLE_CLUSTERS (Mock.at_index cl 0)) = Some center).
Proof.
  intros Hcenters. split.
  - assert (H : succeeds (Go.getRandomItems rand_Intn Go.sampleClusters 1 3)
                  (fun cl _ => (1 <= length cl)%nat /\ cl ⊆ Go.sampleClusters) wg).
    { apply succeeds_getRandomItems; [exact Intn_range|lia|unfold Go.len; cbn; lia|].
      intros r w' Hlen (l' & Hperm & Htake). split; [unfold Go.len in Hlen; lia|].
      exact (proj2 (take_perm_clusters _ _ _ _ sampleClusters_NoDup Hperm Htake)). }
    apply succeeds_inv in H as (cl & w' & E & Hlen & Hsub).
    exists cl, w'. split; [exact E|].
    destruct cl as [|c0 rest]; [cbn in Hlen; lia|].
    split; [discriminate|]. split; [exact Hsub|].
    destruct (findIndex_lookup Go.sampleClusters c0 0) as (idx & Hidx & Efind).
    { apply Hsub. left. }
    pose proof (lookup_lt_Some _ _ _ Hidx) as Hidxlt.
    destruct (lookup_lt_is_Some_2 centers idx) as [center Hcenter].
    { rewrite Hcenters. exact Hidxlt. }
    exists c0, center. rewrite Efind, Z.add_0_l, Nat2Z.id.
    split; [reflexivity|]. split; [lia|]. split; [unfold Go.len; lia|].
    split; [exact Hidx|].
    unfold Go.index. rewrite (proj2 (Z.ltb_ge (Z.of_nat idx) 0)) by lia.
    rewrite Nat2Z.id, Hcenter. reflexivity.
  - assert (H : succeeds (Mock.getRandomItems Math_random Array_sort Mock.SAMPLE_CLUSTERS 1 3)
                  (fun cl _ => (1 <= length cl)%nat /\ cl ⊆ Mock.SAMPLE_CLUSTERS) wj).
    { apply succeeds_getRandomItems_clusters; [exact random_unit|exact sort_permutation|].
      intros r w' Hlen (l' & Hperm & Htake). split; [lia|].
      exact (proj2 (take_perm_clusters _ _ _ _ SAMPLE_CLUSTERS_NoDup Hperm Htake)). }
    apply succeeds_inv in H as (cl & w' & E & Hlen & Hsub).
    exists cl, w'. split; [exact E|].
    destruct cl as [|c0 rest]; [cbn in Hlen; lia|].
    split; [discriminate|]. split; [exact Hsub|].
    change (Mock.at_index (c0 :: rest) 0) with (Some c0). cbn [Mock.indexOf].
    destruct (indexOfFrom_lookup Mock.SAMPLE_CLUSTERS c0 0) as (idx & Hidx & Efind).
    { apply Hsub. left. }
    pose proof (lookup_lt_Some _ _ _ Hidx) as Hidxlt.
    destruct (lookup_lt_is_Some_2 centers idx) as [center Hcenter].
    { rewrite Hcenters. exact Hidxlt. }
    exists c0, center. rewrite Efind, Z.add_0_l.
    split; [reflexivity|]. split; [lia|]. split; [cbn in Hidxlt; lia|].
    unfold Mock.at_index. rewrite (proj2 (Z.ltb_ge (Z.of_nat idx) 0)) by lia.
    rewrite Nat2Z.id. split; assumption.
Qed.
End Claims.

(** C4 (as stated, refuted).  A count or a dimensionality beyond the
    limits of the run-time: the Go backend asked for 4000000000000 items,
    or for vectors of 2^46 components, panics in [make], and the mock
    service asked for vectors of 2^32 components throws a RangeError. *)
Lemma C4_counterexample :
  Sample.generateVectorData64 4000000000000 3 0%nat
  = Err (Panic "makeslice: cap out of range")
  /\ Sample.generateVectorData64 1 70368744177664 0%nat
     = Err (Panic "makeslice: len out of range")
  /\ Sample.fetchVectorData32 {| Mock.limit := Some 1; Mock.dimensions := Some 4294967296 |}
       0%nat
     = Err (RangeError "Invalid array length").
Proof.
  split; [|split].
  - apply generateVectorData_limit_beyond;
      [exact SampleFacts.Float64_unit|lia|vm_compute; discriminate|right; reflexivity].
  - apply generateVectorData_dimensions_beyond. right. reflexivity.
  - apply fetchVectorData_dimensions_beyond. reflexivity.
Qed.

Lemma C4_generator_count_and_dimensions_witness :
  (exists data w',
      Sample.generateVectorData64 2 3 0%nat = Ok (data, w')
      /\ Go.len data = 2
      /\ forall k it, data !! k = Some it ->
           Go.ID it = Go.Itoa (Z.of_nat k) /\ Go.len (Go.Vector it) = 3)
  /\ (exists data w',
         Sample.fetchVectorData32 {| Mock.limit := Some 2; Mock.dimensions := Some 3 |} 0%nat
         = Ok (data, w')
         /\ Z.of_nat (length data) = 2
         /\ forall k it, data !! k = Some it ->
              id it = IdNumber (Z.of_nat k) /\ Z.of_nat (length (vector it)) = 3)
  /\ (exists w', Sample.generateVectorData64 0 100 0%nat = Ok ([], w'))
  /\ (exists w', Sample.fetchVectorData32 {| Mock.limit := Some 0; Mock.dimensions := Some 100 |}
                   0%nat = Ok ([], w')).
Proof.
  destruct (C4_generator_count_and_dimensions
              Sample.rand_Float64 Sample.rand_Intn Sample.time_Now Sample.formatRFC3339
              SampleFacts.Float64_unit SampleFacts.Intn_range
              Sample.rand_Float64 Sample.Date_now Sample.toISOString Sample.Array_sort
              SampleFacts.Float64_unit SampleFacts.sort_permutation 2 3 0%nat 0%nat)
    as (H1 & _ & _ & H4 & _ & _ & H7 & H8); [lia..|].
  split; [apply H1; vm_compute; discriminate|].
  split; [apply H4; vm_compute; discriminate|].
  split; assumption.
Defined.

(** C5 (as stated, refuted).  Called with count = 0, or with
    dimensions = 0, neither generator fails: each returns a result. *)
Lemma C5_counterexample :
  (exists w', Sample.generateVectorData64 0 100 0%nat = Ok ([], w'))
  /\ (exists w', Sample.fetchVectorData32 {| Mock.limit := Some 0; Mock.dimensions := Some 100 |}
                   0%nat = Ok ([], w'))
  /\ (exists it w', Sample.generateVectorData64 1 0 0%nat = Ok ([it], w')
                    /\ Go.Vector it = [])
  /\ (exists it w', Sample.fetchVectorData32 {| Mock.limit := Some 1; Mock.dimensions := Some 0 |}
                      0%nat = Ok ([it], w')
                    /\ vector it = []).
Proof.
  split; [|split; [|split]].
  - eexists. vm_compute. reflexivity.
  - eexists. vm_compute. reflexivity.
  - eexists _, _. split; [vm_compute; reflexivity|reflexivity].
  - eexists _, _. split; [vm_compute; reflexivity|reflexivity].
Qed.

Lemma C5_no_argument_validation_witness :
  (exists w', Sample.generateVectorData64 0 0 0%nat = Ok ([], w'))
  /\ (exists data w',
         Sample.generateVectorData64 2 0 0%nat = Ok (data, w')
         /\ Go.len data = 2
         /\ forall it, it ∈ data -> Go.Vector it = [])
  /\ Sample.generateVectorData64 2 (-1) 0%nat = Err (Panic "makeslice: len out of range")
  /\ Sample.generateVectorData64 (-1) 5 0%nat = Err (Panic "makeslice: cap out of range")
  /\ (exists w', Sample.fetchVectorData32 {| Mock.limit := Some (-1); Mock.dimensions := Some 5 |}
                   0%nat = Ok ([], w'))
  /\ (exists data w',
         Sample.fetchVectorData32 {| Mock.limit := Some 2; Mock.dimensions := Some 0 |} 0%nat
         = Ok (data, w')
         /\ length data = Z.to_nat 2
         /\ forall it, it ∈ data -> vector it = []).
Proof.
  pose proof (C5_no_argument_validation
                Sample.rand_Float64 Sample.rand_Intn Sample.time_Now Sample.formatRFC3339
                SampleFacts.Float64_unit SampleFacts.Intn_range
                Sample.rand_Float64 Sample.Date_now Sample.toISOString Sample.Array_sort
                SampleFacts.Float64_unit SampleFacts.sort_permutation) as H.
  destruct (H 2 0 0%nat 0%nat) as (H1 & H2 & _ & _ & _ & H6).
  destruct (H 2 (-1) 0%nat 0%nat) as (_ & _ & H3 & _).
  destruct (H (-1) 5 0%nat 0%nat) as (_ & _ & _ & H4 & H5 & _).
  split; [apply H1; [lia|vm_compute; discriminate]|].
  split; [apply H2; [lia|vm_compute; discriminate]|].
  split; [apply H3; lia|]. split; [apply H4; [lia|lia|vm_compute; discriminate]|].
  split; [apply H5; [lia|vm_compute; discriminate]|].
  apply H6; [lia|vm_compute; discriminate].
Defined.

Lemma C6_clusters_of_items_witness :
  (length Go.sampleClusters = 10%nat /\ Mock.SAMPLE_CLUSTERS = Go.sampleClusters)
  /\ (exists data w',
         Sample.generateVectorData 2 3 0%nat = Ok (data, w')
         /\ forall it, it ∈ data ->
              (1 <= length (Go.Clusters it) <= 3)%nat
              /\ NoDup (Go.Clusters it)
              /\ forall c, c ∈ Go.Clusters it -> c ∈ Go.sampleClusters)
  /\ (exists data w',
         Sample.fetchVectorData {| Mock.limit := Some 2; Mock.dimensions := Some 3 |} 0%nat
         = Ok (data, w')
         /\ forall it, it ∈ data ->
              (1 <= length (clusters it) <= 3)%nat
              /\ NoDup (clusters it)
              /\ forall c, c ∈ clusters it -> c ∈ Mock.SAMPLE_CLUSTERS).
Proof.
  apply (C6_clusters_of_items
           Sample.rand_Float64 Sample.rand_Intn Sample.time_Now Sample.formatRFC3339
           SampleFacts.Float64_unit SampleFacts.Intn_range
           Sample.rand_Float64 Sample.Date_now Sample.toISOString Sample.Array_sort
           SampleFacts.Float64_unit SampleFacts.sort_permutation 2 3 0%nat 0%nat); lia.
Defined.

Lemma C7_vector_components_witness :
  (exists data w',
      Sample.generateVectorData64 2 3 0%nat = Ok (data, w')
      /\ Go.len data = 2
      /\ exists centers w1,
           Go64.newCenters Sample.rand_Float64 (length Go.sampleClusters) 3 0%nat
           = Ok (centers, w1)
           /\ length centers = length Go.sampleClusters
           /\ forall it, it ∈ data ->
                exists c0 idx center wa wb,
                  Go64.getRandomItems Sample.rand_Intn Go.sampleClusters 1 3 wa
                  = Ok (Go.Clusters it, wb)
                  /\ Go.Clusters it !! 0%nat = Some c0
                  /\ Go.sampleClusters !! idx = Some c0
                  /\ centers !! idx = Some center
                  /\ Forall (between (-1) 1) center
                  /\ Go.Vector it = fst (withNoise Sample.rand_Float64 center wb)
                  /\ Forall2 (fun c v => exists noise, between (-0.25) 0.25 noise
                                                       /\ v = (c + noise)%float)
                             center (Go.Vector it)
                  /\ Forall (between (-1.25) 1.25) (Go.Vector it))
  /\ (exists data w',
         Sample.fetchVectorData32 {| Mock.limit := Some 2; Mock.dimensions := Some 3 |} 0%nat
         = Ok (data, w')
         /\ length data = Z.to_nat 2
         /\ exists centers w1,
              Mock32.newCenters Sample.rand_Float64 (length Mock.SAMPLE_CLUSTERS) 3 0%nat
              = Ok (centers, w1)
              /\ length centers = length Mock.SAMPLE_CLUSTERS
              /\ forall it, it ∈ data ->
                   exists c0 idx center wa wb,
                     Mock.getRandomItems Sample.rand_Float64 Sample.Array_sort
                       Mock.SAMPLE_CLUSTERS 1 3 wa = Ok (clusters it, wb)
                     /\ clusters it !! 0%nat = Some c0
                     /\ Mock.SAMPLE_CLUSTERS !! idx = Some c0
                     /\ centers !! idx = Some center
                     /\ Forall (between (-1) 1) center
                     /\ vector it = fst (withNoise Sample.rand_Float64 center wb)
                     /\ Forall2 (fun c v => exists noise, between (-0.25) 0.25 noise
                                                          /\ v = (c + noise)%float)
                                center (vector it)
                     /\ Forall (between (-1.25) 1.25) (vector it)).
Proof.
  destruct (C7_vector_components
              Sample.rand_Float64 Sample.rand_Intn Sample.time_Now Sample.formatRFC3339
              SampleFacts.Float64_unit SampleFacts.Intn_range
              Sample.rand_Float64 Sample.Date_now Sample.toISOString Sample.Array_sort
              SampleFacts.Float64_unit SampleFacts.sort_permutation 2 3 0%nat 0%nat)
    as (H1 & H2 & H3 & H4).
  split.
  - destruct H2 as (data & w' & E & Hlen); [lia|vm_compute; discriminate..|].
    exists data, w'. split; [exact E|]. split; [exact Hlen|]. exact (H1 data w' E).
  - destruct H4 as (data & w' & E & Hlen); [vm_compute; discriminate..|].
    exists data, w'. split; [exact E|]. split; [exact Hlen|]. exact (H3 data w' E).
Defined.

Lemma C9_primary_cluster_lookup_witness :
  let centers := replicate 10 ([] : list float) in
  (exists cl w',
      Go.getRandomItems Sample.rand_Intn Go.sampleClusters 1 3 0%nat = Ok (cl, w')
      /\ cl <> [] /\ (forall c, c ∈ cl -> c ∈ Go.sampleClusters)
      /\ exists c0 center,
           Go.index cl 0 w' = Ok (c0, w')
           /\ Go.findIndex Go.sampleClusters c0 0 <> -1
           /\ 0 <= Go.findIndex Go.sampleClusters c0 0 < Go.len Go.sampleClusters
           /\ Go.sampleClusters !! Z.to_nat (Go.findIndex Go.sampleClusters c0 0) = Some c0
           /\ Go.index centers (Go.findIndex Go.sampleClusters c0 0) w' = Ok (center, w'))
  /\ (exists cl w',
         Mock.getRandomItems Sample.rand_Float64 Sample.Array_sort Mock.SAMPLE_CLUSTERS 1 3
           0%nat = Ok (cl, w')
         /\ cl <> [] /\ (forall c, c ∈ cl -> c ∈ Mock.SAMPLE_CLUSTERS)
         /\ exists c0 center,
              Mock.at_index cl 0 = Some c0
              /\ Mock.indexOf Mock.SAMPLE_CLUSTERS (Mock.at_index cl 0) <> -1
              /\ 0 <= Mock.indexOf Mock.SAMPLE_CLUSTERS (Mock.at_index cl 0) < 10
              /\ Mock.at_index Mock.SAMPLE_CLUSTERS
                   (Mock.indexOf Mock.SAMPLE_CLUSTERS (Mock.at_index cl 0)) = Some c0
              /\ Mock.at_index centers
                   (Mock.indexOf Mock.SAMPLE_CLUSTERS (Mock.at_index cl 0)) = Some center).
Proof.
  apply (C9_primary_cluster_lookup
           Sample.rand_Intn SampleFacts.Intn_range
           Sample.rand_Float64 Sample.Array_sort
           SampleFacts.Float64_unit SampleFacts.sort_permutation
           (replicate 10 []) 0%nat 0%nat).
  reflexivity.
Defined.

(** * Part IV: further properties of the code

    The helpers of the two generators on all their inputs, what an item
    carries besides its vector, the handler as a whole, and the projector
    applied to generated data. *)

(** ** Keys, lists and numerals *)

Lemma get_occurs (i : nat) (s : string) (c : ascii) :
  String.get i s = Some c -> occurs c s = true.
Proof.
  revert i. induction s as [|a rest IH]; intros i H; [destruct i; discriminate|].
  cbn [occurs]. destruct i as [|i]; cbn in H.
  - injection H as ->. rewrite Ascii.eqb_refl. reflexivity.
  - rewrite (IH i H). apply orb_true_r.
Qed.

Lemma sampleAttributes_NoDup : NoDup Go.sampleAttributes.
Proof. apply (bool_decide_unpack _). vm_compute. exact I. Qed.

Lemma digit_pretty_N_char (r : N) :
  (r < 10)%N -> Go.digit (pretty_N_char r) = Some (Z.of_N r).
Proof.
  intros H.
  assert (r = 0 \/ r = 1 \/ r = 2 \/ r = 3 \/ r = 4 \/ r = 5 \/ r = 6 \/ r = 7
          \/ r = 8 \/ r = 9)%N as Hr by lia.
  repeat (destruct Hr as [->|Hr]; [reflexivity|]). subst r. reflexivity.
Qed.

(** [strconv.Atoi] reads the digits that [strconv.Itoa] writes. *)
Lemma parseDigits_pretty_N_go (x : N) (s : string) (acc : Z) :
  exists k, 0 <= k
    /\ Go.parseDigits (pretty_N_go x s) acc = Go.parseDigits s (acc * 10 ^ k + Z.of_N x).
Proof.
  revert s acc. induction (N.lt_wf_0 x) as [x _ IH]; intros s acc.
  destruct (N.eq_dec x 0%N) as [->|Hx].
  - exists 0. split; [lia|]. rewrite pretty_N_go_0. f_equal. cbn. lia.
  - rewrite pretty_N_go_step by lia.
    destruct (IH (x / 10)%N ltac:(apply N.div_lt; lia)
                (String (pretty_N_char (x mod 10)) s) acc) as (k & Hk & E).
    exists (k + 1). split; [lia|]. rewrite E. cbn [Go.parseDigits].
    rewrite digit_pretty_N_char by (apply N.mod_lt; lia).
    f_equal. rewrite Z.pow_add_r by lia.
    pose proof (N.div_mod x 10%N ltac:(lia)) as Hdm.
    assert (Z.of_N x = 10 * Z.of_N (x / 10) + Z.of_N (x mod 10)) by lia. lia.
Qed.

Lemma Atoi_of_parseDigits (s : string) (v : Z) :
  Go.parseDigits s 0 = Some v -> 0 < v <= 2 ^ 63 - 1 -> Go.Atoi s = Some v.
Proof.
  intros H Hv. destruct s as [|c rest]; [cbn in H; injection H as <-; lia|].
  unfold Go.Atoi.
  destruct (Ascii.eqb_spec c "-") as [->|Hm]; [cbn in H; discriminate|].
  destruct (Ascii.eqb_spec c "+") as [->|Hp]; [cbn in H; discriminate|].
  cbn [orb]. rewrite H.
  rewrite (proj2 (Z.leb_le (- 2 ^ 63) v)), (proj2 (Z.leb_le v (2 ^ 63 - 1))) by lia.
  reflexivity.
Qed.

Lemma Atoi_Itoa (n : Z) : 0 <= n < 2 ^ 63 -> Go.Atoi (Go.Itoa n) = Some n.
Proof.
  intros Hn. destruct n as [|p|p]; [reflexivity| |lia].
  apply Atoi_of_parseDigits; [|lia].
  unfold Go.Itoa, pretty, pretty_Z, pretty, pretty_positive, pretty, pretty_N.
  destruct (decide (N.pos p = 0%N)) as [E|_]; [discriminate|].
  destruct (parseDigits_pretty_N_go (N.pos p) "" 0) as (k & _ & E).
  rewrite E. cbn [Go.parseDigits]. f_equal.
Qed.

(** ** The helpers and the handler of the Go backend *)

Section GoHelpers.
Context {W : Type}.
Variable rand_Float64 : W -> float * W.
Variable rand_Intn : Z -> W -> Z * W.
Variable time_Now : W -> Z * W.
Variable formatRFC3339 : Z -> string.
Hypothesis Float64_unit : forall w, unit_interval (fst (rand_Float64 w)).
Hypothesis Intn_range : forall n w, 0 < n -> 0 <= fst (rand_Intn n w) < n.

Lemma succeeds_keyLoop_alphabet (n : nat) (Q : string -> W -> Prop) w :
  (forall s w', String.length s = n -> overAlphabet Go.chars s = true -> Q s w') ->
  succeeds (Go.keyLoop rand_Intn n) Q w.
Proof.
  revert Q w. induction n as [|n IH]; intros Q w HQ.
  - apply succeeds_ret, HQ; reflexivity.
  - cbn [Go.keyLoop].
    apply succeeds_bind, succeeds_Intn; [exact Intn_range|reflexivity|]. intros i w1 Hi.
    apply succeeds_bind.
    destruct (chars_get (Z.to_nat i)) as [c Hc];
      [change (String.length Go.chars) with 62%nat in Hi; lia|].
    rewrite Hc. apply succeeds_ret.
    apply succeeds_bind, IH. intros rest w2 Hrest Hover.
    apply succeeds_ret, HQ; [cbn; rewrite Hrest; reflexivity|].
    cbn [overAlphabet]. rewrite (get_occurs _ _ _ Hc), Hover. reflexivity.
Qed.

Lemma succeeds_assertString (s : string) (Q : string -> W -> Prop) w :
  Q s w -> succeeds (Go.assertString (VString s)) Q w.
Proof. intros H. exact H. Qed.

Lemma succeeds_newMetadata_fields (Q : list (string * Value) -> W -> Prop) w :
  (forall m w', goMetadataOk m -> Q m w') ->
  succeeds (Go.newMetadata rand_Float64 rand_Intn time_Now formatRFC3339) Q w.
Proof.
  intros HQ. unfold Go.newMetadata.
  apply succeeds_bind, succeeds_getRandomItem_strings; [exact Intn_range|discriminate|].
  intros a wa Ha. apply succeeds_bind, succeeds_ret.
  apply succeeds_bind, succeeds_getRandomItem_strings; [exact Intn_range|discriminate|].
  intros n wn Hn. apply succeeds_bind, succeeds_ret.
  apply succeeds_bind, succeeds_getRandomItem_strings; [exact Intn_range|discriminate|].
  intros ty wt Hty. apply succeeds_bind, succeeds_ret.
  apply succeeds_bind, succeeds_getRandomItem_strings; [exact Intn_range|discriminate|].
  intros category wc Hcat. apply succeeds_bind, succeeds_ret.
  apply succeeds_bind, succeeds_getRandomItem_ints; [exact Intn_range|discriminate|].
  intros rating wr Hrating. apply succeeds_bind, succeeds_ret.
  apply succeeds_bind, succeeds_getRandomNumber; [exact Float64_unit|]. intros value wv.
  apply succeeds_bind, succeeds_getRandomItem_strings; [exact Intn_range|discriminate|].
  intros status ws Hstatus. apply succeeds_bind, succeeds_ret.
  apply succeeds_bind, succeeds_getRandomItem_strings; [exact Intn_range|discriminate|].
  intros priority wp Hpriority. apply succeeds_bind, succeeds_ret.
  apply succeeds_bind, succeeds_getRandomItem_strings; [exact Intn_range|discriminate|].
  intros region wg Hregion. apply succeeds_bind, succeeds_ret.
  apply succeeds_bind, succeeds_getRandomItem_strings; [exact Intn_range|discriminate|].
  intros department wd Hdepartment. apply succeeds_bind, succeeds_ret.
  apply succeeds_bind, succeeds_lift.
  apply succeeds_bind, succeeds_Intn; [exact Intn_range|reflexivity|]. intros days w1 Hdays.
  apply succeeds_bind, succeeds_Float64; [exact Float64_unit|]. intros active w2 _.
  apply succeeds_bind, succeeds_Intn; [exact Intn_range|reflexivity|]. intros score w3 Hscore.
  apply succeeds_bind, succeeds_getRandomItems;
    [exact Intn_range|lia|unfold Go.len; cbn; lia|].
  intros tags w4 Hlen (l' & Hperm & Htake).
  destruct (take_perm_clusters _ _ _ _ sampleAttributes_NoDup Hperm Htake) as [Hnd Hsub].
  apply succeeds_ret, HQ.
  do 14 eexists. split; [reflexivity|].
  repeat (split; [assumption|]). split; [lia|].
  split; [unfold Go.len in Hlen; lia|]. split; assumption.
Qed.


Lemma succeeds_newItem_fields (centers : list (list float)) (d i : Z)
    (Q : Go.VectorItem -> W -> Prop) w :
  0 <= d -> centersOk Go.sampleClusters (Z.to_nat d) centers ->
  (forall it w', goItemOk centers i it -> goItemFields it -> Q it w') ->
  succeeds (Go.newItem rand_Float64 rand_Intn time_Now formatRFC3339 centers d i) Q w.
Proof.
  intros Hd [Hclen Hcs] HQ. unfold Go.newItem.
  apply succeeds_bind, succeeds_getRandomItems;
    [exact Intn_range|lia|unfold Go.len; cbn; lia|].
  intros clusters w1 Hlen (l' & Hperm & Htake).
  destruct (take_perm_clusters _ _ _ _ sampleClusters_NoDup Hperm Htake) as [Hnd Hsub].
  apply succeeds_bind, succeeds_index; [lia|]. intros c0 Hc0.
  destruct (findIndex_lookup Go.sampleClusters c0 0) as (idx & Hidx & Efind).
  { apply Hsub. eapply list_elem_of_lookup_2, Hc0. }
  rewrite Efind, Z.add_0_l.
  pose proof (lookup_lt_Some _ _ _ Hidx) as Hidxlt.
  apply succeeds_bind, succeeds_index; [unfold Go.len; lia|].
  rewrite Nat2Z.id. intros center Hcenter.
  pose proof (proj1 (Forall_lookup _ _) Hcs idx center Hcenter) as [Hclen' Hcrange].
  apply succeeds_bind, succeeds_make; [exact Hd|].
  apply succeeds_bind. change 0 with (Z.of_nat 0).
  apply succeeds_fillVector; [exact Float64_unit|rewrite length_replicate; cbn; lia|].
  intros vector w2 Hvlen _ Hnear. rewrite length_replicate in Hvlen.
  apply succeeds_bind, succeeds_newMetadata_fields. intros metadata w3 Hmeta.
  apply succeeds_bind. unfold Go.generateRandomKey.
  apply succeeds_bind, succeeds_make; [lia|].
  apply succeeds_keyLoop_alphabet. intros key w4 Hklen Hkey.
  apply succeeds_ret, HQ.
  - split; [reflexivity|]. cbn [Go.Clusters Go.Vector]. split.
    + split; [unfold Go.len in Hlen; lia|]. split; assumption.
    + exists c0, idx, center. repeat split; try assumption.
      apply Forall2_same_length_lookup_2; [lia|].
      intros k c v Hc Hv. destruct (Hnear k c Hc) as (noise & Hn & E).
      cbn in E. rewrite E in Hv. injection Hv as <-. eauto.
  - repeat split; assumption.
Qed.

Lemma succeeds_itemLoop_fields (centers : list (list float)) (d : Z) (remaining : nat) (i : Z)
    (data : list Go.VectorItem) (Q : list Go.VectorItem -> W -> Prop) w :
  0 <= d -> centersOk Go.sampleClusters (Z.to_nat d) centers ->
  (forall new w',
      length new = remaining ->
      (forall k it, new !! k = Some it ->
         goItemOk centers (i + Z.of_nat k) it /\ goItemFields it) ->
      Q (data ++ new) w') ->
  succeeds (Go.itemLoop rand_Float64 rand_Intn time_Now formatRFC3339
              centers d remaining i data) Q w.
Proof.
  intros Hd Hc. revert i data Q w.
  induction remaining as [|r IH]; intros i data Q w HQ.
  - apply succeeds_ret. rewrite <- (app_nil_r data). apply HQ; [reflexivity|].
    intros k it Hk. discriminate.
  - cbn [Go.itemLoop].
    apply succeeds_bind, succeeds_newItem_fields; [exact Hd|exact Hc|]. intros it w1 Hit Hf.
    apply IH. intros new w2 Hlen Hnew.
    rewrite <- app_assoc. apply HQ; [cbn; lia|].
    intros [|k] it' Hk.
    + injection Hk as <-. rewrite Z.add_0_r. split; assumption.
    + replace (i + Z.of_nat (S k)) with (i + 1 + Z.of_nat k) by lia.
      apply Hnew. exact Hk.
Qed.

(** The Go generator on valid arguments, with everything an item carries. *)
Lemma generateVectorData_fields (limit d : Z) w :
  0 <= limit -> 0 <= d ->
  exists data w' centers,
    Go.generateVectorData rand_Float64 rand_Intn time_Now formatRFC3339 limit d w = Ok (data, w')
    /\ Go.len data = limit
    /\ centersOk Go.sampleClusters (Z.to_nat d) centers
    /\ forall k it, data !! k = Some it ->
         goItemOk centers (Z.of_nat k) it /\ goItemFields it.
Proof.
  intros Hl Hd.
  assert (H : succeeds (Go.generateVectorData rand_Float64 rand_Intn time_Now formatRFC3339
                          limit d)
                (fun data _ =>
                   Go.len data = limit
                   /\ exists centers,
                        centersOk Go.sampleClusters (Z.to_nat d) centers
                        /\ forall k it, data !! k = Some it ->
                             goItemOk centers (Z.of_nat k) it /\ goItemFields it) w).
  { unfold Go.generateVectorData.
    apply succeeds_bind, succeeds_newCenters; [exact Float64_unit|exact Hd|].
    intros centers w1 Hk Hcs.
    assert (Hc : centersOk Go.sampleClusters (Z.to_nat d) centers) by (split; assumption).
    apply succeeds_bind, succeeds_makeCap; [exact Hl|].
    apply succeeds_itemLoop_fields; [exact Hd|exact Hc|].
    intros new w2 Hlen Hnew. cbn [app]. split; [unfold Go.len; lia|].
    exists centers. split; [exact Hc|]. intros j it Hj.
    rewrite <- (Z.add_0_l (Z.of_nat j)). apply Hnew, Hj. }
  apply succeeds_inv in H as (data & w' & E & Hlen & centers & Hc & Hitems).
  exists data, w', centers. auto.
Qed.

(** Every way [getRandomItems] can end, in the order of its checks: the
    argument of [rand.Intn], the capacity of [result], the length of the
    copy, and the bounds of the final slice expression. *)
Lemma getRandomItems_outcome (items : list string) (minItems maxItems : Z) (w : W) :
  forall n k,
    n = Go64.int (maxItems - minItems + 1) ->
    k = Go64.int (fst (rand_Intn n w) + minItems) ->
    (n <= 0 ->
     Go64.getRandomItems rand_Intn items minItems maxItems w
     = Err (Panic "invalid argument to Intn"))
    /\ (0 < n -> k < 0 \/ Go64.maxAlloc < Go64.sizeofString * k ->
        Go64.getRandomItems rand_Intn items minItems maxItems w
        = Err (Panic "makeslice: cap out of range"))
    /\ (0 < n -> 0 <= k -> Go64.sizeofString * k <= Go64.maxAlloc ->
        Go64.maxAlloc < Go64.sizeofString * Go.len items ->
        Go64.getRandomItems rand_Intn items minItems maxItems w
        = Err (Panic "makeslice: len out of range"))
    /\ (0 < n -> 0 <= k -> Go64.sizeofString * k <= Go64.maxAlloc ->
        Go64.sizeofString * Go.len items <= Go64.maxAlloc ->
        Go.len items < k ->
        Go64.getRandomItems rand_Intn items minItems maxItems w
        = Err (Panic "slice bounds out of range"))
    /\ (0 < n -> 0 <= k <= Go.len items ->
        Go64.sizeofString * Go.len items <= Go64.maxAlloc ->
        exists r w' shuffled,
          Go64.getRandomItems rand_Intn items minItems maxItems w = Ok (r, w')
          /\ shuffled ≡ₚ items /\ r = take (Z.to_nat k) shuffled).
Proof.
  intros n k En Enum. unfold Go64.getRandomItems. rewrite <- En.
  split.
  { intros Hn. unfold bind, Go.Intn. rewrite (proj2 (Z.leb_le n 0)) by lia. reflexivity. }
  assert (Hrun : 0 < n ->
            Go64.getRandomItems rand_Intn items minItems maxItems w
            = (_ <- Go64.makeCap Go64.sizeofString k;;
               _ <- Go64.make Go64.sizeofString (Go.len items);;
               shuffled <- Go.shuffleLoop rand_Intn (length items - 1) items;;
               Go.prefix shuffled k) (snd (rand_Intn n w))).
  { intros Hn. unfold Go64.getRandomItems. rewrite <- En. unfold bind at 1, Go.Intn.
    rewrite (proj2 (Z.leb_gt n 0)) by lia. unfold lift. rewrite Enum.
    destruct (rand_Intn n w) as [r w1]. reflexivity. }
  unfold Go64.getRandomItems in Hrun. rewrite <- En in Hrun.
  assert (Hshuffle : forall w1, exists l' w2,
             Go.shuffleLoop rand_Intn (length items - 1) items w1 = Ok (l', w2)
             /\ l' ≡ₚ items).
  { intros w1.
    assert (H : succeeds (Go.shuffleLoop rand_Intn (length items - 1) items)
                  (fun l' _ => l' ≡ₚ items) w1)
      by (apply succeeds_shuffleLoop; [exact Intn_range|lia|auto]).
    apply succeeds_inv in H as (l' & w2 & E & Hperm). eauto. }
  assert (Hlen0 : 0 <= Go.len items) by (unfold Go.len; lia).
  repeat apply conj.
  - intros Hn H. rewrite (Hrun Hn). unfold bind. rewrite makeCap_beyond by exact H. reflexivity.
  - intros Hn H0 Hs Hbig. rewrite (Hrun Hn). unfold bind.
    rewrite makeCap_within by assumption. rewrite make_beyond by (right; exact Hbig). reflexivity.
  - intros Hn H0 Hs Hfit Hbig. rewrite (Hrun Hn). unfold bind.
    rewrite makeCap_within, make_within by assumption.
    destruct (Hshuffle (snd (rand_Intn n w))) as (l' & w2 & -> & Hperm).
    unfold Go.prefix.
    assert (El : Go.len l' = Go.len items) by (unfold Go.len; rewrite Hperm; reflexivity).
    rewrite El, (proj2 (Z.ltb_lt (Go.len items) k)) by lia.
    rewrite orb_true_r. reflexivity.
  - intros Hn H0 Hfit. rewrite (Hrun Hn). unfold bind.
    rewrite makeCap_within, make_within
      by (unfold Go64.sizeofString, Go64.maxAlloc in *; lia).
    destruct (Hshuffle (snd (rand_Intn n w))) as (l' & w2 & -> & Hperm).
    unfold Go.prefix.
    assert (El : Go.len l' = Go.len items) by (unfold Go.len; rewrite Hperm; reflexivity).
    rewrite El, (proj2 (Z.ltb_ge k 0)), (proj2 (Z.ltb_ge (Go.len items) k)) by lia.
    exists (take (Z.to_nat k) l'), w2, l'. auto.
Qed.


(** X1.  [getRandomItem] of the Go backend: on a non-empty [[]string] it
    returns one of the strings of the slice, on a non-empty [[]int] one of
    its integers; on an empty slice it panics, since [rand.Intn(0)] does;
    on a value of any other type it returns [nil] and draws nothing. *)
Theorem Go_getRandomItem_of_slice (v : list string) (z : list Z) (other : Value) (w : W) :
  (v <> [] ->
   exists s w', Go.getRandomItem rand_Intn (VStrings v) w = Ok (VString s, w') /\ s ∈ v)
  /\ (z <> [] ->
      exists n w', Go.getRandomItem rand_Intn (VInts z) w = Ok (VInt n, w') /\ n ∈ z)
  /\ Go.getRandomItem rand_Intn (VStrings []) w = Err (Panic "invalid argument to Intn")
  /\ Go.getRandomItem rand_Intn (VInts []) w = Err (Panic "invalid argument to Intn")
  /\ ((forall l, other <> VStrings l) -> (forall l, other <> VInts l) ->
      Go.getRandomItem rand_Intn other w = Ok (VUndefined, w)).
Proof.
  split; [|split; [|split; [|split]]].
  - intros Hv.
    assert (H : succeeds (Go.getRandomItem rand_Intn (VStrings v))
                  (fun x _ => exists s, x = VString s /\ s ∈ v) w).
    { apply succeeds_getRandomItem_strings; [exact Intn_range|exact Hv|]. eauto. }
    apply succeeds_inv in H as (x & w' & E & s & -> & Hs). eauto.
  - intros Hz.
    assert (H : succeeds (Go.getRandomItem rand_Intn (VInts z))
                  (fun x _ => exists n, x = VInt n /\ n ∈ z) w).
    { apply succeeds_getRandomItem_ints; [exact Intn_range|exact Hz|]. eauto. }
    apply succeeds_inv in H as (x & w' & E & n & -> & Hn). eauto.
  - reflexivity.
  - reflexivity.
  - intros Hs Hi. destruct other; try reflexivity; [destruct (Hs l)|destruct (Hi l)]; reflexivity.
Qed.

(** X2.  [getRandomItems] of the Go backend, called with
    [0 <= minItems <= maxItems <= len(items)]: it does not panic and returns
    between [minItems] and [maxItems] entries, which are a prefix of a
    rearrangement of [items]; so every entry comes from [items], and the
    entries are pairwise distinct when those of [items] are. *)
Theorem Go_getRandomItems_contract (items : list string) (minItems maxItems : Z) (w : W) :
  0 <= minItems <= maxItems -> maxItems <= Go.len items ->
  exists r w' shuffled,
    Go.getRandomItems rand_Intn items minItems maxItems w = Ok (r, w')
    /\ minItems <= Go.len r <= maxItems
    /\ shuffled ≡ₚ items /\ r = take (length r) shuffled
    /\ r ⊆ items /\ (NoDup items -> NoDup r).
Proof.
  intros Hmin Hmax.
  assert (H : succeeds (Go.getRandomItems rand_Intn items minItems maxItems)
                (fun r _ => minItems <= Go.len r <= maxItems
                            /\ exists l', l' ≡ₚ items /\ r = take (length r) l') w).
  { apply succeeds_getRandomItems; [exact Intn_range|exact Hmin|exact Hmax|]. auto. }
  apply succeeds_inv in H as (r & w' & E & Hlen & l' & Hperm & Htake).
  exists r, w', l'. repeat split; try assumption; try lia.
  - intros x Hx. rewrite <- Hperm. rewrite Htake in Hx. exact (subseteq_take _ l' x Hx).
  - intros Hnd. exact (proj1 (take_perm_clusters _ _ _ _ Hnd Hperm Htake)).
Qed.

(** X3.  When [getRandomItems] of the Go backend panics in [rand.Intn]:
    for bounds in the range of an [int], exactly when the 64-bit value of
    [maxItems-minItems+1] is not positive.  That is so when
    [maxItems < minItems], unless the bounds are more than 2^63 + 1 apart,
    where the difference wraps around to a positive number and
    [rand.Intn] is content; and it is so for [minItems <= maxItems] that
    are 2^63 - 1 or more apart, where the difference wraps around to a
    negative one. *)
Theorem Go_getRandomItems_inverted_bounds (items : list string) (minItems maxItems : Z) (w : W) :
  - 2 ^ 63 <= minItems < 2 ^ 63 -> - 2 ^ 63 <= maxItems < 2 ^ 63 ->
  (Go64.getRandomItems rand_Intn items minItems maxItems w
   = Err (Panic "invalid argument to Intn")
   <-> (maxItems < minItems <= maxItems + 2 ^ 63 + 1) \/ 2 ^ 63 - 1 <= maxItems - minItems).
Proof.
  intros Hmin Hmax. rewrite <- (int_span minItems maxItems Hmin Hmax).
  destruct (getRandomItems_outcome items minItems maxItems w _ _ eq_refl eq_refl)
    as (H1 & H2 & H3 & H4 & H5).
  split; [|exact H1].
  intros E.
  destruct (Z_le_gt_dec (Go64.int (maxItems - minItems + 1)) 0) as [Hn|Hn]; [exact Hn|].
  exfalso. apply Z.gt_lt in Hn.
  set (numItems := Go64.int (fst (rand_Intn (Go64.int (maxItems - minItems + 1)) w) + minItems))
    in *.
  destruct (Z_lt_le_dec numItems 0) as [Hneg|Hpos];
    [rewrite (H2 Hn (or_introl Hneg)) in E; discriminate|].
  destruct (Z_lt_le_dec Go64.maxAlloc (Go64.sizeofString * numItems)) as [Hbig|Hfit];
    [rewrite (H2 Hn (or_intror Hbig)) in E; discriminate|].
  destruct (Z_lt_le_dec Go64.maxAlloc (Go64.sizeofString * Go.len items)) as [Hbig|Hfit'];
    [rewrite (H3 Hn Hpos Hfit Hbig) in E; discriminate|].
  destruct (Z_lt_le_dec (Go.len items) numItems) as [Hlong|Hshort];
    [rewrite (H4 Hn Hpos Hfit Hfit' Hlong) in E; discriminate|].
  destruct (H5 Hn (conj Hpos Hshort) Hfit') as (r & w' & l' & E' & _).
  rewrite E' in E. discriminate.
Qed.

(** X4.  [getRandomItems] of the Go backend does not clamp the number of
    entries it draws, [numItems = rand.Intn(maxItems-minItems+1) + minItems]
    in 64-bit arithmetic, to the slice it is given (a slice that exists:
    [len(items)] strings of 16 bytes fit the largest allocation).  A
    [numItems] that is negative, or too large for [make], panics in the
    [make] of [result]; one that [make] accepts but that is larger than
    [len(items)] panics in the final [shuffled[:numItems]]; any other is
    the length of the result. *)
Theorem Go_getRandomItems_beyond_length (items : list string) (minItems maxItems : Z) (w : W) :
  0 < Go64.int (maxItems - minItems + 1) ->
  Go64.sizeofString * Go.len items <= Go64.maxAlloc ->
  (numItems rand_Intn minItems maxItems w < 0
   \/ Go64.maxAlloc < Go64.sizeofString * numItems rand_Intn minItems maxItems w ->
   Go64.getRandomItems rand_Intn items minItems maxItems w
   = Err (Panic "makeslice: cap out of range"))
  /\ (Go.len items < numItems rand_Intn minItems maxItems w ->
      Go64.sizeofString * numItems rand_Intn minItems maxItems w <= Go64.maxAlloc ->
      Go64.getRandomItems rand_Intn items minItems maxItems w
      = Err (Panic "slice bounds out of range"))
  /\ (0 <= numItems rand_Intn minItems maxItems w <= Go.len items ->
      exists r w',
        Go64.getRandomItems rand_Intn items minItems maxItems w = Ok (r, w')
        /\ Go.len r = numItems rand_Intn minItems maxItems w
        /\ r ⊆ items).
Proof.
  intros Hn Hfit.
  destruct (getRandomItems_outcome items minItems maxItems w _ _ eq_refl eq_refl)
    as (_ & H2 & _ & H4 & H5).
  fold (numItems rand_Intn minItems maxItems w) in H2, H4, H5.
  set (n := numItems rand_Intn minItems maxItems w) in *.
  assert (Hlen0 : 0 <= Go.len items) by (unfold Go.len; lia).
  repeat apply conj.
  - intros H. exact (H2 Hn H).
  - intros Hlong Hs. apply H4; try assumption. lia.
  - intros Hin. destruct (H5 Hn Hin Hfit) as (r & w' & l' & E & Hperm & ->).
    exists (take (Z.to_nat n) l'), w'. split; [exact E|]. split.
    + unfold Go.len in *. rewrite length_take, Hperm. lia.
    + intros x Hx. rewrite <- Hperm. exact (subseteq_take _ l' x Hx).
Qed.

(** X5.  [generateRandomKey] of the Go backend: for a [length] from 0 to
    the largest allocation of 2^48 bytes it returns a string of exactly
    [length] characters, each one of the 62 letters and digits of [chars];
    for a negative or a larger [length] the [make] panics. *)
Theorem Go_generateRandomKey_result (length : Z) (w : W) :
  (length < 0 \/ Go64.maxAlloc < length ->
   Go64.generateRandomKey rand_Intn length w = Err (Panic "makeslice: len out of range"))
  /\ (0 <= length <= Go64.maxAlloc ->
      exists s w', Go64.generateRandomKey rand_Intn length w = Ok (s, w')
                   /\ Z.of_nat (String.length s) = length
                   /\ overAlphabet Go.chars s = true).
Proof.
  split.
  - intros H. unfold Go64.generateRandomKey, bind.
    rewrite make_beyond by (unfold Go64.sizeofByte; lia). reflexivity.
  - intros H. rewrite generateRandomKey_agrees by exact H.
    assert (Hs : succeeds (Go.generateRandomKey rand_Intn length)
                   (fun s _ => Z.of_nat (String.length s) = length
                               /\ overAlphabet Go.chars s = true) w).
    { unfold Go.generateRandomKey. apply succeeds_bind, succeeds_make; [lia|].
      apply succeeds_keyLoop_alphabet. intros s w' Hlen Hover. split; [lia|exact Hover]. }
    apply succeeds_inv in Hs as (s & w' & E & Hlen & Hover). eauto.
Qed.

(** X6.  Every item of [generateVectorData] carries exactly the thirteen
    metadata keys of the map literal (listed here in the order of the
    literal): name is an attribute, a space and a name; type, category,
    rating, status, priority, region and department are entries of their
    sample lists; score is between 1 and 100; tags are at most five
    pairwise distinct attributes. *)
Theorem Go_items_metadata (limit d : Z) (w : W) :
  0 <= limit -> 0 <= d ->
  exists data w',
    Go.generateVectorData rand_Float64 rand_Intn time_Now formatRFC3339 limit d w = Ok (data, w')
    /\ forall it, it ∈ data -> goMetadataOk (Go.Metadata it).
Proof.
  intros Hl Hd.
  destruct (generateVectorData_fields limit d w Hl Hd) as (data & w' & cs & E & _ & _ & H).
  exists data, w'. split; [exact E|]. intros it Hit.
  apply list_elem_of_lookup in Hit as [k Hk]. exact (proj1 (proj2 (H k it Hk))).
Qed.

(** X7.  Every item of [generateVectorData] has a key of exactly eight
    characters, each a letter or a digit of [chars]. *)
Theorem Go_items_keys (limit d : Z) (w : W) :
  0 <= limit -> 0 <= d ->
  exists data w',
    Go.generateVectorData rand_Float64 rand_Intn time_Now formatRFC3339 limit d w = Ok (data, w')
    /\ forall it, it ∈ data ->
         String.length (Go.Key it) = 8%nat /\ overAlphabet Go.chars (Go.Key it) = true.
Proof.
  intros Hl Hd.
  destruct (generateVectorData_fields limit d w Hl Hd) as (data & w' & cs & E & _ & _ & H).
  exists data, w'. split; [exact E|]. intros it Hit.
  apply list_elem_of_lookup in Hit as [k Hk]. exact (proj2 (proj2 (H k it Hk))).
Qed.

(** X8.  The IDs of the items of [generateVectorData] are the decimal
    numerals of their positions 0, 1, 2, ...: [strconv.Atoi] reads the ID
    of the item at position k back as k, and no two items of a result have
    the same ID. *)
Theorem Go_items_ids_distinct (limit d : Z) (w : W) :
  0 <= limit < 2 ^ 63 -> 0 <= d ->
  exists data w',
    Go.generateVectorData rand_Float64 rand_Intn time_Now formatRFC3339 limit d w = Ok (data, w')
    /\ (forall k it, data !! k = Some it ->
          Go.ID it = Go.Itoa (Z.of_nat k) /\ Go.Atoi (Go.ID it) = Some (Z.of_nat k))
    /\ (forall i j a b, data !! i = Some a -> data !! j = Some b ->
                        Go.ID a = Go.ID b -> i = j).
Proof.
  intros Hl Hd.
  destruct (generateVectorData_fields limit d w ltac:(lia) Hd)
    as (data & w' & cs & E & Hlen & _ & H).
  exists data, w'. split; [exact E|].
  assert (Hid : forall k it, data !! k = Some it -> Go.ID it = Go.Itoa (Z.of_nat k)).
  { intros k it Hk. exact (proj1 (proj1 (H k it Hk))). }
  split.
  - intros k it Hk. split; [exact (Hid k it Hk)|]. rewrite (Hid k it Hk).
    apply Atoi_Itoa. apply lookup_lt_Some in Hk. unfold Go.len in Hlen. lia.
  - intros i j a b Ha Hb Eab.
    rewrite (Hid i a Ha), (Hid j b Hb) in Eab. unfold Go.Itoa in Eab.
    apply (inj pretty) in Eab. lia.
Qed.

(** X9.  What [handleVectorData] does with a request, whatever the query
    strings are: OPTIONS is answered with status 200 and any method other
    than GET with the error 405, both without drawing a random number.
    GET is answered with the JSON body when the parsed limit and
    dimensions are within the limits of [make] (limit items of 88 bytes,
    dimensions numbers of 8 bytes, at most 2^48 bytes each): its [total]
    is the number of items, which is the parsed limit, and every vector
    has the parsed number of dimensions.  The handler puts no bound of its
    own on them: beyond the limits the generator panics and the handler
    does not answer. *)
Theorem Go_handleVectorData_answers (method limitStr dimensionsStr : string) (w : W) :
  (method = "OPTIONS"%string ->
   Go64.handleVectorData rand_Float64 rand_Intn time_Now formatRFC3339
     method limitStr dimensionsStr w = Ok (Go.Status 200, w))
  /\ (method <> "OPTIONS"%string -> method <> "GET"%string ->
      Go64.handleVectorData rand_Float64 rand_Intn time_Now formatRFC3339
        method limitStr dimensionsStr w = Ok (Go.HttpError "Method not allowed" 405, w))
  /\ (method = "GET"%string ->
      Go64.sizeofVectorItem * fst (Go.parseQuery limitStr dimensionsStr) <= Go64.maxAlloc ->
      Go64.sizeofFloat64 * snd (Go.parseQuery limitStr dimensionsStr) <= Go64.maxAlloc ->
      exists data w',
        Go64.handleVectorData rand_Float64 rand_Intn time_Now formatRFC3339
          method limitStr dimensionsStr w = Ok (Go.Json data (Go.len data), w')
        /\ Go.len data = fst (Go.parseQuery limitStr dimensionsStr)
        /\ forall it, it ∈ data ->
             Go.len (Go.Vector it) = snd (Go.parseQuery limitStr dimensionsStr))
  /\ (method = "GET"%string ->
      Go64.maxAlloc < Go64.sizeofFloat64 * snd (Go.parseQuery limitStr dimensionsStr) ->
      Go64.handleVectorData rand_Float64 rand_Intn time_Now formatRFC3339
        method limitStr dimensionsStr w = Err (Panic "makeslice: len out of range"))
  /\ (method = "GET"%string ->
      Go64.sizeofFloat64 * snd (Go.parseQuery limitStr dimensionsStr) <= Go64.maxAlloc ->
      Go64.maxAlloc < Go64.sizeofVectorItem * fst (Go.parseQuery limitStr dimensionsStr) ->
      Go64.handleVectorData rand_Float64 rand_Intn time_Now formatRFC3339
        method limitStr dimensionsStr w = Err (Panic "makeslice: cap out of range")).
Proof.
  unfold Go64.handleVectorData.
  destruct (String.eqb_spec method "OPTIONS") as [->|Hopt].
  { repeat apply conj; try reflexivity; try discriminate. congruence. }
  destruct (String.eqb_spec method "GET") as [->|Hget]; cbn [negb].
  2:{ repeat apply conj; try reflexivity; congruence. }
  destruct (parseQuery_positive limitStr dimensionsStr) as (limit & dims & E & Hl & Hd).
  rewrite E. cbn [fst snd].
  repeat apply conj; try congruence.
  - intros _ Hls Hds.
    destruct (generateVectorData_fields limit dims w) as (data & w' & cs & Eg & Hlen & Hcs & Hit);
      [lia..|].
    rewrite <- (generateVectorData_agrees _ _ _ _ Intn_range) in Eg by (assumption || lia).
    unfold bind. rewrite Eg. exists data, w'. split; [reflexivity|]. split; [exact Hlen|].
    intros it Hin. apply list_elem_of_lookup in Hin as [k Hk].
    destruct (Hit k it Hk) as [(_ & _ & Hprim) _].
    unfold Go.len. rewrite (primaryOk_length _ _ _ _ _ Hcs Hprim). lia.
  - intros _ Hds. unfold bind.
    rewrite generateVectorData_dimensions_beyond by (right; exact Hds). reflexivity.
  - intros _ Hds Hls. unfold bind.
    rewrite generateVectorData_limit_beyond by (assumption || lia || (right; exact Hls)).
    reflexivity.
Qed.

(** X10.  The handler takes a positive numeral as it is: a GET whose
    [limit] and [dimensions] are the decimal numerals of [n] and [d], both
    positive and in the range of an [int], reaches the generator with [n]
    and [d].  Within the limits of [make] it is answered with exactly [n]
    items and [total = n], every vector of [d] components; a larger [d]
    makes the [make] of the first center panic, and a larger [n] the
    [make] of the result, so a request for 4000000000000 items is not
    answered. *)
Theorem Go_handler_honours_numerals (n d : Z) (w : W) :
  0 < n < 2 ^ 63 -> 0 < d < 2 ^ 63 ->
  (Go64.sizeofVectorItem * n <= Go64.maxAlloc -> Go64.sizeofFloat64 * d <= Go64.maxAlloc ->
   exists data w',
     Go64.handleVectorData rand_Float64 rand_Intn time_Now formatRFC3339
       "GET" (Go.Itoa n) (Go.Itoa d) w = Ok (Go.Json data n, w')
     /\ Go.len data = n
     /\ forall it, it ∈ data -> Go.len (Go.Vector it) = d)
  /\ (Go64.maxAlloc < Go64.sizeofFloat64 * d ->
      Go64.handleVectorData rand_Float64 rand_Intn time_Now formatRFC3339
        "GET" (Go.Itoa n) (Go.Itoa d) w = Err (Panic "makeslice: len out of range"))
  /\ (Go64.sizeofFloat64 * d <= Go64.maxAlloc -> Go64.maxAlloc < Go64.sizeofVectorItem * n ->
      Go64.handleVectorData rand_Float64 rand_Intn time_Now formatRFC3339
        "GET" (Go.Itoa n) (Go.Itoa d) w = Err (Panic "makeslice: cap out of range")).
Proof.
  intros Hn Hd. unfold Go64.handleVectorData. cbn [String.eqb Ascii.eqb Bool.eqb negb].
  assert (Eq : Go.parseQuery (Go.Itoa n) (Go.Itoa d) = (n, d)).
  { unfold Go.parseQuery.
    assert (Hne : forall k, 0 < k < 2 ^ 63 -> String.eqb (Go.Itoa k) "" = false).
    { intros k Hk. apply String.eqb_neq. intros E0.
      pose proof (Atoi_Itoa k ltac:(lia)) as HA. rewrite E0 in HA. discriminate. }
    rewrite !Hne, !Atoi_Itoa by lia.
    rewrite (proj2 (Z.ltb_lt 0 n)), (proj2 (Z.ltb_lt 0 d)) by lia. reflexivity. }
  rewrite Eq. repeat apply conj.
  - intros Hns Hds.
    destruct (generateVectorData_fields n d w) as (data & w' & cs & Eg & Hlen & Hcs & Hit);
      [lia..|].
    rewrite <- (generateVectorData_agrees _ _ _ _ Intn_range) in Eg by (assumption || lia).
    unfold bind. rewrite Eg. exists data, w'. rewrite Hlen.
    split; [reflexivity|]. split; [reflexivity|].
    intros it Hin. apply list_elem_of_lookup in Hin as [k Hk].
    destruct (Hit k it Hk) as [(_ & _ & Hprim) _].
    unfold Go.len. rewrite (primaryOk_length _ _ _ _ _ Hcs Hprim). lia.
  - intros Hds. unfold bind.
    rewrite generateVectorData_dimensions_beyond by (right; exact Hds). reflexivity.
  - intros Hds Hns. unfold bind.
    rewrite generateVectorData_limit_beyond by (assumption || lia || (right; exact Hns)).
    reflexivity.
Qed.

End GoHelpers.

(** ** Slices and strings of the mock service *)

Lemma slice_0_take {A} (l : list A) (n : Z) :
  0 <= n -> slice l 0 n = take (Z.to_nat n) l.
Proof.
  intros Hn. unfold slice, sliceIndex. cbn [Z.ltb Z.compare].
  rewrite (proj2 (Z.ltb_ge n 0)) by lia.
  replace (Z.min 0 (Z.of_nat (length l))) with 0 by lia.
  rewrite Z.sub_0_r. change (drop (Z.to_nat 0) l) with l.
  destruct (Z_le_gt_dec n (Z.of_nat (length l))) as [Hle|Hgt].
  - rewrite Z.min_l by lia. reflexivity.
  - rewrite Z.min_r by lia. rewrite Nat2Z.id.
    rewrite (take_ge l (length l)) by lia.
    rewrite (take_ge l (Z.to_nat n)) by lia. reflexivity.
Qed.

Lemma overAlphabet_app (alphabet s t : string) :
  overAlphabet alphabet s = true -> overAlphabet alphabet t = true ->
  overAlphabet alphabet (s +:+ t) = true.
Proof.
  intros Hs Ht. induction s as [|c s IH]; [exact Ht|].
  cbn [overAlphabet] in Hs. apply andb_true_iff in Hs as [Hc Hs].
  change (String c s +:+ t) with (String c (s +:+ t)). cbn [overAlphabet].
  rewrite Hc, (IH Hs). reflexivity.
Qed.

Lemma length_append (s t : string) :
  String.length (s +:+ t) = (String.length s + String.length t)%nat.
Proof.
  induction s as [|c s IH]; [reflexivity|].
  change (String c s +:+ t) with (String c (s +:+ t)). cbn [String.length].
  rewrite IH. reflexivity.
Qed.

Lemma attributes_NoDup : NoDup Mock.SAMPLE_METADATA.attributes.
Proof. apply (bool_decide_unpack _). vm_compute. exact I. Qed.

(** ** The helpers of the mock service *)

Section MockHelpers.
Context {W : Type}.
Variable Math_random : W -> float * W.
Variable Date_now : W -> float * W.
Variable toISOString : float -> string.
Variable Array_sort : forall A : Type, (A -> A -> W -> float * W) -> list A -> W -> list A * W.
Hypothesis random_unit : forall w, unit_interval (fst (Math_random w)).
Hypothesis sort_permutation :
  forall (A : Type) (cmp : A -> A -> W -> float * W) (l : list A) w,
    fst (Array_sort A cmp l w) ≡ₚ l.

Lemma succeeds_getRandomItem_member {A} (array : list A) (Q : option A -> W -> Prop) w :
  array <> [] -> Z.of_nat (length array) < 2 ^ 53 ->
  (forall a w', a ∈ array -> Q (Some a) w') ->
  succeeds (Mock.getRandomItem Math_random array) Q w.
Proof.
  intros Hne Hlen HQ. unfold Mock.getRandomItem.
  apply succeeds_bind, succeeds_random; [exact random_unit|]. intros u w1 Hu.
  apply succeeds_ret.
  assert (Hn : 0 < Z.of_nat (length array)) by (destruct array; [contradiction|cbn; lia]).
  pose proof (F64Facts.floor_scale u _ Hu (conj Hn Hlen)) as Hf.
  unfold Mock.at_index. rewrite (proj2 (Z.ltb_ge _ 0)) by lia.
  destruct (lookup_lt_is_Some_2 array (Z.to_nat (floor (u * of_int (Z.of_nat (length array))))))
    as [a Ha]; [lia|].
  rewrite Ha. apply HQ. eapply list_elem_of_lookup_2, Ha.
Qed.

Lemma succeeds_getRandomItems_range {A} (array : list A) (lo hi : Z)
    (Q : list A -> W -> Prop) w :
  0 <= lo <= hi -> hi - lo + 1 < 2 ^ 53 ->
  (forall r shuffled numItems w',
      lo <= numItems <= hi -> shuffled ≡ₚ array -> r = take (Z.to_nat numItems) shuffled ->
      Q r w') ->
  succeeds (Mock.getRandomItems Math_random Array_sort array lo hi) Q w.
Proof.
  intros Hlo Hhi HQ. unfold Mock.getRandomItems.
  apply succeeds_bind, succeeds_random; [exact random_unit|]. intros u w1 Hu.
  apply succeeds_bind, succeeds_lift, succeeds_ret.
  pose proof (F64Facts.floor_scale u (hi - lo + 1) Hu ltac:(lia)) as Hf.
  rewrite slice_0_take by lia.
  eapply HQ; [|apply sort_permutation|reflexivity]. lia.
Qed.

Lemma chars_get_mock (i : nat) : (i < 62)%nat -> is_Some (String.get i Mock.chars).
Proof. exact (chars_get i). Qed.

Lemma succeeds_keyLoop_alphabet_mock (n : nat) (result : string) (Q : string -> W -> Prop) w :
  overAlphabet Mock.chars result = true ->
  (forall s w', String.length s = (String.length result + n)%nat ->
                overAlphabet Mock.chars s = true -> Q s w') ->
  succeeds (Mock.keyLoop Math_random n result) Q w.
Proof.
  revert result Q w. induction n as [|n IH]; intros result Q w Hres HQ.
  - apply succeeds_ret, HQ; [lia|exact Hres].
  - cbn [Mock.keyLoop].
    apply succeeds_bind, succeeds_random; [exact random_unit|]. intros u w1 Hu.
    pose proof (F64Facts.floor_scale u 62 Hu ltac:(lia)) as Hf.
    change (of_int (Z.of_nat (String.length Mock.chars))) with (of_int 62).
    rewrite (proj2 (Z.ltb_ge _ 0)) by lia.
    destruct (chars_get_mock (Z.to_nat (floor (u * of_int 62)))) as [c Hc]; [lia|].
    rewrite Hc. apply IH.
    + apply overAlphabet_app; [exact Hres|]. cbn [overAlphabet].
      rewrite (get_occurs _ _ _ Hc). reflexivity.
    + intros s w' Hlen Hover. apply HQ; [|exact Hover].
      rewrite Hlen, length_append. cbn. lia.
Qed.


Lemma succeeds_newMetadata_fields_mock (Q : list (string * Value) -> W -> Prop) w :
  (forall m w', mockMetadataOk m -> Q m w') ->
  succeeds (Mock.newMetadata Math_random Date_now toISOString Array_sort) Q w.
Proof.
  intros HQ. unfold Mock.newMetadata.
  apply succeeds_bind, succeeds_getRandomItem_member; [discriminate|reflexivity|].
  intros a wa Ha.
  apply succeeds_bind, succeeds_getRandomItem_member; [discriminate|reflexivity|].
  intros n wn Hn.
  apply succeeds_bind, succeeds_getRandomItem_member; [discriminate|reflexivity|].
  intros ty wt Hty.
  apply succeeds_bind, succeeds_getRandomItem_member; [discriminate|reflexivity|].
  intros category wc Hcat.
  apply succeeds_bind, succeeds_getRandomItem_member; [discriminate|reflexivity|].
  intros rating wr Hrating.
  apply succeeds_bind, succeeds_getRandomNumber_mock. intros value wv.
  apply succeeds_bind, succeeds_getRandomItem_member; [discriminate|reflexivity|].
  intros status ws Hstatus.
  apply succeeds_bind, succeeds_getRandomItem_member; [discriminate|reflexivity|].
  intros priority wp Hpriority.
  apply succeeds_bind, succeeds_getRandomItem_member; [discriminate|reflexivity|].
  intros region wg Hregion.
  apply succeeds_bind, succeeds_getRandomItem_member; [discriminate|reflexivity|].
  intros department wd Hdepartment.
  apply succeeds_bind, succeeds_lift.
  apply succeeds_bind, succeeds_getRandomNumber_mock. intros age w1.
  apply succeeds_bind, succeeds_random; [exact random_unit|]. intros active w2 _.
  apply succeeds_bind, succeeds_getRandomNumber_mock. intros score w3.
  apply succeeds_bind, succeeds_getRandomItems_range; [lia|reflexivity|].
  intros tags shuffled numItems w4 Hnum Hperm Htake.
  assert (Htags : tagsOk Mock.SAMPLE_METADATA.attributes tags 5).
  { assert (Hlen : (length tags <= 5)%nat) by (rewrite Htake, length_take; lia).
    split; [exact Hlen|].
    apply (take_perm_clusters _ shuffled _ (Z.to_nat numItems) attributes_NoDup Hperm Htake). }
  apply succeeds_ret, HQ.
  do 14 eexists. split; [reflexivity|].
  repeat (split; [assumption|]). exact Htags.
Qed.

Lemma succeeds_newItem_fields_mock (centers : list (list float)) (d : nat) (i : Z)
    (Q : VectorItem -> W -> Prop) w :
  centersOk Mock.SAMPLE_CLUSTERS d centers ->
  (forall it w', mockItemOk centers i it -> mockItemFields it -> Q it w') ->
  succeeds (Mock.newItem Math_random Date_now toISOString Array_sort centers i) Q w.
Proof.
  intros [Hclen Hcs] HQ. unfold Mock.newItem.
  apply succeeds_bind, succeeds_getRandomItems_clusters;
    [exact random_unit|exact sort_permutation|].
  intros clusters w1 Hlen (l' & Hperm & Htake).
  destruct (take_perm_clusters _ _ _ _ SAMPLE_CLUSTERS_NoDup Hperm Htake) as [Hnd Hsub].
  destruct clusters as [|c0 rest]; [cbn in Hlen; lia|].
  change (Mock.at_index (c0 :: rest) 0) with (Some c0). cbn [Mock.indexOf].
  destruct (indexOfFrom_lookup Mock.SAMPLE_CLUSTERS c0 0) as (idx & Hidx & Efind).
  { apply Hsub. left. }
  rewrite Efind, Z.add_0_l.
  pose proof (lookup_lt_Some _ _ _ Hidx) as Hidxlt.
  destruct (lookup_lt_is_Some_2 centers idx ltac:(lia)) as [center Hcenter].
  unfold Mock.at_index. rewrite (proj2 (Z.ltb_ge (Z.of_nat idx) 0)) by lia.
  rewrite Nat2Z.id, Hcenter.
  apply succeeds_bind, succeeds_jitter; [exact random_unit|]. intros vec w2 Hnear.
  apply succeeds_bind, succeeds_newMetadata_fields_mock. intros metadata w3 Hmeta.
  apply succeeds_bind. unfold Mock.generateRandomKey.
  apply succeeds_keyLoop_alphabet_mock; [reflexivity|]. intros key w4 Hklen Hkey.
  apply succeeds_ret, HQ.
  - split; [reflexivity|]. cbn.
    split; [split; [exact Hlen|split; assumption]|].
    exists c0, idx, center. repeat split; assumption.
  - repeat split; assumption.
Qed.

Lemma succeeds_itemLoop_fields_mock (centers : list (list float)) (d : nat) (remaining : nat)
    (i : Z) (data : list VectorItem) (Q : list VectorItem -> W -> Prop) w :
  centersOk Mock.SAMPLE_CLUSTERS d centers ->
  (forall new w',
      length new = remaining ->
      (forall k it, new !! k = Some it ->
         mockItemOk centers (i + Z.of_nat k) it /\ mockItemFields it) ->
      Q (data ++ new) w') ->
  succeeds (Mock.itemLoop Math_random Date_now toISOString Array_sort
              centers remaining i data) Q w.
Proof.
  intros Hc. revert i data Q w.
  induction remaining as [|r IH]; intros i data Q w HQ.
  - apply succeeds_ret. rewrite <- (app_nil_r data). apply HQ; [reflexivity|].
    intros k it Hk. discriminate.
  - cbn [Mock.itemLoop].
    apply succeeds_bind, (succeeds_newItem_fields_mock centers d); [exact Hc|].
    intros it w1 Hit Hf.
    apply IH. intros new w2 Hlen Hnew.
    rewrite <- app_assoc. apply HQ; [cbn; lia|].
    intros [|k] it' Hk.
    + injection Hk as <-. rewrite Z.add_0_r. split; assumption.
    + replace (i + Z.of_nat (S k)) with (i + 1 + Z.of_nat k) by lia.
      apply Hnew. exact Hk.
Qed.

(** The mock service, with everything an item carries. *)
Lemma fetchVectorData_fields (params : Mock.FetchVectorDataParams) w :
  exists data w' centers,
    Mock.fetchVectorData Math_random Date_now toISOString Array_sort params w = Ok (data, w')
    /\ length data = Z.to_nat (default 500 (Mock.limit params))
    /\ centersOk Mock.SAMPLE_CLUSTERS (Z.to_nat (default 100 (Mock.dimensions params))) centers
    /\ forall k it, data !! k = Some it ->
         mockItemOk centers (Z.of_nat k) it /\ mockItemFields it.
Proof.
  assert (H : succeeds (Mock.fetchVectorData Math_random Date_now toISOString Array_sort params)
                (fun data _ =>
                   length data = Z.to_nat (default 500 (Mock.limit params))
                   /\ exists centers,
                        centersOk Mock.SAMPLE_CLUSTERS
                          (Z.to_nat (default 100 (Mock.dimensions params))) centers
                        /\ forall k it, data !! k = Some it ->
                             mockItemOk centers (Z.of_nat k) it /\ mockItemFields it) w).
  { unfold Mock.fetchVectorData.
    apply succeeds_bind, succeeds_newCenters_mock; [exact random_unit|].
    intros centers w1 Hk Hcs.
    assert (Hc : centersOk Mock.SAMPLE_CLUSTERS
                   (Z.to_nat (default 100 (Mock.dimensions params))) centers)
      by (split; assumption).
    eapply succeeds_itemLoop_fields_mock; [exact Hc|].
    intros new w2 Hlen Hnew. cbn [app]. split; [exact Hlen|].
    exists centers. split; [exact Hc|]. intros j it Hj.
    rewrite <- (Z.add_0_l (Z.of_nat j)). apply Hnew, Hj. }
  apply succeeds_inv in H as (data & w' & E & Hlen & centers & Hc & Hitems).
  exists data, w', centers. auto.
Qed.

(** X11.  [getRandomItem] of the mock service never throws; on a
    non-empty array it returns an element of the array, never [undefined]:
    [Math.floor(Math.random() * array.length)] is a valid index, also after
    rounding.  On the empty array it returns [undefined]. *)
Theorem Mock_getRandomItem_element {A} (array : list A) (w : W) :
  Z.of_nat (length array) < 2 ^ 53 ->
  exists x w',
    Mock.getRandomItem Math_random array w = Ok (x, w')
    /\ (array = [] -> x = None)
    /\ (array <> [] -> exists a, x = Some a /\ a ∈ array).
Proof.
  intros Hlen. destruct array as [|a0 rest].
  - unfold Mock.getRandomItem, bind, Mock.random, lift. destruct (Math_random w) as [u w1].
    eexists _, _. split; [reflexivity|]. split; [|intros H; contradiction].
    intros _. unfold Mock.at_index. destruct (_ <? 0); reflexivity.
  - assert (H : succeeds (Mock.getRandomItem Math_random (a0 :: rest))
                  (fun x _ => exists a, x = Some a /\ a ∈ a0 :: rest) w).
    { apply succeeds_getRandomItem_member; [discriminate|exact Hlen|]. eauto. }
    apply succeeds_inv in H as (x & w' & E & Hx).
    exists x, w'. split; [exact E|]. split; [discriminate|]. intros _. exact Hx.
Qed.

(** X12.  [getRandomItems] of the mock service, called with
    [0 <= minItems <= maxItems] (below 2^32, as the length of an array is):
    the number it draws lies between
    [minItems] and [maxItems], and the result is the prefix of that length
    of a rearrangement of the array, or the whole rearrangement when the
    array is shorter (the [slice] clamps, nothing is thrown); every entry
    comes from the array, and the entries are pairwise distinct when those
    of the array are. *)
Theorem Mock_getRandomItems_contract {A} (array : list A) (minItems maxItems : Z) (w : W) :
  0 <= minItems <= maxItems -> maxItems < 2 ^ 32 ->
  exists r w' shuffled numItems,
    Mock.getRandomItems Math_random Array_sort array minItems maxItems w = Ok (r, w')
    /\ minItems <= numItems <= maxItems
    /\ shuffled ≡ₚ array /\ r = take (Z.to_nat numItems) shuffled
    /\ length r = Nat.min (Z.to_nat numItems) (length array)
    /\ r ⊆ array /\ (NoDup array -> NoDup r).
Proof.
  intros Hmin Hmax.
  assert (H : succeeds (Mock.getRandomItems Math_random Array_sort array minItems maxItems)
                (fun r _ => exists shuffled numItems,
                     minItems <= numItems <= maxItems
                     /\ shuffled ≡ₚ array /\ r = take (Z.to_nat numItems) shuffled) w).
  { assert (2 ^ 32 < 2 ^ 53) by reflexivity.
    apply succeeds_getRandomItems_range; [exact Hmin|lia|]. eauto 6. }
  apply succeeds_inv in H as (r & w' & E & shuffled & numItems & Hnum & Hperm & Htake).
  exists r, w', shuffled, numItems. repeat split; try assumption; try lia.
  - rewrite Htake, length_take, Hperm. reflexivity.
  - intros x Hx. rewrite <- Hperm. rewrite Htake in Hx. exact (subseteq_take _ shuffled x Hx).
  - intros Hnd. rewrite Htake. apply (sublist_NoDup _ shuffled); [rewrite Hperm; exact Hnd|].
    apply sublist_take.
Qed.


(** X14.  Every item of [fetchVectorData] carries the thirteen metadata
    fields of the literal, in its order: the drawn name parts, type,
    category, rating, status, priority, region and department are entries
    of their sample lists, none is [undefined]; tags are at most five
    pairwise distinct attributes. *)
Theorem Mock_items_metadata (params : Mock.FetchVectorDataParams) (w : W) :
  exists data w',
    Mock.fetchVectorData Math_random Date_now toISOString Array_sort params w = Ok (data, w')
    /\ forall it, it ∈ data -> mockMetadataOk (metadata it).
Proof.
  destruct (fetchVectorData_fields params w) as (data & w' & cs & E & _ & _ & H).
  exists data, w'. split; [exact E|]. intros it Hit.
  apply list_elem_of_lookup in Hit as [k Hk]. exact (proj1 (proj2 (H k it Hk))).
Qed.

(** X15.  The item at position k of a result of [fetchVectorData] has
    the id k (so ids are pairwise distinct) and a key of exactly eight
    characters, each a letter or a digit of [chars]. *)
Theorem Mock_items_keys_and_ids (params : Mock.FetchVectorDataParams) (w : W) :
  exists data w',
    Mock.fetchVectorData Math_random Date_now toISOString Array_sort params w = Ok (data, w')
    /\ (forall k it, data !! k = Some it ->
          id it = IdNumber (Z.of_nat k)
          /\ String.length (key it) = 8%nat /\ overAlphabet Mock.chars (key it) = true).
Proof.
  destruct (fetchVectorData_fields params w) as (data & w' & cs & E & _ & _ & H).
  exists data, w'. split; [exact E|]. intros k it Hk.
  destruct (H k it Hk) as [(Hid & _) (_ & Hlen & Hover)]. auto.
Qed.

End MockHelpers.

(** ** The projector on generated data *)

Lemma blockMeans_in_cube (v : list float) :
  (3 <= length v)%nat -> Z.of_nat (length v) < 2 ^ 32 ->
  Forall (between (-1.25) 1.25) v ->
  inCube (scalePosition (blockMeans v)).
Proof.
  intros H3 Hlen Hv. unfold blockMeans.
  pose proof (axisDims_sum (Z.of_nat (length v)) ltac:(lia)) as Hsum.
  pose proof (axisBlocks_take_drop v) as Hblocks.
  assert (Hz : 1 <= snd (axisDims (Z.of_nat (length v)))).
  { unfold axisDims. cbn [snd]. apply Z.div_le_lower_bound; lia. }
  destruct (axisDims (Z.of_nat (length v))) as [[x y] z]. cbn [snd] in Hz.
  destruct Hsum as (_ & Hyx & Hxz & Hsum). rewrite Hblocks.
  assert (Hmean : forall (l : list float) (k : Z),
             Forall (between (-1.25) 1.25) l -> Z.of_nat (length l) = k -> 1 <= k < 2 ^ 32 ->
             between (-6.25) 6.25 (sum l / of_int k * scale)).
  { intros l k Hl <- Hk. apply F64Facts.scaled_mean_bound; [destruct l; [cbn in Hk; lia|discriminate]| |exact Hl].
    assert (2 ^ 32 < 2 ^ 50) by reflexivity. lia. }
  cbn [scalePosition inCube]. split; [|split]; apply Hmean; try lia.
  - apply Forall_take, Hv.
  - rewrite length_take. lia.
  - apply Forall_take, Forall_drop, Hv.
  - rewrite length_take, length_drop. lia.
  - apply Forall_drop, Hv.
  - rewrite length_drop. lia.
Qed.

(** X16.  The three blocks that the projector averages are balanced:
    their lengths do not increase from x to z and differ by at most one;
    and all three are non-empty exactly when the vector has at least three
    components (only then is no mean a division of 0 by 0). *)
Theorem projector_blocks_balanced (v : list float) :
  exists xs ys zs,
    axisBlocks v = (xs, ys, zs)
    /\ (length zs <= length ys <= length xs)%nat
    /\ (length xs <= length zs + 1)%nat
    /\ ((3 <= length v)%nat <-> xs <> [] /\ ys <> [] /\ zs <> []).
Proof.
  pose proof (axisDims_sum (Z.of_nat (length v)) ltac:(lia)) as Hsum.
  pose proof (axisBlocks_take_drop v) as Hblocks.
  assert (Hz : snd (axisDims (Z.of_nat (length v))) = Z.of_nat (length v) / 3) by reflexivity.
  destruct (axisDims (Z.of_nat (length v))) as [[x y] z]. cbn [snd] in Hz.
  destruct Hsum as (Hz0 & Hyx & Hxz & Hsum). rewrite Hblocks.
  eexists _, _, _. split; [reflexivity|].
  rewrite !length_take, !length_drop.
  split; [lia|]. split; [lia|].
  assert (Hnil : forall l : list float, l <> [] <-> (1 <= length l)%nat).
  { intros [|a l]; cbn; split; intros H; try lia; try discriminate. contradiction. }
  rewrite !Hnil, !length_take, !length_drop.
  pose proof (Z.div_le_lower_bound (Z.of_nat (length v)) 3 1 ltac:(lia)) as Hlo.
  pose proof (Z.div_lt_upper_bound (Z.of_nat (length v)) 3 1 ltac:(lia)) as Hhi.
  split; intros H; lia.
Qed.

(** X17.  When the vector of every input item has at least three
    components (and fewer than 2^32, as every JavaScript array), all
    between -1.25 and 1.25, each coordinate of every position that
    [projectVectorsTo3D] returns lies between -6.25 and 6.25: the rounded
    sums, the means and the scaling by 5 stay in range, so no coordinate
    is NaN or infinite. *)
Theorem projected_positions_in_cube (data : list VectorItem) :
  (forall it, it ∈ data ->
     (3 <= length (vector it))%nat /\ Z.of_nat (length (vector it)) < 2 ^ 32
     /\ Forall (between (-1.25) 1.25) (vector it)) ->
  exists out,
    projectVectorsTo3D data = Ok out
    /\ length out = length data
    /\ forall p, p ∈ out -> inCube (position p).
Proof.
  intros Hdata. exists (map projectItem data).
  split; [reflexivity|]. split; [apply length_map|].
  intros p Hp. apply list_elem_of_In, in_map_iff in Hp as (it & <- & Hit).
  apply list_elem_of_In in Hit. destruct (Hdata it Hit) as (H3 & Hlen & Hv).
  exact (blockMeans_in_cube _ H3 Hlen Hv).
Qed.

Lemma short_vector_nan (v : list float) :
  (length v < 3)%nat ->
  PrimFloat.is_nan (snd (scalePosition (blockMeans v))) = true.
Proof.
  intros Hlen. destruct v as [|a [|b [|c l]]]; cbn in Hlen; try lia;
    vm_compute; reflexivity.
Qed.

Section Pipeline.
Context {WG WJ : Type}.
Variable rand_Float64 : WG -> float * WG.
Variable rand_Intn : Z -> WG -> Z * WG.
Variable time_Now : WG -> Z * WG.
Variable formatRFC3339 : Z -> string.
Hypothesis Float64_unit : forall w, unit_interval (fst (rand_Float64 w)).
Hypothesis Intn_range : forall n w, 0 < n -> 0 <= fst (rand_Intn n w) < n.
Variable Math_random : WJ -> float * WJ.
Variable Date_now : WJ -> float * WJ.
Variable toISOString : float -> string.
Variable Array_sort : forall A : Type, (A -> A -> WJ -> float * WJ) -> list A -> WJ -> list A * WJ.
Hypothesis random_unit : forall w, unit_interval (fst (Math_random w)).
Hypothesis sort_permutation :
  forall (A : Type) (cmp : A -> A -> WJ -> float * WJ) (l : list A) w,
    fst (Array_sort A cmp l w) ≡ₚ l.


(** X19.  The vectors of the Go backend project into the same cube: for
    [dimensions >= 3], the position that the projector computes from the
    vector of any generated item (block means, times 5) lies inside
    [-6.25, 6.25]^3. *)
Theorem Go_vectors_project_into_cube (limit d : Z) (w : WG) :
  0 <= limit -> 3 <= d < 2 ^ 32 ->
  exists data w',
    Go.generateVectorData rand_Float64 rand_Intn time_Now formatRFC3339 limit d w = Ok (data, w')
    /\ forall it, it ∈ data -> inCube (scalePosition (blockMeans (Go.Vector it))).
Proof.
  intros Hl Hd.
  destruct (generateVectorData_fields rand_Float64 rand_Intn time_Now formatRFC3339
              Float64_unit Intn_range limit d w Hl ltac:(lia))
    as (data & w' & centers & E & Hlen & Hc & Hitems).
  exists data, w'. split; [exact E|]. intros it Hit.
  apply list_elem_of_lookup in Hit as [k Hk].
  destruct (Hitems k it Hk) as [(_ & _ & Hprim) _].
  destruct (primaryOk_components _ _ _ _ _ Hc Hprim) as (_ & _ & _ & _ & _ & _ & _ & _ & Hv).
  pose proof (primaryOk_length _ _ _ _ _ Hc Hprim) as Hvlen.
  apply blockMeans_in_cube; [lia|lia|exact Hv].
Qed.

(** X20.  Neither generator asks for the three dimensions that the
    projector needs: called with [dimensions] 0, 1 or 2 (a positive value
    reaches the Go generator through the handler as it is), the z
    coordinate that the projector computes for every item of a result is
    NaN; and both do return their [limit] items, for a [limit] within the
    limits of the run-time (items of 88 bytes in at most 2^48 bytes for
    the Go backend, fewer than 2^32 items for the mock service). *)
Theorem short_dimensions_project_to_nan (limit d : Z) (wg : WG) (wj : WJ) :
  0 <= d < 3 ->
  (forall data w',
      Go64.generateVectorData rand_Float64 rand_Intn time_Now formatRFC3339 limit d wg
      = Ok (data, w') ->
      forall it, it ∈ data ->
        PrimFloat.is_nan (snd (scalePosition (blockMeans (Go.Vector it)))) = true)
  /\ (0 <= limit -> Go64.sizeofVectorItem * limit <= Go64.maxAlloc ->
      exists data w',
        Go64.generateVectorData rand_Float64 rand_Intn time_Now formatRFC3339 limit d wg
        = Ok (data, w')
        /\ Go.len data = limit)
  /\ (forall data w',
        Mock32.fetchVectorData Math_random Date_now toISOString Array_sort
          {| Mock.limit := Some limit; Mock.dimensions := Some d |} wj = Ok (data, w') ->
        exists out,
          projectVectorsTo3D data = Ok out
          /\ length out = length data
          /\ forall p, p ∈ out -> PrimFloat.is_nan (snd (position p)) = true)
  /\ (0 <= limit <= Mock32.maxLength ->
      exists data w',
        Mock32.fetchVectorData Math_random Date_now toISOString Array_sort
          {| Mock.limit := Some limit; Mock.dimensions := Some d |} wj = Ok (data, w')
        /\ Z.of_nat (length data) = limit).
Proof.
  intros Hd.
  assert (Hds : Go64.sizeofFloat64 * d <= Go64.maxAlloc)
    by (unfold Go64.sizeofFloat64, Go64.maxAlloc; lia).
  assert (Hdm : d <= Mock32.maxLength) by (unfold Mock32.maxLength; lia).
  repeat apply conj.
  - intros data w' E.
    apply (generateVectorData_returns _ _ _ _ Float64_unit Intn_range) in E
      as (_ & (Hl & Hls) & E).
    destruct (generateVectorData_items rand_Float64 rand_Intn time_Now formatRFC3339
                Float64_unit Intn_range limit d wg Hl ltac:(lia))
      as (data' & w'' & centers & E' & Hlen & Hc & Hitems).
    rewrite E in E'. injection E' as <- <-.
    intros it Hit. apply list_elem_of_lookup in Hit as [k Hk].
    destruct (Hitems k it Hk) as (_ & _ & Hprim).
    pose proof (primaryOk_length _ _ _ _ _ Hc Hprim) as Hvlen.
    apply short_vector_nan. lia.
  - intros Hl Hls.
    destruct (generateVectorData_items rand_Float64 rand_Intn time_Now formatRFC3339
                Float64_unit Intn_range limit d wg Hl ltac:(lia))
      as (data & w' & centers & E & Hlen & _).
    rewrite <- (generateVectorData_agrees _ _ _ _ Intn_range) in E by (assumption || lia).
    eauto.
  - intros data w' E.
    apply (fetchVectorData_returns _ _ _ _ random_unit sort_permutation) in E as (_ & _ & E).
    destruct (fetchVectorData_items Math_random Date_now toISOString Array_sort
                random_unit sort_permutation limit d wj)
      as (data' & w'' & centers & E' & Hlen & Hc & Hitems).
    rewrite E in E'. injection E' as <- <-.
    exists (map projectItem data). split; [reflexivity|]. split; [apply length_map|].
    intros p Hp. apply list_elem_of_In, in_map_iff in Hp as (it & <- & Hit).
    apply list_elem_of_In, list_elem_of_lookup in Hit as [k Hk].
    destruct (Hitems k it Hk) as (_ & _ & Hprim).
    pose proof (primaryOk_length _ _ _ _ _ Hc Hprim) as Hvlen.
    apply (short_vector_nan (vector it)). lia.
  - intros Hl.
    destruct (fetchVectorData_items Math_random Date_now toISOString Array_sort
                random_unit sort_permutation limit d wj)
      as (data & w' & centers & E & Hlen & _).
    rewrite <- (fetchVectorData_agrees Math_random Date_now toISOString Array_sort) in E
      by (cbn; lia).
    exists data, w'. split; [exact E|lia].
Qed.

(** X21.  The parameters of the mock service, where a missing [limit]
    stands for 500 and a missing [dimensions] for 100: for values below
    2^32 it returns [max(limit, 0)] items with vectors of
    [max(dimensions, 0)] components, so a call without parameters gives
    500 items of 100 components; a [dimensions] of 2^32 or more makes
    [Array.from] throw a RangeError before any item is built, and a
    [limit] of 2^32 or more makes the [push] of item number 2^32 throw
    one. *)
Theorem Mock_fetchVectorData_defaults (params : Mock.FetchVectorDataParams) (w : WJ) :
  (default 500 (Mock.limit params) <= Mock32.maxLength ->
   default 100 (Mock.dimensions params) <= Mock32.maxLength ->
   exists data w',
     Mock32.fetchVectorData Math_random Date_now toISOString Array_sort params w
     = Ok (data, w')
     /\ length data = Z.to_nat (default 500 (Mock.limit params))
     /\ forall it, it ∈ data ->
          length (vector it) = Z.to_nat (default 100 (Mock.dimensions params)))
  /\ (Mock.limit params = None -> Mock.dimensions params = None ->
      exists data w',
        Mock32.fetchVectorData Math_random Date_now toISOString Array_sort params w
        = Ok (data, w')
        /\ length data = 500%nat
        /\ forall it, it ∈ data -> length (vector it) = 100%nat)
  /\ (Mock32.maxLength < default 100 (Mock.dimensions params) ->
      Mock32.fetchVectorData Math_random Date_now toISOString Array_sort params w
      = Err (RangeError "Invalid array length"))
  /\ (default 100 (Mock.dimensions params) <= Mock32.maxLength ->
      Mock32.maxLength < default 500 (Mock.limit params) ->
      Mock32.fetchVectorData Math_random Date_now toISOString Array_sort params w
      = Err (RangeError "Invalid array length")).
Proof.
  assert (H : default 500 (Mock.limit params) <= Mock32.maxLength ->
              default 100 (Mock.dimensions params) <= Mock32.maxLength ->
              exists data w',
                Mock32.fetchVectorData Math_random Date_now toISOString Array_sort params w
                = Ok (data, w')
                /\ length data = Z.to_nat (default 500 (Mock.limit params))
                /\ forall it, it ∈ data ->
                     length (vector it) = Z.to_nat (default 100 (Mock.dimensions params))).
  { intros Hl Hd. rewrite fetchVectorData_agrees by assumption.
    assert (H : succeeds (Mock.fetchVectorData Math_random Date_now toISOString Array_sort params)
                  (fun data _ =>
                     length data = Z.to_nat (default 500 (Mock.limit params))
                     /\ forall it, it ∈ data ->
                          length (vector it)
                          = Z.to_nat (default 100 (Mock.dimensions params))) w).
    { eapply succeeds_mono; [apply succeeds_fetchVectorData; assumption|].
      cbv zeta. intros data w' (Hlen & centers & Hc & Hitems). split; [exact Hlen|].
      intros it Hit. apply list_elem_of_lookup in Hit as [k Hk].
      destruct (Hitems k it Hk) as (_ & _ & Hprim).
      exact (primaryOk_length _ _ _ _ _ Hc Hprim). }
    apply succeeds_inv in H as (data & w' & E & Hlen & Hv). eauto. }
  repeat apply conj.
  - exact H.
  - intros El Ed. rewrite El, Ed in H.
    destruct H as (data & w' & E & Hlen & Hv); [vm_compute; discriminate..|].
    exists data, w'. split; [exact E|]. split; [exact Hlen|exact Hv].
  - apply fetchVectorData_dimensions_beyond.
  - apply fetchVectorData_limit_beyond; assumption.
Qed.

End Pipeline.

(** ** The properties at concrete inputs, in the sample world *)

Lemma Go_getRandomItem_of_slice_witness :
  (exists s w',
      Go.getRandomItem Sample.rand_Intn (VStrings Go.sampleNames) 0%nat = Ok (VString s, w')
      /\ s ∈ Go.sampleNames)
  /\ (exists n w',
         Go.getRandomItem Sample.rand_Intn (VInts Go.sampleRatings) 0%nat = Ok (VInt n, w')
         /\ n ∈ Go.sampleRatings)
  /\ Go.getRandomItem Sample.rand_Intn (VStrings []) 0%nat
     = Err (Panic "invalid argument to Intn")
  /\ Go.getRandomItem Sample.rand_Intn (VBool true) 0%nat = Ok (VUndefined, 0%nat).
Proof.
  destruct (Go_getRandomItem_of_slice Sample.rand_Intn SampleFacts.Intn_range
              Go.sampleNames Go.sampleRatings (VBool true) 0%nat) as (H1 & H2 & H3 & _ & H5).
  split; [apply H1; discriminate|]. split; [apply H2; discriminate|].
  split; [exact H3|]. apply H5; discriminate.
Defined.

Lemma Go_getRandomItems_contract_witness :
  exists r w' shuffled,
    Go.getRandomItems Sample.rand_Intn Go.sampleAttributes 0 5 0%nat = Ok (r, w')
    /\ 0 <= Go.len r <= 5
    /\ shuffled ≡ₚ Go.sampleAttributes /\ r = take (length r) shuffled
    /\ r ⊆ Go.sampleAttributes /\ (NoDup Go.sampleAttributes -> NoDup r).
Proof.
  apply (Go_getRandomItems_contract Sample.rand_Intn SampleFacts.Intn_range
           Go.sampleAttributes 0 5 0%nat); [lia|unfold Go.len; cbn; lia].
Defined.

Lemma Go_getRandomItems_inverted_bounds_witness :
  Go64.getRandomItems Sample.rand_Intn Go.sampleClusters 3 1 0%nat
  = Err (Panic "invalid argument to Intn").
Proof.
  apply (Go_getRandomItems_inverted_bounds Sample.rand_Intn SampleFacts.Intn_range
           Go.sampleClusters 3 1 0%nat); [lia..|]. left. lia.
Defined.

Lemma Go_getRandomItems_beyond_length_witness :
  Go64.getRandomItems Sample.rand_Intn ["Small"; "Medium"]%string 0 5 0%nat
  = Err (Panic "slice bounds out of range").
Proof.
  apply (Go_getRandomItems_beyond_length Sample.rand_Intn SampleFacts.Intn_range
           ["Small"; "Medium"]%string 0 5 0%nat); vm_compute; (reflexivity || discriminate).
Defined.

Lemma Go_generateRandomKey_result_witness :
  Go64.generateRandomKey Sample.rand_Intn (-1) 0%nat = Err (Panic "makeslice: len out of range")
  /\ Go64.generateRandomKey Sample.rand_Intn 281474976710657 0%nat
     = Err (Panic "makeslice: len out of range")
  /\ exists s w', Go64.generateRandomKey Sample.rand_Intn 8 0%nat = Ok (s, w')
                  /\ Z.of_nat (String.length s) = 8
                  /\ overAlphabet Go.chars s = true.
Proof.
  split; [|split].
  - apply (Go_generateRandomKey_result Sample.rand_Intn SampleFacts.Intn_range (-1) 0%nat).
    left. lia.
  - apply (Go_generateRandomKey_result Sample.rand_Intn SampleFacts.Intn_range
             281474976710657 0%nat).
    right. reflexivity.
  - apply (Go_generateRandomKey_result Sample.rand_Intn SampleFacts.Intn_range 8 0%nat).
    split; [lia|vm_compute; discriminate].
Defined.

Lemma Go_items_metadata_witness :
  exists data w',
    Sample.generateVectorData 2 3 0%nat = Ok (data, w')
    /\ forall it, it ∈ data -> goMetadataOk (Go.Metadata it).
Proof.
  apply (Go_items_metadata Sample.rand_Float64 Sample.rand_Intn Sample.time_Now
           Sample.formatRFC3339 SampleFacts.Float64_unit SampleFacts.Intn_range 2 3 0%nat); lia.
Defined.

Lemma Go_items_keys_witness :
  exists data w',
    Sample.generateVectorData 2 3 0%nat = Ok (data, w')
    /\ forall it, it ∈ data ->
         String.length (Go.Key it) = 8%nat /\ overAlphabet Go.chars (Go.Key it) = true.
Proof.
  apply (Go_items_keys Sample.rand_Float64 Sample.rand_Intn Sample.time_Now
           Sample.formatRFC3339 SampleFacts.Float64_unit SampleFacts.Intn_range 2 3 0%nat); lia.
Defined.

Lemma Go_items_ids_distinct_witness :
  exists data w',
    Sample.generateVectorData 2 3 0%nat = Ok (data, w')
    /\ (forall k it, data !! k = Some it ->
          Go.ID it = Go.Itoa (Z.of_nat k) /\ Go.Atoi (Go.ID it) = Some (Z.of_nat k))
    /\ (forall i j a b, data !! i = Some a -> data !! j = Some b ->
                        Go.ID a = Go.ID b -> i = j).
Proof.
  apply (Go_items_ids_distinct Sample.rand_Float64 Sample.rand_Intn Sample.time_Now
           Sample.formatRFC3339 SampleFacts.Float64_unit SampleFacts.Intn_range 2 3 0%nat); lia.
Defined.

Lemma Go_handleVectorData_answers_witness :
  (exists data w',
      Go64.handleVectorData Sample.rand_Float64 Sample.rand_Intn Sample.time_Now
        Sample.formatRFC3339 "GET" "2" "abc" 0%nat = Ok (Go.Json data (Go.len data), w')
      /\ Go.len data = 2
      /\ forall it, it ∈ data -> Go.len (Go.Vector it) = 100)
  /\ Go64.handleVectorData Sample.rand_Float64 Sample.rand_Intn Sample.time_Now
       Sample.formatRFC3339 "GET" "9223372036854775807" "" 0%nat
     = Err (Panic "makeslice: cap out of range").
Proof.
  split.
  - apply (Go_handleVectorData_answers Sample.rand_Float64 Sample.rand_Intn Sample.time_Now
             Sample.formatRFC3339 SampleFacts.Float64_unit SampleFacts.Intn_range
             "GET" "2" "abc" 0%nat); [reflexivity|vm_compute; discriminate..].
  - apply (Go_handleVectorData_answers Sample.rand_Float64 Sample.rand_Intn Sample.time_Now
             Sample.formatRFC3339 SampleFacts.Float64_unit SampleFacts.Intn_range
             "GET" "9223372036854775807" "" 0%nat);
      [reflexivity|vm_compute; discriminate|vm_compute; reflexivity].
Defined.

Lemma Go_handler_honours_numerals_witness :
  (exists data w',
      Go64.handleVectorData Sample.rand_Float64 Sample.rand_Intn Sample.time_Now
        Sample.formatRFC3339 "GET" (Go.Itoa 2) (Go.Itoa 3) 0%nat = Ok (Go.Json data 2, w')
      /\ Go.len data = 2
      /\ forall it, it ∈ data -> Go.len (Go.Vector it) = 3)
  /\ Go64.handleVectorData Sample.rand_Float64 Sample.rand_Intn Sample.time_Now
       Sample.formatRFC3339 "GET" (Go.Itoa 4000000000000) (Go.Itoa 3) 0%nat
     = Err (Panic "makeslice: cap out of range").
Proof.
  split.
  - apply (Go_handler_honours_numerals Sample.rand_Float64 Sample.rand_Intn Sample.time_Now
             Sample.formatRFC3339 SampleFacts.Float64_unit SampleFacts.Intn_range 2 3 0%nat);
      [lia|lia|vm_compute; discriminate..].
  - apply (Go_handler_honours_numerals Sample.rand_Float64 Sample.rand_Intn Sample.time_Now
             Sample.formatRFC3339 SampleFacts.Float64_unit SampleFacts.Intn_range
             4000000000000 3 0%nat);
      [lia|lia|vm_compute; discriminate|vm_compute; reflexivity].
Defined.

Lemma Mock_getRandomItem_element_witness :
  exists x w',
    Mock.getRandomItem Sample.rand_Float64 Mock.SAMPLE_CLUSTERS 0%nat = Ok (x, w')
    /\ exists a, x = Some a /\ a ∈ Mock.SAMPLE_CLUSTERS.
Proof.
  destruct (Mock_getRandomItem_element Sample.rand_Float64 SampleFacts.Float64_unit
              Mock.SAMPLE_CLUSTERS 0%nat) as (x & w' & E & _ & H); [reflexivity|].
  exists x, w'. split; [exact E|]. apply H. discriminate.
Defined.

Lemma Mock_getRandomItems_contract_witness :
  exists r w' shuffled numItems,
    Mock.getRandomItems Sample.rand_Float64 Sample.Array_sort
      Mock.SAMPLE_METADATA.priorities 0 5 0%nat = Ok (r, w')
    /\ 0 <= numItems <= 5
    /\ shuffled ≡ₚ Mock.SAMPLE_METADATA.priorities /\ r = take (Z.to_nat numItems) shuffled
    /\ length r = Nat.min (Z.to_nat numItems) (length Mock.SAMPLE_METADATA.priorities)
    /\ r ⊆ Mock.SAMPLE_METADATA.priorities
    /\ (NoDup Mock.SAMPLE_METADATA.priorities -> NoDup r).
Proof.
  apply (Mock_getRandomItems_contract Sample.rand_Float64 Sample.Array_sort
           SampleFacts.Float64_unit SampleFacts.sort_permutation
           Mock.SAMPLE_METADATA.priorities 0 5 0%nat); [lia|reflexivity].
Defined.


Lemma Mock_items_metadata_witness :
  exists data w',
    Sample.fetchVectorData {| Mock.limit := Some 2; Mock.dimensions := Some 3 |} 0%nat
    = Ok (data, w')
    /\ forall it, it ∈ data -> mockMetadataOk (metadata it).
Proof.
  apply (Mock_items_metadata Sample.rand_Float64 Sample.Date_now Sample.toISOString
           Sample.Array_sort SampleFacts.Float64_unit SampleFacts.sort_permutation).
Defined.

Lemma Mock_items_keys_and_ids_witness :
  exists data w',
    Sample.fetchVectorData {| Mock.limit := Some 2; Mock.dimensions := Some 3 |} 0%nat
    = Ok (data, w')
    /\ (forall k it, data !! k = Some it ->
          id it = IdNumber (Z.of_nat k)
          /\ String.length (key it) = 8%nat /\ overAlphabet Mock.chars (key it) = true).
Proof.
  apply (Mock_items_keys_and_ids Sample.rand_Float64 Sample.Date_now Sample.toISOString
           Sample.Array_sort SampleFacts.Float64_unit SampleFacts.sort_permutation).
Defined.

Lemma projected_positions_in_cube_witness :
  exists out,
    projectVectorsTo3D [item4; item4] = Ok out
    /\ length out = 2%nat
    /\ forall p, p ∈ out -> inCube (position p).
Proof.
  apply (projected_positions_in_cube [item4; item4]).
  intros it Hit. apply list_elem_of_In in Hit.
  destruct Hit as [<-|[<-|[]]];
    (split; [cbn; lia|]; split; [reflexivity|]; repeat constructor; vm_compute; reflexivity).
Defined.


Lemma Go_vectors_project_into_cube_witness :
  exists data w',
    Sample.generateVectorData 2 3 0%nat = Ok (data, w')
    /\ forall it, it ∈ data -> inCube (scalePosition (blockMeans (Go.Vector it))).
Proof.
  apply (Go_vectors_project_into_cube Sample.rand_Float64 Sample.rand_Intn Sample.time_Now
           Sample.formatRFC3339 SampleFacts.Float64_unit SampleFacts.Intn_range 2 3 0%nat);
    [lia|split; [lia|reflexivity]].
Defined.

Lemma short_dimensions_project_to_nan_witness :
  (exists data w',
      Sample.generateVectorData64 2 2 0%nat = Ok (data, w')
      /\ Go.len data = 2
      /\ forall it, it ∈ data ->
           PrimFloat.is_nan (snd (scalePosition (blockMeans (Go.Vector it)))) = true)
  /\ (exists data w' out,
         Sample.fetchVectorData32 {| Mock.limit := Some 2; Mock.dimensions := Some 2 |} 0%nat
         = Ok (data, w')
         /\ Z.of_nat (length data) = 2
         /\ projectVectorsTo3D data = Ok out
         /\ length out = length data
         /\ forall p, p ∈ out -> PrimFloat.is_nan (snd (position p)) = true).
Proof.
  destruct (short_dimensions_project_to_nan
              Sample.rand_Float64 Sample.rand_Intn Sample.time_Now Sample.formatRFC3339
              SampleFacts.Float64_unit SampleFacts.Intn_range
              Sample.rand_Float64 Sample.Date_now Sample.toISOString Sample.Array_sort
              SampleFacts.Float64_unit SampleFacts.sort_permutation 2 2 0%nat 0%nat)
    as (H1 & H2 & H3 & H4); [lia|].
  split.
  - destruct H2 as (data & w' & E & Hlen); [lia|vm_compute; discriminate|].
    exists data, w'. split; [exact E|]. split; [exact Hlen|]. exact (H1 data w' E).
  - destruct H4 as (data & w' & E & Hlen); [vm_compute; split; discriminate|].
    destruct (H3 data w' E) as (out & Hout).
    exists data, w', out. split; [exact E|]. split; [exact Hlen|]. exact Hout.
Defined.

Lemma Mock_fetchVectorData_defaults_witness :
  (exists data w',
      Sample.fetchVectorData32 {| Mock.limit := None; Mock.dimensions := None |} 0%nat
      = Ok (data, w')
      /\ length data = 500%nat
      /\ forall it, it ∈ data -> length (vector it) = 100%nat)
  /\ Sample.fetchVectorData32 {| Mock.limit := Some 1; Mock.dimensions := Some 4294967296 |}
       0%nat
     = Err (RangeError "Invalid array length").
Proof.
  split.
  - apply (Mock_fetchVectorData_defaults
             Sample.rand_Float64 Sample.Date_now Sample.toISOString Sample.Array_sort
             SampleFacts.Float64_unit SampleFacts.sort_permutation
             {| Mock.limit := None; Mock.dimensions := None |} 0%nat); reflexivity.
  - destruct (Mock_fetchVectorData_defaults
                Sample.rand_Float64 Sample.Date_now Sample.toISOString Sample.Array_sort
                SampleFacts.Float64_unit SampleFacts.sort_permutation
                {| Mock.limit := Some 1; Mock.dimensions := Some 4294967296 |} 0%nat)
      as (_ & _ & H & _).
    apply H. reflexivity.
Defined.
